(** * mimir: attack base class, perturbation attack and the scoring pipeline

    A shallow embedding of

    - [mimir/attacks/all_attacks.py]   ([AllAttacks], [Attack]),
    - [mimir/attacks/perturbation.py]  ([PerturbationAttack]),
    - [notebooks/new_mi_experiment.py] ([get_attackers], [get_mia_scores],
      the trials of the script),

    followed by the properties of the scoring pipeline.

    Conventions of the embedding.

    - The losses and scores the models report are idealised as rationals
      ([Q]): their rounding, infinities and NaN are outside the model. The
      one float the control flow depends on, the quotient
      [n_samples / batch_size], is the binary64 value Python computes.
    - Python objects that the code only passes around (documents, token
      lists, neighbour lists) are elements of the small universe [value].
    - A raised exception is the [Raise] outcome of a computation in the
      monad [M]; a computation also carries the mutable object it runs on
      (the attacker, or the dictionary of attackers) and emits the calls it
      makes to its collaborators as a list of [event]s. The entry into a
      method of an attacker ([load], [unload], [_attack]) is an event too, so
      that a call is visible where it changes nothing.
    - Members of the [str]-mixin enumeration are identified with their
      string values, which is how they hash and compare. How an f-string
      renders a member depends on the interpreter and is a parameter of
      the embedding ([enum_format]).
    - The registry of attack classes ([mimir.attacks.utils.get_attacker])
      and the classes it hands out are not part of these files: a class is
      what calling it returns ([attack_ctor]), and the registry is a
      parameter.
    - Progress bars ([tqdm]) have no effect on the computation and are left
      out. *)

From Stdlib Require Import ZArith QArith Qround Qminmax String Ascii DecimalString Lia.
From stdpp Require Import base option list gmap strings.

Open Scope string_scope.
Open Scope list_scope.

(** ** Python values, exceptions, outcomes *)

#[warnings="-register-all"]
Inductive value : Type :=
| VStr (s : string)
| VInt (z : Z)
| VList (l : list value).

Inductive exn : Type :=
| ValueError (msg : string)
| NotImplementedError (msg : string)
| ZeroDivisionError
| OverflowError
| TypeError
| KeyError
| IndexError
| AttributeError
| UnboundLocalError
| Unmodelled.

(** [Unmodelled] is no Python exception: it marks the runs the embedding
    does not follow (see [dict_append]). *)

Inductive result (A : Type) : Type :=
| Ok (a : A)
| Raise (e : exn).
Arguments Ok {A} a.
Arguments Raise {A} e.

Definition is_ok {A} (r : result A) : bool :=
  match r with Ok _ => true | Raise _ => false end.

(** ** Slices, indexing, iteration *)

(** The bound of a slice, as [slice.indices] clamps it for a sequence of
    length [len]. *)
Definition clamp_index (len i : Z) : Z :=
  if (i <? 0)%Z then Z.max 0 (i + len) else Z.min i len.

(** [l[lo:hi]] *)
Definition py_slice {A} (l : list A) (lo hi : Z) : list A :=
  let len := Z.of_nat (length l) in
  let lo' := clamp_index len lo in
  let hi' := clamp_index len hi in
  take (Z.to_nat (hi' - lo')) (drop (Z.to_nat lo') l).

(** [l[i]] for a list, with Python's negative indices. *)
Definition py_index {A} (l : list A) (i : Z) : result A :=
  let len := Z.of_nat (length l) in
  let j := if (i <? 0)%Z then (i + len)%Z else i in
  if (j <? 0)%Z then Raise IndexError
  else match l !! Z.to_nat j with
       | Some x => Ok x
       | None => Raise IndexError
       end.

Fixpoint string_of_chars (l : list ascii) : string :=
  match l with
  | [] => EmptyString
  | c :: l' => String c (string_of_chars l')
  end.

Fixpoint chars_of_string (s : string) : list ascii :=
  match s with
  | EmptyString => []
  | String c s' => c :: chars_of_string s'
  end.

(** [v[:k]] on a value: a list gives a list, a string a string, anything
    else is not subscriptable. *)
Definition value_prefix (v : value) (k : Z) : result value :=
  match v with
  | VList l => Ok (VList (py_slice l 0 k))
  | VStr s => Ok (VStr (string_of_chars (py_slice (chars_of_string s) 0 k)))
  | VInt _ => Raise TypeError
  end.

(** The elements a [for] loop (or [enumerate]) draws from a value. *)
Definition value_iter (v : value) : result (list value) :=
  match v with
  | VList l => Ok l
  | VStr s => Ok (map (λ c, VStr (String c EmptyString)) (chars_of_string s))
  | VInt _ => Raise TypeError
  end.

(** ** Strings *)

(** [s.split(sep)] for a one-character separator. *)
Fixpoint split_on (sep : ascii) (s : string) : list string :=
  match s with
  | EmptyString => [EmptyString]
  | String c s' =>
      if Ascii.eqb c sep then EmptyString :: split_on sep s'
      else match split_on sep s' with
           | h :: t => String c h :: t
           | [] => [String c EmptyString]
           end
  end.

(** [name.split('/')[-1]] *)
Definition last_segment (name : string) : string :=
  List.last (split_on "/" name) EmptyString.

(** [str(n)] for an integer. *)
Definition str_of_int (n : Z) : string := NilZero.string_of_int (Z.to_int n).

(** [s.startswith(p)] *)
Definition startswith (s p : string) : bool := String.prefix p s.

(** ** Insertion-ordered dictionaries

    A [dict] (and a [defaultdict]) keyed by strings whose iteration order
    matters is an association list in insertion order, with at most one
    binding per key. *)

Section Dict.
Context {V : Type}.

Fixpoint dict_get (k : string) (d : list (string * V)) : option V :=
  match d with
  | [] => None
  | (k', v) :: d' => if String.eqb k k' then Some v else dict_get k d'
  end.

(** [d[k] = v]: overwrite in place, or insert at the end. *)
Fixpoint dict_set (k : string) (v : V) (d : list (string * V)) : list (string * V) :=
  match d with
  | [] => [(k, v)]
  | (k', v') :: d' =>
      if String.eqb k k' then (k', v) :: d' else (k', v') :: dict_set k v d'
  end.

Definition dict_keys (d : list (string * V)) : list string := map fst d.
End Dict.

(** ** The attack enumeration ([AllAttacks]) *)

Module AllAttacks.
Inductive t : Type :=
| LOSS | REFERENCE_BASED | PERTURBATION_BASED | ZLIB | MIN_K
| MIN_K_PLUS_PLUS | NEIGHBOR | GRADNORM | RECALL | DC_PDD.

Definition value (a : t) : string :=
  match a with
  | LOSS => "loss"
  | REFERENCE_BASED => "ref"
  | PERTURBATION_BASED => "perturb"
  | ZLIB => "zlib"
  | MIN_K => "min_k"
  | MIN_K_PLUS_PLUS => "min_k++"
  | NEIGHBOR => "ne"
  | GRADNORM => "gradnorm"
  | RECALL => "recall"
  | DC_PDD => "dc_pdd"
  end.

(** The name of a member, as [str()] shows it after the name of the class. *)
Definition name (a : t) : string :=
  match a with
  | LOSS => "LOSS"
  | REFERENCE_BASED => "REFERENCE_BASED"
  | PERTURBATION_BASED => "PERTURBATION_BASED"
  | ZLIB => "ZLIB"
  | MIN_K => "MIN_K"
  | MIN_K_PLUS_PLUS => "MIN_K_PLUS_PLUS"
  | NEIGHBOR => "NEIGHBOR"
  | GRADNORM => "GRADNORM"
  | RECALL => "RECALL"
  | DC_PDD => "DC_PDD"
  end.

(** The members in definition order, as iterating the class yields them. *)
Definition members : list t :=
  [LOSS; REFERENCE_BASED; PERTURBATION_BASED; ZLIB; MIN_K;
   MIN_K_PLUS_PLUS; NEIGHBOR; GRADNORM; RECALL; DC_PDD].
End AllAttacks.

(** The notebook imports the enumeration under its former name,
    [BlackBoxAttacks]; it is the enumeration above. *)
Module BlackBoxAttacks := AllAttacks.

(** How an f-string renders a member of the enumeration. [format()] of a
    member of a [str]-mixin [Enum] is the member's value up to CPython 3.10
    and [str()] of the member, [AllAttacks.NAME], from CPython 3.11 on.
    ([startswith], [==], [in] and hashing use the value on both.) *)
Inductive enum_format : Type :=
| ByValue
| ByName.

Definition format_member (f : enum_format) (a : AllAttacks.t) : string :=
  match f with
  | ByValue => AllAttacks.value a
  | ByName => "AllAttacks." ++ AllAttacks.name a
  end.

(** ** Configuration *)

Record NeighborhoodConfig : Type := {
  n_perturbation_list : list Z;
  load_from_cache : bool;
  dump_cache : bool;
  original_tokenization_swap : bool
}.

Record ExperimentConfig : Type := {
  pretokenized : bool;
  max_substrs : Z;
  full_doc : bool;
  blackbox_attacks : list string;
  neighborhood_config : option NeighborhoodConfig;
  random_seed : Z
}.

(** ** Collaborators and the calls made to them *)

(** A model wrapper is known by its name. *)
Definition Model : Type := string.

(** Per-token probabilities of a text under a model. *)
Definition TokenProbabilities : Type := list Q.

(** The keyword arguments that travel through [attack(..., **kwargs)].
    A keyword that is absent and one that is passed as [None] read the same
    through [kwargs.get(name, None)], so both are [None] here. *)
Record kwargs : Type := {
  kw_detokenized_sample : option value;
  kw_loss : option Q;
  kw_batch_size : option Z;
  kw_substr_neighbors : option value
}.

Inductive event : Type :=
| EvPrint (msg : string)
| EvFixSeed (seed : Z)
| EvDecode (m : Model) (ids : value)
| EvGetProbabilities (m : Model) (text : value) (tokens : option value)
| EvTargetLL (m : Model) (text : value) (probs : option TokenProbabilities)
    (tokens : option value)
| EvPerturbLL (m : Model) (text : value) (tokens : option value)
| EvModelLoad (m : Model)
| EvModelUnload (m : Model)
| EvLoad
| EvUnload
| EvScore (document : value) (probs : option TokenProbabilities)
    (tokens : option value) (kw : kwargs)
| EvAttack (key : string) (document : value)
    (probs : option TokenProbabilities) (kw : kwargs)
| EvAttackerUnload (key : string).

(** ** The monad of the embedding

    A computation runs on a mutable object of type [S], returns the object
    as it has left it, the calls it has made, and its outcome. An exception
    stops the computation; what was mutated and emitted until then stays. *)

Definition M (S A : Type) : Type := S → S * list event * result A.

Global Instance M_ret {S} : MRet (M S) := λ A a s, (s, [], Ok a).

Global Instance M_bind {S} : MBind (M S) := λ A B f m s,
  match m s with
  | (s1, t1, Ok a) =>
      match f a s1 with
      | (s2, t2, r) => (s2, t1 ++ t2, r)
      end
  | (s1, t1, Raise e) => (s1, t1, Raise e)
  end.

Definition raise {S A} (e : exn) : M S A := λ s, (s, [], Raise e).
Definition emit {S} (e : event) : M S unit := λ s, (s, [e], Ok tt).
Definition get {S} : M S S := λ s, (s, [], Ok s).
Definition modify {S} (f : S → S) : M S unit := λ s, (f s, [], Ok tt).
Definition lift_result {S A} (r : result A) : M S A := λ s, (s, [], r).

(** [for x in xs: acc = body(acc, x)] *)
Fixpoint for_fold {S A B} (body : B → A → M S B) (acc : B) (xs : list A) : M S B :=
  match xs with
  | [] => mret acc
  | x :: xs' => acc' ← body acc x; for_fold body acc' xs'
  end.

(** [for x in xs: body(x)] *)
Definition for_each {S A} (body : A → M S unit) (xs : list A) : M S unit :=
  for_fold (λ _ x, body x) tt xs.

(** Projections of a finished computation. *)
Definition final {S A} (x : S * list event * result A) : S := x.1.1.
Definition trace {S A} (x : S * list event * result A) : list event := x.1.2.
Definition outcome {S A} (x : S * list event * result A) : result A := x.2.

(** ** The base class [Attack] *)

(** The class of an attacker object decides which [_attack] runs: the one
    of [Attack] itself, the one of [PerturbationAttack], or the one of a
    subclass defined outside these files, which supplies a scoring
    function and inherits [load], [unload] and [attack]. *)
Inductive attack_class : Type :=
| ClsAttack
| ClsPerturbationAttack
| ClsSubclass (name : string).

Record Attack : Type := {
  cls : attack_class;
  config : ExperimentConfig;
  target_model : Model;
  ref_model : option Model;
  perturb_models : option (list Model);
  is_loaded : bool;
  is_blackbox : bool
}.

Definition set_is_loaded (b : bool) (self : Attack) : Attack :=
  {| cls := cls self; config := config self;
     target_model := target_model self; ref_model := ref_model self;
     perturb_models := perturb_models self; is_loaded := b;
     is_blackbox := is_blackbox self |}.

(** The environment of a run: what the collaborators answer, and how the
    interpreter renders a member of the enumeration in an f-string. The
    model wrappers and the scoring functions of the other subclasses are not
    part of these files. *)
Record Collaborators : Type := {
  member_format : enum_format;
  get_probabilities : Model → value → option value → TokenProbabilities;
  get_ll : Model → value → option TokenProbabilities → option value → Q;
  decode : Model → value → value;
  subclass_attack : string → Attack → value → option TokenProbabilities →
                    option value → kwargs → result Q
}.

(** [Attack.__init__] *)
Definition Attack_init (c : attack_class) (config : ExperimentConfig)
    (target_model : Model) (ref_model : option Model)
    (perturb_models : option (list Model)) (is_blackbox : bool) : result Attack :=
  Ok {| cls := c; config := config; target_model := target_model;
        ref_model := ref_model; perturb_models := perturb_models;
        is_loaded := false; is_blackbox := is_blackbox |}.

(** [PerturbationAttack.__init__] *)
Definition PerturbationAttack_init (config : ExperimentConfig) (model : Model)
    (perturbation_models : option (list Model)) : result Attack :=
  Attack_init ClsPerturbationAttack config model None perturbation_models true.

Section AttackMethods.
Variable W : Collaborators.

(** [Attack.load] *)
Definition load : M Attack unit :=
  emit EvLoad;;
  self ← get;
  match ref_model self with
  | Some m => emit (EvModelLoad m);; modify (set_is_loaded true)
  | None => mret tt
  end;;
  match perturb_models self with
  | Some ms =>
      for_each (λ model, emit (EvModelLoad model)) ms;;
      modify (set_is_loaded true)
  | None => mret tt
  end.

(** [Attack.unload] *)
Definition unload : M Attack unit :=
  emit EvUnload;;
  self ← get;
  match ref_model self with
  | Some m => emit (EvModelUnload m);; modify (set_is_loaded false)
  | None => mret tt
  end;;
  match perturb_models self with
  | Some ms =>
      for_each (λ model, emit (EvModelUnload model)) ms;;
      modify (set_is_loaded false)
  | None => mret tt
  end.

(** [PerturbationAttack._attack] *)
Definition PerturbationAttack_attack (document : value)
    (probs : option TokenProbabilities) (tokens : option value)
    (kw : kwargs) : M Attack Q :=
  self ← get;
  loss ← match kw_loss kw with
         | Some loss => mret loss
         | None =>
             emit (EvTargetLL (target_model self) document probs tokens);;
             mret (get_ll W (target_model self) document probs tokens)
         end;
  match perturb_models self with
  | None => raise TypeError
  | Some ms =>
      perturb_loss ←
        for_fold (λ perturb_loss perturb_model,
                    emit (EvPerturbLL perturb_model document tokens);;
                    mret (perturb_loss + get_ll W perturb_model document None tokens)%Q)
                 0%Q ms;
      if Nat.eqb (length ms) 0 then raise ZeroDivisionError
      else mret (loss - perturb_loss / inject_Z (Z.of_nat (length ms)))%Q
  end.

(** [self._attack(document, probs=probs, tokens=tokens, **kwargs)],
    dispatched on the class of [self]. *)
Definition _attack (document : value) (probs : option TokenProbabilities)
    (tokens : option value) (kw : kwargs) : M Attack Q :=
  emit (EvScore document probs tokens kw);;
  self ← get;
  match cls self with
  | ClsAttack => raise (NotImplementedError "Attack must implement attack()")
  | ClsPerturbationAttack => PerturbationAttack_attack document probs tokens kw
  | ClsSubclass name =>
      lift_result (subclass_attack W name self document probs tokens kw)
  end.

(** [Attack.attack] *)
Definition attack (document : value) (probs : option TokenProbabilities)
    (kw : kwargs) : M Attack Q :=
  self ← get;
  (if is_loaded self then mret tt
   else load;; modify (set_is_loaded true));;
  self ← get;
  match pretokenized (config self), kw_detokenized_sample kw with
  | true, None => raise (ValueError "detokenized_sample must be provided")
  | false, _ => _attack document probs None kw
  | true, Some detokenized_sample =>
      _attack detokenized_sample probs (Some document) kw
  end.
End AttackMethods.

(** ** Pure code that may raise *)

Global Instance result_ret : MRet result := λ A a, Ok a.

Global Instance result_bind : MBind result := λ A B f r,
  match r with
  | Ok a => f a
  | Raise e => Raise e
  end.

Fixpoint result_fold {A B} (body : B → A → result B) (acc : B) (xs : list A) : result B :=
  match xs with
  | [] => Ok acc
  | x :: xs' => acc' ← body acc x; result_fold body acc' xs'
  end.

(** [enumerate(xs)] *)
Definition enumerate {A} (xs : list A) : list (nat * A) :=
  zip (seq 0 (length xs)) xs.

(** [range(n)] *)
Definition range (n : Z) : list Z :=
  map Z.of_nat (seq 0 (Z.to_nat n)).

(** ** [math.ceil(n / d)] on integers

    [n / d] is true division: the quotient of two integers as a binary64
    float, correctly rounded (to nearest, ties to even), [0.0] when it
    underflows, [OverflowError] when it is beyond the range of a float and
    [ZeroDivisionError] for [d = 0]. The float is represented by the
    rational it denotes. *)

(** The integer nearest to [a / b] for [b > 0], ties to the even one. *)
Definition round_half_even (a b : Z) : Z :=
  let q := (a / b)%Z in
  let r := (a mod b)%Z in
  if (2 * r <? b)%Z then q
  else if (b <? 2 * r)%Z then (q + 1)%Z
  else if Z.even q then q else (q + 1)%Z.

(** The exponent [e] with [2^e <= a / b < 2^(e+1)], for positive [a], [b]. *)
Definition quotient_exponent (a b : Z) : Z :=
  let e0 := (Z.log2 a - Z.log2 b)%Z in
  if (b * 2 ^ Z.max 0 e0 <=? a * 2 ^ Z.max 0 (- e0))%Z then e0 else (e0 - 1)%Z.

(** The binary64 float nearest to [a / b], for positive [a], [b]: 53
    significant bits, the last of weight [2^u] and none below [2^-1074];
    [None] when the rounded value reaches [2^1024]. *)
Definition binary64_of_quotient (a b : Z) : option Q :=
  let e := quotient_exponent a b in
  let u := Z.max (e - 52) (-1074) in
  let m := round_half_even (a * 2 ^ Z.max 0 (- u)) (b * 2 ^ Z.max 0 u) in
  if (0 <=? u)%Z then
    if (2 ^ 1024 <=? m * 2 ^ u)%Z then None else Some (inject_Z (m * 2 ^ u))
  else Some (Qmake m (Z.to_pos (2 ^ (- u)))).

(** [n / d] *)
Definition py_true_div (n d : Z) : result Q :=
  if (d =? 0)%Z then Raise ZeroDivisionError
  else if (n =? 0)%Z then Ok 0%Q
  else match binary64_of_quotient (Z.abs n) (Z.abs d) with
       | Some v => Ok (if (Z.sgn n =? Z.sgn d)%Z then v else (- v)%Q)
       | None => Raise OverflowError
       end.

(** [math.ceil(x)] *)
Definition math_ceil (x : Q) : Z := Qceiling x.

(** [v[i]] on a value. *)
Definition value_index (v : value) (i : Z) : result value :=
  match v with
  | VList l => py_index l i
  | VStr s =>
      c ← py_index (chars_of_string s) i; Ok (VStr (String c EmptyString))
  | VInt _ => Raise TypeError
  end.

(** ** The per-document record ([sample_information])

    A [defaultdict(list)]: under ["sample"] the substrings of the document,
    under ["detokenized"] their decoded texts, under every other key the
    scores of one attack, one per substring. *)

Inductive entry : Type :=
| Raw (v : value)
| Scores (l : list Q).

Definition sample_information : Type := list (string * entry).

(** [d[k].append(x)] for a score [x]. An attack registered under one of the
    two raw keys would have its scores appended to the very list the
    substring loop iterates; the embedding does not follow such a run. *)
Definition dict_append (k : string) (x : Q) (d : sample_information) : result sample_information :=
  match dict_get k d with
  | None => Ok (dict_set k (Scores [x]) d)
  | Some (Scores l) => Ok (dict_set k (Scores (l ++ [x])) d)
  | Some (Raw _) => Raise Unmodelled
  end.

(** [d[k].extend(xs)] *)
Definition dict_extend (k : string) (xs : list Q) (d : sample_information) : result sample_information :=
  match dict_get k d with
  | None => Ok (dict_set k (Scores xs) d)
  | Some (Scores l) => Ok (dict_set k (Scores (l ++ xs)) d)
  | Some (Raw _) => Raise Unmodelled
  end.

(** [d[k]] where a raw entry is expected; a missing key reads as [[]]. *)
Definition dict_raw (k : string) (d : sample_information) : result value :=
  match dict_get k d with
  | None => Ok (VList [])
  | Some (Raw v) => Ok v
  | Some (Scores _) => Raise Unmodelled
  end.

(** [d[k][i]] where a list of scores is expected. *)
Definition dict_score (k : string) (i : Z) (d : sample_information) : result Q :=
  match dict_get k d with
  | None => Raise IndexError
  | Some (Scores l) => py_index l i
  | Some (Raw _) => Raise Unmodelled
  end.

(** [np.min(scores)] *)
Definition Qmin_bool (a b : Q) : Q := if Qle_bool a b then a else b.

Definition np_min (scores : list Q) : result Q :=
  match scores with
  | [] => Raise (ValueError "zero-size array to reduction operation minimum which has no identity")
  | x :: xs => Ok (fold_left Qmin_bool xs x)
  end.

(** ** The input data and the output table *)

Record Data : Type := {
  records : list value;
  neighbors : option (gmap Z (list (list value)))
}.

Definition PredictionTable : Type := list (string * list Q).

(** [predictions[attack].append(x)] on a [defaultdict(lambda: [])] *)
Definition predictions_append (k : string) (x : Q) (p : PredictionTable) : PredictionTable :=
  match dict_get k p with
  | None => dict_set k [x] p
  | Some l => dict_set k (l ++ [x]) p
  end.

(** ** Running a method of one attacker of the dictionary *)

(** [for key, obj in d.items(): acc = body(key, acc)], where the body
    mutates [obj]. *)
Fixpoint for_items {S B} (body : string → B → M S B) (acc : B) : M (list (string * S)) B :=
  λ d,
  match d with
  | [] => ([], [], Ok acc)
  | (k, s) :: d' =>
      match body k acc s with
      | (s1, t1, Ok acc1) =>
          match for_items body acc1 d' with
          | (d1, t2, r) => ((k, s1) :: d1, t1 ++ t2, r)
          end
      | (s1, t1, Raise e) => ((k, s1) :: d', t1, Raise e)
      end
  end.

(** Run [m] on the object stored under [key]. *)
Definition on_item {S A} (key : string) (m : M S A) : M (list (string * S)) A :=
  λ d,
  match dict_get key d with
  | Some s =>
      match m s with
      | (s1, t, r) => (dict_set key s1 d, t, r)
      end
  | None => (d, [], Raise KeyError)
  end.

(** ** [get_attackers] *)

Definition str_in (a : string) (l : list string) : bool :=
  existsb (String.eqb a) l.

(** [[a.value for a in BlackBoxAttacks]] *)
Definition implemented_blackbox_attacks : list string :=
  map BlackBoxAttacks.value BlackBoxAttacks.members.

(** [f"{BlackBoxAttacks.REFERENCE_BASED}-{name.split('/')[-1]}"] *)
Definition ref_key_of (f : enum_format) (name : string) : string :=
  format_member f BlackBoxAttacks.REFERENCE_BASED ++ "-" ++ last_segment name.

(** A class of attackers, as the registry hands it out: what calling it
    with [(config, target_model)] or with [(config, target_model, ref_model)]
    returns, or raises. The classes of the registry are defined outside
    these files. *)
Definition attack_ctor : Type :=
  ExperimentConfig → Model → option Model → result Attack.

Section GetAttackers.
(** The registry [mimir.attacks.utils.get_attacker] is not part of these
    files: it is a parameter, from an identifier to the class it names
    (or the exception it raises). *)
Variable get_attacker : string → result attack_ctor.
(** The rendering of the enumeration member in the key of a reference
    model. *)
Variable fmt : enum_format.

(** The loop that checks for unimplemented attacks. *)
Definition runnable_attacks (attacks : list string) : M unit (list string) :=
  for_fold (λ runnable_attacks a,
              (if negb (str_in a implemented_blackbox_attacks)
               then emit (EvPrint ("Attack " ++ a ++ " not implemented, will be ignored"))
               else mret tt);;
              mret (runnable_attacks ++ [a]))
           [] attacks.

Definition get_attackers (target_model : Model)
    (ref_models : option (list (string * Model)))
    (config : ExperimentConfig) : M unit (list (string * Attack)) :=
  attacks ← runnable_attacks (blackbox_attacks config);
  attackers ←
    for_fold (λ attackers attack,
                if negb (String.eqb attack (BlackBoxAttacks.value BlackBoxAttacks.REFERENCE_BASED))
                then
                  cls ← lift_result (get_attacker attack);
                  attacker ← lift_result (cls config target_model None);
                  mret (dict_set attack attacker attackers)
                else mret attackers)
             [] attacks;
  match ref_models with
  | Some ref_models =>
      for_fold (λ attackers '(name, ref_model),
                  cls ← lift_result (get_attacker (BlackBoxAttacks.value BlackBoxAttacks.REFERENCE_BASED));
                  attacker ← lift_result (cls config target_model (Some ref_model));
                  mret (dict_set (ref_key_of fmt name) attacker attackers))
               attackers ref_models
  | None => mret attackers
  end.
End GetAttackers.

(** ** [get_mia_scores] *)

Section Pipeline.
Variable W : Collaborators.
Variable target_model : Model.
Variable config : ExperimentConfig.

Definition LOSS : string := BlackBoxAttacks.value BlackBoxAttacks.LOSS.
Definition REFERENCE_BASED : string := BlackBoxAttacks.value BlackBoxAttacks.REFERENCE_BASED.
Definition NEIGHBOR : string := BlackBoxAttacks.value BlackBoxAttacks.NEIGHBOR.

(** The substrings of one document:
    [texts[idx][:config.max_substrs] if config.full_doc else [texts[idx]]]. *)
Definition select_sample (doc : value) : result value :=
  if full_doc config then value_prefix doc (max_substrs config)
  else Ok (VList [doc]).

(** [neighbors[n_perturbation][batch * batch_size + idx][i]] *)
Definition lookup_neighbors (cache : gmap Z (list (list value)))
    (n_perturbation doc_index : Z) (i : nat) : result value :=
  match cache !! n_perturbation with
  | None => Raise KeyError
  | Some per_doc =>
      per_substr ← py_index per_doc doc_index;
      py_index per_substr (Z.of_nat i)
  end.

(** The truth value of [neighbors]: neither [None] nor an empty mapping. *)
Definition neighbors_truthy (nb : option (gmap Z (list (list value)))) : bool :=
  match nb with
  | None => false
  | Some cache => negb (Nat.eqb (size cache) 0)
  end.

Section Substring.
Variable nb : option (gmap Z (list (list value))).
Variable doc_index : Z.
Variable i : nat.
Variable substr : value.
Variable s_tk_probs : TokenProbabilities.
Variable detokenized_i : option value.
Variable loss : Q.

(** The body of [for n_perturbation in n_perturbation_list]; [name] is the
    key of the attacker (the loop variable [attack]). *)
Definition neighbor_step (neigh_config : NeighborhoodConfig) (name : string)
    (si : sample_information) (n_perturbation : Z)
    : M Attack sample_information :=
  if neighbors_truthy nb && negb (dump_cache neigh_config)
  then
    substr_neighbors ←
      lift_result (lookup_neighbors (default ∅ nb) n_perturbation doc_index i);
    let kw := {| kw_detokenized_sample := detokenized_i;
                 kw_loss := Some loss;
                 kw_batch_size := Some 4%Z;
                 kw_substr_neighbors := Some substr_neighbors |} in
    emit (EvAttack name substr (Some s_tk_probs) kw);;
    score ← attack W substr (Some s_tk_probs) kw;
    lift_result (dict_append (name ++ "-" ++ str_of_int n_perturbation) score si)
  else mret si.

(** The neighbourhood branch: one pass over [n_perturbation_list], which is
    bound only when the configuration has a neighbourhood section. *)
Definition neighbor_scores (name : string) (si : sample_information)
    : M Attack sample_information :=
  match neighborhood_config config with
  | None => raise UnboundLocalError
  | Some neigh_config =>
      for_fold (neighbor_step neigh_config name) si (n_perturbation_list neigh_config)
  end.

(** The body of [for attack, attacker in attackers_dict.items()]. *)
Definition run_attack (name : string) (si : sample_information)
    : M Attack sample_information :=
  if startswith name REFERENCE_BASED || String.eqb name LOSS then mret si
  else if negb (String.eqb name NEIGHBOR) then
    let kw := {| kw_detokenized_sample := detokenized_i;
                 kw_loss := Some loss;
                 kw_batch_size := None;
                 kw_substr_neighbors := None |} in
    emit (EvAttack name substr (Some s_tk_probs) kw);;
    score ← attack W substr (Some s_tk_probs) kw;
    lift_result (dict_append name score si)
  else neighbor_scores name si.
End Substring.

(** The body of [for i, substr in enumerate(sample)]. *)
Definition process_substring (nb : option (gmap Z (list (list value))))
    (doc_index : Z) (detokenized_sample : option (list value))
    (si : sample_information) (x : nat * value)
    : M (list (string * Attack)) sample_information :=
  let '(i, substr) := x in
  detokenized_i ←
    (if pretokenized config then
       match detokenized_sample with
       | Some ds => d ← lift_result (py_index ds (Z.of_nat i)); mret (Some d)
       | None => raise UnboundLocalError
       end
     else mret None);
  let text := default substr detokenized_i in
  let tokens := if pretokenized config then Some substr else None in
  emit (EvGetProbabilities target_model text tokens);;
  let s_tk_probs := get_probabilities W target_model text tokens in
  emit (EvTargetLL target_model text (Some s_tk_probs) tokens);;
  let loss := get_ll W target_model text (Some s_tk_probs) tokens in
  si ← lift_result (dict_append LOSS loss si);
  for_items (run_attack nb doc_index i substr s_tk_probs detokenized_i loss) si.

(** The body of [for idx in range(len(texts))], up to
    [results.append(sample_information)]. *)
Definition process_document (nb : option (gmap Z (list (list value))))
    (doc_index : Z) (doc : value)
    : M (list (string * Attack)) sample_information :=
  sample ← lift_result (select_sample doc);
  let si := dict_set "sample" (Raw sample) [] in
  substrs ← lift_result (value_iter sample);
  '(detokenized_sample, si) ←
    (if pretokenized config then
       ds ← for_fold (λ ds s,
                        emit (EvDecode target_model s);;
                        mret (ds ++ [decode W target_model s]))
                     [] substrs;
       mret (Some ds, dict_set "detokenized" (Raw (VList ds)) si)
     else mret (None, si));
  for_fold (process_substring nb doc_index detokenized_sample) si (enumerate substrs).

(** The loop over the batches: the first pass. *)
Definition primary_pass (data : Data) (nb : option (gmap Z (list (list value))))
    (n_samples batch_size : Z)
    : M (list (string * Attack)) (list sample_information) :=
  quotient ← lift_result (py_true_div n_samples batch_size);
  for_fold (λ results batch,
              let texts := py_slice (records data) (batch * batch_size)
                                    ((batch + 1) * batch_size) in
              for_fold (λ results '(idx, doc),
                          si ← process_document nb (batch * batch_size + Z.of_nat idx) doc;
                          mret (results ++ [si]))
                       results (enumerate texts))
           [] (range (math_ceil quotient)).

(** The reference scores of one record [r], computed by the attacker the
    computation runs on. *)
Definition reference_scores (ref_key : string) (r : sample_information)
    : M Attack sample_information :=
  sample ← lift_result (dict_raw "sample" r);
  substrs ← lift_result (value_iter sample);
  ref_model_scores ←
    for_fold (λ ref_model_scores '(i, s),
                s ← (if pretokenized config then
                       detokenized ← lift_result (dict_raw "detokenized" r);
                       lift_result (value_index detokenized (Z.of_nat i))
                     else mret s);
                loss ← lift_result (dict_score LOSS (Z.of_nat i) r);
                let kw := {| kw_detokenized_sample := None;
                             kw_loss := Some loss;
                             kw_batch_size := None;
                             kw_substr_neighbors := None |} in
                emit (EvAttack ref_key s None kw);;
                score ← attack W s None kw;
                mret (ref_model_scores ++ [score]))
             [] (enumerate substrs);
  lift_result (dict_extend ref_key ref_model_scores r).

(** The body of [for name, _ in ref_models.items()]. *)
Definition reference_model_pass (results : list sample_information)
    (x : string * Model)
    : M (list (string * Attack)) (list sample_information) :=
  let '(name, _) := x in
  let ref_key := ref_key_of (member_format W) name in
  attackers_dict ← get;
  match dict_get ref_key attackers_dict with
  | None => mret results
  | Some _ =>
      results ←
        on_item ref_key
          (for_fold (λ done r,
                       r' ← reference_scores ref_key r;
                       mret (done ++ [r']))
                    [] results);
      emit (EvAttackerUnload ref_key);;
      on_item ref_key unload;;
      mret results
  end.

(** The second pass: the reference-based attacks. *)
Definition reference_pass (ref_models : option (list (string * Model)))
    (results : list sample_information)
    : M (list (string * Attack)) (list sample_information) :=
  match ref_models with
  | Some ref_models => for_fold reference_model_pass results ref_models
  | None =>
      emit (EvPrint "No reference models specified, skipping Reference-based attacks");;
      mret results
  end.

(** The aggregation of one record into the table. *)
Definition aggregate_record (predictions : PredictionTable) (r : sample_information)
    : result PredictionTable :=
  result_fold (λ predictions '(name, scores),
                 if negb (String.eqb name "sample") && negb (String.eqb name "detokenized")
                 then
                   match scores with
                   | Scores l => m ← np_min l; Ok (predictions_append name m predictions)
                   | Raw _ => Raise Unmodelled
                   end
                 else Ok predictions)
              predictions r.

(** The last loop: one aggregate per record and attack. *)
Definition aggregate (results : list sample_information)
    : result (PredictionTable * list value) :=
  result_fold (λ '(predictions, samples) r,
                 sample ← dict_raw "sample" r;
                 predictions ← aggregate_record predictions r;
                 Ok (predictions, samples ++ [sample]))
              ([], []) results.

(** The neighbours the run works with: [None], or the cache of the data when
    the neighbourhood attack is among the attackers and the configuration
    loads from the cache. *)
Definition load_neighbors (data : Data)
    : M (list (string * Attack)) (option (gmap Z (list (list value)))) :=
  attackers_dict ← get;
  if str_in NEIGHBOR (dict_keys attackers_dict) then
    match neighborhood_config config with
    | None => raise AttributeError
    | Some neigh_config =>
        if load_from_cache neigh_config then
          match neighbors data with
          | None => raise KeyError
          | Some cache =>
              emit (EvPrint "Loaded neighbors from cache!");;
              mret (Some cache)
          end
        else mret None
    end
  else mret None.

Definition get_mia_scores (data : Data)
    (ref_models : option (list (string * Model)))
    (n_samples : option Z) (batch_size : Z)
    : M (list (string * Attack)) (PredictionTable * list value) :=
  emit (EvFixSeed (random_seed config));;
  let n_samples := default (Z.of_nat (length (records data))) n_samples in
  nb ← load_neighbors data;
  results ← primary_pass data nb n_samples batch_size;
  results ← reference_pass ref_models results;
  lift_result (aggregate results).

(** The records of a run: what [get_mia_scores] has in [results] when it
    reaches the aggregation (lines 80 to 212). *)
Definition scored_records (data : Data)
    (ref_models : option (list (string * Model)))
    (n_samples : option Z) (batch_size : Z)
    : M (list (string * Attack)) (list sample_information) :=
  emit (EvFixSeed (random_seed config));;
  let n_samples := default (Z.of_nat (length (records data))) n_samples in
  nb ← load_neighbors data;
  results ← primary_pass data nb n_samples batch_size;
  reference_pass ref_models results.
End Pipeline.

(** ** Auxiliary notions for the statements *)

Definition option_to_list {A} (o : option A) : list A :=
  match o with Some a => [a] | None => [] end.

(** The models an attacker owns, in the order [load] visits them. *)
Definition owned_models (self : Attack) : list Model :=
  option_to_list (ref_model self) ++ default [] (perturb_models self).

Definition owns_models (self : Attack) : bool :=
  bool_decide (is_Some (ref_model self)) || bool_decide (is_Some (perturb_models self)).

(** The part of [attack] that follows the lazy load. *)
Definition guarded_attack (W : Collaborators) (document : value)
    (probs : option TokenProbabilities) (kw : kwargs) : M Attack Q :=
  λ self,
  match pretokenized (config self), kw_detokenized_sample kw with
  | true, None => raise (ValueError "detokenized_sample must be provided") self
  | false, _ => _attack W document probs None kw self
  | true, Some detokenized_sample =>
      _attack W detokenized_sample probs (Some document) kw self
  end.

(** The loss the score starts from: the caller's, or the target model's. *)
Definition target_loss (W : Collaborators) (self : Attack) (document : value)
    (probs : option TokenProbabilities) (tokens : option value) (kw : kwargs) : Q :=
  match kw_loss kw with
  | Some loss => loss
  | None => get_ll W (target_model self) document probs tokens
  end.

(** The accumulated [perturb_loss] after the loop. *)
Definition perturb_total (W : Collaborators) (document : value)
    (tokens : option value) (ms : list Model) (start : Q) : Q :=
  fold_left (λ acc m, (acc + get_ll W m document None tokens)%Q) ms start.

(** The arithmetic mean of a list of losses. *)
Definition mean (l : list Q) : Q :=
  (fold_right Qplus 0 l / inject_Z (Z.of_nat (length l)))%Q.

Definition is_score (e : event) : bool :=
  match e with EvScore _ _ _ _ => true | _ => false end.

Definition is_target_ll (e : event) : bool :=
  match e with EvTargetLL _ _ _ _ => true | _ => false end.

Definition is_load (e : event) : bool :=
  match e with EvLoad => true | _ => false end.

(** Construction fails: the constructor raises. *)
Definition fails_at_construction (r : result Attack) : Prop :=
  ∃ e, r = Raise e.

(** [m] is the aggregate of record [r] for the attack [name]: the minimum
    of the scores [r] holds under [name]. *)
Definition record_minimum (name : string) (r : sample_information) (m : Q) : Prop :=
  ∃ l, dict_get name r = Some (Scores l) ∧ np_min l = Ok m ∧
       m ∈ l ∧ Forall (λ y, (m <= y)%Q) l ∧ (∀ x, l = [x] → m = x).

(** The records that hold scores under [name], in order. *)
Definition records_with (name : string) (results : list sample_information)
    : list sample_information :=
  filter (λ r, is_Some (dict_get name r)) results.

(** ** How a record grows *)

(** [d'] comes from [d] by extending lists of scores under allowed keys. *)
Inductive grown (allowed : string → Prop) : sample_information → sample_information → Prop :=
| grown_refl d : grown allowed d d
| grown_step d d1 d2 k xs :
    grown allowed d d1 → allowed k → dict_extend k xs d1 = Ok d2 →
    grown allowed d d2.

(** The keys under which the substring loop records a score of the attacker
    registered as [name]: the name itself for an ordinary attack, the
    count-suffixed names for the neighbourhood attack when its branch is
    taken. *)
Definition may_append (cfg : ExperimentConfig) (nb : option (gmap Z (list (list value))))
    (name k : string) : Prop :=
  (startswith name REFERENCE_BASED = false ∧ name ≠ LOSS ∧ name ≠ NEIGHBOR ∧ k = name) ∨
  (name = NEIGHBOR ∧
   ∃ nc n, neighborhood_config cfg = Some nc ∧
           neighbors_truthy nb = true ∧ dump_cache nc = false ∧
           n ∈ n_perturbation_list nc ∧ k = (name ++ "-" ++ str_of_int n)%string).

(** The keys under which the first pass records scores. *)
Definition primary_key (cfg : ExperimentConfig) (nb : option (gmap Z (list (list value))))
    (keys : list string) (k : string) : Prop :=
  k = LOSS ∨ ∃ name, name ∈ keys ∧ may_append cfg nb name k.

(** The keys under which the second pass records scores: the key of a
    reference model, in either rendering of the member. *)
Definition reference_key (k : string) : Prop := ∃ f name, k = ref_key_of f name.

(** The record of a document before its substrings are scored. *)
Definition initial_record (sample : value) (si : sample_information) : Prop :=
  si = [("sample", Raw sample)] ∨
  ∃ ds, si = [("sample", Raw sample); ("detokenized", Raw (VList ds))].

(** The number of batches, [math.ceil(n / batch_size)]; none when the
    division raises. *)
Definition n_batches (n batch_size : Z) : Z :=
  match py_true_div n batch_size with
  | Ok quotient => math_ceil quotient
  | Raise _ => 0%Z
  end.

(** The documents of the batches for [n] samples, in order. *)
Definition batch_texts (data : Data) (n batch_size : Z) : list value :=
  concat (map (λ batch, py_slice (records data) (batch * batch_size)
                                 ((batch + 1) * batch_size))
              (range (n_batches n batch_size))).

(** The documents the batch loop visits, in order. *)
Definition visited_records (data : Data) (n_samples : option Z) (batch_size : Z)
    : list value :=
  batch_texts data (default (Z.of_nat (length (records data))) n_samples) batch_size.

(** What the first pass leaves in the record of a document: the sample the
    configuration selects, under ["sample"], and scores under the keys of
    the first pass. *)
Definition primary_record (cfg : ExperimentConfig)
    (nb : option (gmap Z (list (list value)))) (keys : list string)
    (doc : value) (r : sample_information) : Prop :=
  ∃ sample si0,
    select_sample cfg doc = Ok sample ∧ initial_record sample si0 ∧
    grown (primary_key cfg nb keys) si0 r.

(** What both passes leave in the record of a document. *)
Definition final_record (cfg : ExperimentConfig)
    (nb : option (gmap Z (list (list value)))) (keys : list string)
    (doc : value) (r : sample_information) : Prop :=
  ∃ r1, primary_record cfg nb keys doc r1 ∧ grown reference_key r1 r.

(** The neighbour cache the pipeline works with: the one of the data when
    the neighbourhood attack is among the attackers and the configuration
    loads from the cache, none otherwise. *)
Definition loaded_neighbors (cfg : ExperimentConfig) (data : Data)
    (keys : list string) : option (gmap Z (list (list value))) :=
  if str_in NEIGHBOR keys then
    match neighborhood_config cfg with
    | Some neigh_config => if load_from_cache neigh_config then neighbors data else None
    | None => None
    end
  else None.

(** The substrings of a document as the claim C1 has them: truncation when
    full-document mode is off, the whole document when it is on. *)
Definition sample_as_claimed (cfg : ExperimentConfig) (doc : value) : result value :=
  if full_doc cfg then Ok (VList [doc]) else value_prefix doc (max_substrs cfg).




(** ** The two passes in the trace *)

(** The keyword arguments of a call of the second pass. *)
Definition ref_kwargs (loss : Q) : kwargs := {|
  kw_detokenized_sample := None;
  kw_loss := Some loss;
  kw_batch_size := None;
  kw_substr_neighbors := None
|}.

(** The text of substring [i] a record stores: the decoded text for
    pretokenized input, the substring itself otherwise. *)
Definition stored_text (cfg : ExperimentConfig) (r : sample_information) (i : nat)
    : result value :=
  v ← dict_raw (if pretokenized cfg then "detokenized" else "sample") r;
  value_index v (Z.of_nat i).

(** What an [attack()] call emits by itself; it asks the target model for a
    loss only when it is given none. *)
Definition attack_internal (kw : kwargs) (e : event) : Prop :=
  match e with
  | EvLoad | EvModelLoad _ | EvScore _ _ _ _ | EvPerturbLL _ _ _ => True
  | EvTargetLL _ _ _ _ => kw_loss kw = None
  | _ => False
  end.

(** The events of the first pass: no attacker whose key starts with
    ["ref"] is called, every call passes token probabilities, nothing is
    unloaded. *)
Definition primary_event (e : event) : Prop :=
  match e with
  | EvAttack k _ probs _ => startswith k REFERENCE_BASED = false ∧ is_Some probs
  | EvAttackerUnload _ | EvUnload | EvModelUnload _ => False
  | _ => True
  end.

(** The events of the scoring of record [r] under [ref_key] in the second
    pass: each call passes no probabilities, the loss stored for a substring
    of [r], and the stored text of that substring. *)
Definition reference_call (cfg : ExperimentConfig) (ref_key : string)
    (r : sample_information) (e : event) : Prop :=
  match e with
  | EvAttack k document probs kw =>
      k = ref_key ∧ probs = None ∧
      ∃ i loss, dict_score LOSS (Z.of_nat i) r = Ok loss ∧
                stored_text cfg r i = Ok document ∧ kw = ref_kwargs loss
  | EvLoad | EvModelLoad _ | EvScore _ _ _ _ | EvPerturbLL _ _ _ => True
  | _ => False
  end.

(** The events of the second pass over the records [results] of the first:
    token probabilities and target losses are not computed, and the calls
    are those of [reference_call] for the key of a reference model, as [f]
    renders it, and a record. *)
Definition reference_event (f : enum_format) (cfg : ExperimentConfig)
    (results : list sample_information) (e : event) : Prop :=
  match e with
  | EvGetProbabilities _ _ _ | EvTargetLL _ _ _ _ | EvDecode _ _ | EvFixSeed _ => False
  | EvAttack k _ _ _ =>
      (∃ name, k = ref_key_of f name) ∧
      ∃ r, r ∈ results ∧ reference_call cfg k r e
  | _ => True
  end.

(** The discipline of unloading, as an automaton over the trace: once an
    attacker has been called, no other attacker is called until it has been
    unloaded. The state is the attacker that is active, if any. *)
Definition unload_step (active : option string) (e : event) : option (option string) :=
  match e with
  | EvAttack k _ _ _ =>
      match active with
      | None => Some (Some k)
      | Some k' => if String.eqb k k' then Some (Some k) else None
      end
  | EvAttackerUnload k =>
      match active with
      | None => Some None
      | Some k' => if String.eqb k k' then Some None else None
      end
  | _ => Some active
  end.

Fixpoint unload_protocol (active : option string) (t : list event)
    : option (option string) :=
  match t with
  | [] => Some active
  | e :: t' =>
      match unload_step active e with
      | Some active' => unload_protocol active' t'
      | None => None
      end
  end.

(** The events of the calls made for one attacker: its own calls, and no
    unloading. *)
Definition call_of (key : string) (e : event) : Prop :=
  match e with
  | EvAttack k _ _ _ => k = key
  | EvAttackerUnload _ => False
  | _ => True
  end.

(** The events that call and unload no attacker. *)
Definition quiet (e : event) : Prop :=
  match e with
  | EvAttack _ _ _ _ | EvAttackerUnload _ => False
  | _ => True
  end.

(** The records the first pass returns, if it returns. *)
Definition first_pass_results (W : Collaborators) (target_model : Model)
    (cfg : ExperimentConfig) (data : Data) (n_samples : option Z) (batch_size : Z)
    (d : list (string * Attack)) : list sample_information :=
  match outcome (primary_pass W target_model cfg data
                   (loaded_neighbors cfg data (dict_keys d))
                   (default (Z.of_nat (length (records data))) n_samples)
                   batch_size d) with
  | Ok results => results
  | Raise _ => []
  end.

(** The calls and unloads of attackers in a trace. *)
Definition attacker_events (t : list event) : list event :=
  List.filter (λ e, match e with
                    | EvAttack _ _ _ _ | EvAttackerUnload _ => true
                    | _ => false
                    end) t.

(** ** Concrete collaborators and inputs for the examples *)

(** The target model reports loss 2, every other model loss 3; a subclass
    scores a text one above the loss it is given. *)
Definition example_world : Collaborators := {|
  member_format := ByValue;
  get_probabilities := λ _ _ _, [];
  get_ll := λ m _ _ _, if String.eqb m "target" then 2%Q else 3%Q;
  decode := λ _ _, VStr "decoded";
  subclass_attack := λ _ _ _ _ _ kw, Ok (default 0 (kw_loss kw) + 1)%Q
|}.

Definition example_config (pretok full : bool) (nc : option NeighborhoodConfig)
    : ExperimentConfig := {|
  pretokenized := pretok;
  max_substrs := 2;
  full_doc := full;
  blackbox_attacks := ["loss"; "zlib"];
  neighborhood_config := nc;
  random_seed := 0
|}.

Definition no_kwargs : kwargs := {|
  kw_detokenized_sample := None;
  kw_loss := None;
  kw_batch_size := None;
  kw_substr_neighbors := None
|}.

(** An attacker of a subclass that owns no model. *)
Definition example_plain_attacker : Attack := {|
  cls := ClsSubclass "zlib";
  config := example_config false false None;
  target_model := "target";
  ref_model := None;
  perturb_models := None;
  is_loaded := false;
  is_blackbox := true
|}.

(** A perturbation attacker with one perturbation model. *)
Definition example_perturbation_attacker : Attack := {|
  cls := ClsPerturbationAttack;
  config := example_config false false None;
  target_model := "target";
  ref_model := None;
  perturb_models := Some ["small"];
  is_loaded := false;
  is_blackbox := true
|}.

(** Modelled from the spec: the registry ("maps an attack identifier to a
    constructor for the corresponding AttackStrategy") and the classes it
    hands out are not among these files. For the examples, a class that
    inherits [Attack.__init__] and scores as the collaborators say for
    [name]. *)
Definition inheriting_class (name : string) : attack_ctor :=
  λ config target_model ref_model,
  Attack_init (ClsSubclass name) config target_model ref_model None true.

(** Modelled from the spec: two registries for the examples, one that
    knows the implemented identifiers only and raises on any other, one that
    has a class for every identifier. *)
Definition strict_registry (name : string) : result attack_ctor :=
  if str_in name implemented_blackbox_attacks then Ok (inheriting_class name)
  else Raise (ValueError ("Attack " ++ name ++ " not found")).

Definition lenient_registry (name : string) : result attack_ctor :=
  Ok (inheriting_class name).

Definition example_config_bogus : ExperimentConfig := {|
  pretokenized := false;
  max_substrs := 2;
  full_doc := false;
  blackbox_attacks := ["loss"; "bogus"];
  neighborhood_config := None;
  random_seed := 0
|}.

Definition example_data : Data := {|
  records := [VStr "The cat sat."; VStr "The dog ran."];
  neighbors := None
|}.

(** The attackers [get_attackers] builds for [example_config_bogus] from the
    lenient registry. *)
Definition example_bogus_attackers : list (string * Attack) :=
  match outcome (get_attackers lenient_registry ByValue "target" None example_config_bogus tt) with
  | Ok d => d
  | Raise _ => []
  end.

(** Collaborators for which the loss of a text is its length. *)
Definition length_world : Collaborators := {|
  member_format := ByValue;
  get_probabilities := λ _ _ _, [];
  get_ll := λ _ text _ _,
    match text with
    | VStr s => inject_Z (Z.of_nat (String.length s))
    | _ => 0%Q
    end;
  decode := λ _ v, v;
  subclass_attack := λ _ _ _ _ _ kw, Ok (default 0%Q (kw_loss kw))
|}.

(** Two documents of two and one pieces, scored in full-document mode. *)
Definition example_pieces_data : Data := {|
  records := [VList [VStr "aaa"; VStr "b"]; VList [VStr "cc"]];
  neighbors := None
|}.

Definition example_split_data : Data := {|
  records := [VList [VStr "a"; VStr "b"; VStr "c"]];
  neighbors := None
|}.

(** The scenario of the neighbourhood attack: counts 5 and 10, a cache with
    one neighbour list per substring of the two documents. *)
Definition example_neighborhood (dump : bool) : NeighborhoodConfig := {|
  n_perturbation_list := [5; 10]%Z;
  load_from_cache := negb dump;
  dump_cache := dump;
  original_tokenization_swap := false
|}.

Definition example_cache : gmap Z (list (list value)) :=
  <[5%Z := [[VList [VStr "The cat sits."]]; [VList [VStr "A dog ran."]]]]>
    (<[10%Z := [[VList [VStr "The cat sits."]]; [VList [VStr "A dog ran."]]]]> ∅).

Definition example_neighbor_data : Data := {|
  records := [VStr "The cat sat."; VStr "The dog ran."];
  neighbors := Some example_cache
|}.



Definition example_neighbor_attackers (dump : bool) : list (string * Attack) :=
  [("ne", {| cls := ClsSubclass "ne";
             config := example_config false false (Some (example_neighborhood dump));
             target_model := "target";
             ref_model := None;
             perturb_models := None;
             is_loaded := false;
             is_blackbox := true |})].

(** Two reference models, and the attackers [get_attackers] registers for
    them from the lenient registry. *)
Definition example_ref_models : list (string * Model) :=
  [("org/A", "org/A"); ("B", "B")].

Definition example_config_ref (pretok : bool) : ExperimentConfig := {|
  pretokenized := pretok;
  max_substrs := 2;
  full_doc := false;
  blackbox_attacks := ["loss"; "ref"];
  neighborhood_config := None;
  random_seed := 0
|}.

Definition example_ref_attackers (pretok : bool) : list (string * Attack) :=
  match outcome (get_attackers lenient_registry ByValue "target" (Some example_ref_models)
                   (example_config_ref pretok) tt) with
  | Ok d => d
  | Raise _ => []
  end.

(** The same under the rendering by name, and an environment with that
    rendering. *)
Definition example_named_attackers : list (string * Attack) :=
  match outcome (get_attackers lenient_registry ByName "target" (Some example_ref_models)
                   (example_config_ref false) tt) with
  | Ok d => d
  | Raise _ => []
  end.

Definition example_named_world : Collaborators := {|
  member_format := ByName;
  get_probabilities := λ _ _ _, [];
  get_ll := λ m _ _ _, if String.eqb m "target" then 2%Q else 3%Q;
  decode := λ _ _, VStr "decoded";
  subclass_attack := λ _ _ _ _ _ kw, Ok (default 0 (kw_loss kw) + 1)%Q
|}.

(** ** Notions for the further properties *)

(** An event that loads: the entry into [load()] or the loading of a model. *)
Definition is_loading (e : event) : bool :=
  match e with
  | EvLoad | EvModelLoad _ => true
  | _ => false
  end.

Definition is_perturb_ll (e : event) : bool :=
  match e with EvPerturbLL _ _ _ => true | _ => false end.

(** The text and the tokens [attack()] hands to the scoring function, when
    its guard lets the call through. *)
Definition dispatched (self : Attack) (document : value) (kw : kwargs)
    : option (value * option value) :=
  match pretokenized (config self), kw_detokenized_sample kw with
  | true, None => None
  | true, Some detokenized_sample => Some (detokenized_sample, Some document)
  | false, _ => Some (document, None)
  end.

(** A perturbation attacker with two perturbation models, in pretokenized
    mode. *)
Definition example_pretokenized_perturbation : Attack := {|
  cls := ClsPerturbationAttack;
  config := example_config true false None;
  target_model := "target";
  ref_model := None;
  perturb_models := Some ["small"; "tiny"];
  is_loaded := false;
  is_blackbox := true
|}.

(** An attacker of the base class that owns a reference model. *)
Definition example_base_attacker : Attack := {|
  cls := ClsAttack;
  config := example_config false false None;
  target_model := "target";
  ref_model := Some "reference";
  perturb_models := None;
  is_loaded := false;
  is_blackbox := true
|}.

(** What [get_attackers] registers under the key [k]: the attacker the
    class of the registry returned, called with the configuration and the
    target model for a configured identifier, and with the reference model
    as well for a reference model. *)
Definition registered (get_attacker : string → result attack_ctor)
    (f : enum_format) (cfg : ExperimentConfig) (tm : Model)
    (ref_models : option (list (string * Model))) (k : string) (a : Attack) : Prop :=
  (k ∈ blackbox_attacks cfg ∧ k ≠ REFERENCE_BASED ∧
   ∃ cls, get_attacker k = Ok cls ∧ cls cfg tm None = Ok a) ∨
  (∃ name m cls, (name, m) ∈ default [] ref_models ∧ k = ref_key_of f name ∧
                 get_attacker REFERENCE_BASED = Ok cls ∧ cls cfg tm (Some m) = Ok a).

(** Two reference models whose names end in the same segment. *)
Definition example_colliding_models : list (string * Model) :=
  [("org/pythia", "org/pythia"); ("other/pythia", "other/pythia")].

(** Three one-piece documents. *)
Definition example_three_docs : Data := {|
  records := [VStr "a"; VStr "bb"; VStr "ccc"];
  neighbors := None
|}.


(** The events of a run that scores nothing: seeding, messages, unloading. *)
Definition housekeeping (e : event) : Prop :=
  match e with
  | EvFixSeed _ | EvPrint _ | EvAttackerUnload _ | EvUnload | EvModelUnload _ => True
  | _ => False
  end.


(** The substrings the pipeline scores for a document. *)
Definition substrings (cfg : ExperimentConfig) (doc : value) : list value :=
  match select_sample cfg doc with
  | Ok sample =>
      match value_iter sample with
      | Ok l => l
      | Raise _ => []
      end
  | Raise _ => []
  end.

(** The loss of the target model on one substring, as the first pass
    computes it: on the substring itself, or on its decoded text with the
    substring as the tokens when the input is pretokenized, in both cases
    with the token probabilities of the same call. *)
Definition substring_loss (W : Collaborators) (target_model : Model)
    (cfg : ExperimentConfig) (substr : value) : Q :=
  let text := if pretokenized cfg then decode W target_model substr else substr in
  let tokens := if pretokenized cfg then Some substr else None in
  get_ll W target_model text (Some (get_probabilities W target_model text tokens)) tokens.

(** The entry of a [defaultdict(list)] that has seen the appends of [l]. *)
Definition appended (l : list Q) : option entry :=
  match l with
  | [] => None
  | _ => Some (Scores l)
  end.


(** The record of a document without substrings: its sample has no
    element, and every list of scores it holds is empty. *)
Definition scoreless (r : sample_information) : Prop :=
  ∃ sample, dict_get "sample" r = Some (Raw sample) ∧ value_iter sample = Ok [] ∧
            ∀ k l, dict_get k r = Some (Scores l) → l = [].

(** Full-document mode with the reference attack, and data whose second
    document has no piece. *)
Definition example_config_full_ref : ExperimentConfig := {|
  pretokenized := false;
  max_substrs := 2;
  full_doc := true;
  blackbox_attacks := ["loss"; "ref"];
  neighborhood_config := None;
  random_seed := 0
|}.

Definition example_full_ref_attackers : list (string * Attack) :=
  match outcome (get_attackers lenient_registry ByValue "target" (Some example_ref_models)
                   example_config_full_ref tt) with
  | Ok d => d
  | Raise _ => []
  end.

Definition example_empty_doc_data : Data := {|
  records := [VList [VStr "a"]; VList []];
  neighbors := None
|}.


(** One trial of the experiment script:
    [get_mia_scores(data={"records": other_member[str(i)]}, ...,
    n_samples=len(other_member[str(i)]))]. The data holds records and no
    neighbours, and the batch size is the default. *)
Definition experiment_trial (W : Collaborators) (target_model : Model)
    (cfg : ExperimentConfig) (ref_models : option (list (string * Model)))
    (other_member_i : list value)
    : M (list (string * Attack)) (PredictionTable * list value) :=
  get_mia_scores W target_model cfg
    {| records := other_member_i; neighbors := None |}
    ref_models (Some (Z.of_nat (length other_member_i))) 50.


(** The keys under which the second pass records scores in a run with the
    reference models [rms] and attackers under [keys]: the keys of the
    models for which an attacker is registered. *)
Definition scored_reference_key (f : enum_format) (rms : list (string * Model))
    (keys : list string) (k : string) : Prop :=
  ∃ name m, (name, m) ∈ rms ∧ k = ref_key_of f name ∧ k ∈ keys.

(** The keys of the scores of a run. *)
Definition column_key (f : enum_format) (cfg : ExperimentConfig)
    (nb : option (gmap Z (list (list value))))
    (rms : list (string * Model)) (keys : list string) (k : string) : Prop :=
  primary_key cfg nb keys k ∨ scored_reference_key f rms keys k.

(** The keys of the record of a document after both passes: distinct; the
    two raw fields apart, keys of scores only; all of these when the
    document has a substring; and no score at all when it has none. *)
Definition aligned_record (f : enum_format) (cfg : ExperimentConfig)
    (nb : option (gmap Z (list (list value)))) (rms : list (string * Model))
    (keys : list string) (doc : value) (r : sample_information) : Prop :=
  NoDup (dict_keys r) ∧
  (∀ k, is_Some (dict_get k r) →
        k = "sample" ∨ k = "detokenized" ∨ column_key f cfg nb rms keys k) ∧
  (substrings cfg doc ≠ [] →
   ∀ k, column_key f cfg nb rms keys k → is_Some (dict_get k r)) ∧
  (substrings cfg doc = [] → scoreless r).





(** * Properties *)

(** ** The monad *)

Lemma bind_run {S A B} (m : M S A) (f : A → M S B) (s : S) :
  (m ≫= f) s =
  match m s with
  | (s1, t1, Ok a) => match f a s1 with (s2, t2, r) => (s2, t1 ++ t2, r) end
  | (s1, t1, Raise e) => (s1, t1, Raise e)
  end.
Proof. reflexivity. Qed.

Lemma bind_outcome {S A B} (m : M S A) (f : A → M S B) (s : S) :
  outcome ((m ≫= f) s) =
  match m s with
  | (s1, _, Ok a) => outcome (f a s1)
  | (_, _, Raise e) => Raise e
  end.
Proof.
  rewrite bind_run. destruct (m s) as [[s1 t1] [a|e]]; [|reflexivity].
  destruct (f a s1) as [[? ?] ?]. reflexivity.
Qed.

Lemma for_fold_nil {S A B} (body : B → A → M S B) (acc : B) (s : S) :
  for_fold body acc [] s = (s, [], Ok acc).
Proof. reflexivity. Qed.

Lemma for_fold_cons {S A B} (body : B → A → M S B) (acc : B) (x : A) (xs : list A) (s : S) :
  for_fold body acc (x :: xs) s =
  match body acc x s with
  | (s1, t1, Ok acc1) =>
      match for_fold body acc1 xs s1 with (s2, t2, r) => (s2, t1 ++ t2, r) end
  | (s1, t1, Raise e) => (s1, t1, Raise e)
  end.
Proof. reflexivity. Qed.

Ltac run_monad :=
  repeat (rewrite ?bind_run;
          unfold emit, get, modify, raise, lift_result, mret, M_ret; simpl).

Lemma for_each_emit {S A} (f : A → event) (xs : list A) (s : S) :
  for_each (λ x s, (s, [f x], Ok tt)) xs s = (s, map f xs, Ok tt).
Proof.
  unfold for_each. induction xs as [|x xs IH]; simpl; [reflexivity|].
  rewrite bind_run, IH. reflexivity.
Qed.

(** ** The life cycle of an attacker *)

Lemma load_run (self : Attack) :
  load self =
  (if owns_models self then set_is_loaded true self else self,
   EvLoad :: map EvModelLoad (owned_models self), Ok tt).
Proof.
  unfold load, owned_models, owns_models.
  destruct self as [c cfg tm [rm|] [pm|] il bb]; run_monad;
    rewrite ?for_each_emit; simpl; rewrite ?app_nil_r; reflexivity.
Qed.

Lemma unload_run (self : Attack) :
  unload self =
  (if owns_models self then set_is_loaded false self else self,
   EvUnload :: map EvModelUnload (owned_models self), Ok tt).
Proof.
  unfold unload, owned_models, owns_models.
  destruct self as [c cfg tm [rm|] [pm|] il bb]; run_monad;
    rewrite ?for_each_emit; simpl; rewrite ?app_nil_r; reflexivity.
Qed.

Lemma attack_run W document probs kw (self : Attack) :
  attack W document probs kw self =
  if is_loaded self then guarded_attack W document probs kw self
  else
    match guarded_attack W document probs kw (set_is_loaded true self) with
    | (s, t, r) => (s, (EvLoad :: map EvModelLoad (owned_models self)) ++ t, r)
    end.
Proof.
  assert (Hg : ∀ s, (self ← get;
                     match pretokenized (config self), kw_detokenized_sample kw with
                     | true, None => raise (ValueError "detokenized_sample must be provided")
                     | false, _ => _attack W document probs None kw
                     | true, Some detokenized_sample =>
                         _attack W detokenized_sample probs (Some document) kw
                     end) s = guarded_attack W document probs kw s).
  { intros s. rewrite bind_run. unfold get at 1. unfold guarded_attack.
    destruct (pretokenized (config s)), (kw_detokenized_sample kw);
      match goal with |- context [match ?x with _ => _ end] =>
        destruct x as [[? ?] ?] end; reflexivity. }
  unfold attack. rewrite bind_run. unfold get at 1.
  destruct (is_loaded self) eqn:Hl.
  - rewrite bind_run. unfold mret at 1, M_ret at 1. rewrite Hg.
    destruct (guarded_attack W document probs kw self) as [[? ?] ?]; reflexivity.
  - rewrite !bind_run. rewrite load_run. unfold modify at 1. rewrite Hg.
    assert (Hs : set_is_loaded true (if owns_models self then set_is_loaded true self else self)
                 = set_is_loaded true self) by (destruct (owns_models self); reflexivity).
    rewrite Hs.
    destruct (guarded_attack W document probs kw (set_is_loaded true self)) as [[? ?] ?].
    simpl. rewrite ?app_nil_r. reflexivity.
Qed.

(** ** The perturbation attack, run *)

Lemma perturb_loop_run W document tokens ms acc (s : Attack) :
  for_fold (λ perturb_loss perturb_model,
              emit (EvPerturbLL perturb_model document tokens);;
              mret (perturb_loss + get_ll W perturb_model document None tokens)%Q)
           acc ms s
  = (s, map (λ m, EvPerturbLL m document tokens) ms,
     Ok (perturb_total W document tokens ms acc)).
Proof.
  revert acc. induction ms as [|m ms IH]; intros acc; simpl; [reflexivity|].
  rewrite !bind_run. unfold emit at 1. unfold mret at 1, M_ret at 1.
  rewrite IH. reflexivity.
Qed.

Lemma PerturbationAttack_attack_run W document probs tokens kw (self : Attack) :
  PerturbationAttack_attack W document probs tokens kw self =
  (self,
   match kw_loss kw with
   | Some _ => []
   | None => [EvTargetLL (target_model self) document probs tokens]
   end ++
   match perturb_models self with
   | Some ms => map (λ m, EvPerturbLL m document tokens) ms
   | None => []
   end,
   match perturb_models self with
   | None => Raise TypeError
   | Some ms =>
       if Nat.eqb (length ms) 0 then Raise ZeroDivisionError
       else Ok (target_loss W self document probs tokens kw
                - perturb_total W document tokens ms 0 / inject_Z (Z.of_nat (length ms)))%Q
   end).
Proof.
  unfold PerturbationAttack_attack, target_loss.
  rewrite bind_run. unfold get at 1.
  assert (Hloss : ∀ s : Attack,
             match kw_loss kw with
             | Some loss => mret loss
             | None =>
                 emit (EvTargetLL (target_model self) document probs tokens);;
                 mret (get_ll W (target_model self) document probs tokens)
             end s
             = (s, match kw_loss kw with
                   | Some _ => []
                   | None => [EvTargetLL (target_model self) document probs tokens]
                   end,
                Ok (target_loss W self document probs tokens kw))).
  { intros s. unfold target_loss. destruct (kw_loss kw); reflexivity. }
  rewrite bind_run, Hloss. unfold target_loss.
  destruct (perturb_models self) as [ms|]; [|simpl; rewrite app_nil_r; reflexivity].
  rewrite bind_run, perturb_loop_run.
  destruct (Nat.eqb (length ms) 0); simpl; rewrite app_nil_r; reflexivity.
Qed.

Lemma _attack_run W document probs tokens kw (self : Attack) :
  _attack W document probs tokens kw self =
  match cls self with
  | ClsAttack =>
      (self, [EvScore document probs tokens kw],
       Raise (NotImplementedError "Attack must implement attack()"))
  | ClsPerturbationAttack =>
      match PerturbationAttack_attack W document probs tokens kw self with
      | (s, t, r) => (s, EvScore document probs tokens kw :: t, r)
      end
  | ClsSubclass name =>
      (self, [EvScore document probs tokens kw],
       subclass_attack W name self document probs tokens kw)
  end.
Proof.
  unfold _attack. rewrite bind_run. unfold emit at 1. cbv beta iota.
  rewrite bind_run. unfold get at 1. cbv beta iota.
  destruct (cls self); try reflexivity.
  destruct (PerturbationAttack_attack W document probs tokens kw self) as [[? ?] ?].
  reflexivity.
Qed.

(** Scoring leaves the attacker as it found it. *)
Lemma _attack_final W document probs tokens kw (self : Attack) :
  final (_attack W document probs tokens kw self) = self.
Proof.
  rewrite _attack_run. destruct (cls self); try reflexivity.
  rewrite PerturbationAttack_attack_run. reflexivity.
Qed.

(** Scoring starts with its entry event. *)
Lemma _attack_trace W document probs tokens kw (self : Attack) :
  ∃ t, trace (_attack W document probs tokens kw self)
       = EvScore document probs tokens kw :: t.
Proof.
  rewrite _attack_run. destruct (cls self); try (eexists; reflexivity).
  rewrite PerturbationAttack_attack_run. eexists; reflexivity.
Qed.

Lemma guarded_attack_final W document probs kw (self : Attack) :
  final (guarded_attack W document probs kw self) = self.
Proof.
  unfold guarded_attack.
  destruct (pretokenized (config self)), (kw_detokenized_sample kw);
    try apply _attack_final; reflexivity.
Qed.

Lemma attack_final W document probs kw (self : Attack) :
  final (attack W document probs kw self) = set_is_loaded true self.
Proof.
  rewrite attack_run. destruct (is_loaded self) eqn:Hl.
  - rewrite guarded_attack_final. destruct self; simpl in *; subst; reflexivity.
  - pose proof (guarded_attack_final W document probs kw (set_is_loaded true self)) as H.
    destruct (guarded_attack W document probs kw (set_is_loaded true self)) as [[? ?] ?].
    exact H.
Qed.

(** ** Lazy loading (C9, C10) *)

(** C10. For a strategy constructed with neither a reference model nor
    perturbation models, [load()] called directly changes nothing and leaves
    [is_loaded] false, [unload()] changes nothing either, and [is_loaded]
    becomes true through [attack()] only; afterwards [load()] and
    [unload()] still leave the flag as it is. *)
Theorem load_without_owned_models W c cfg tm bb (self : Attack)
    document probs kw :
  Attack_init c cfg tm None None bb = Ok self →
  is_loaded self = false ∧
  load self = (self, [EvLoad], Ok tt) ∧
  unload self = (self, [EvUnload], Ok tt) ∧
  let self' := final (attack W document probs kw self) in
  is_loaded self' = true ∧
  load self' = (self', [EvLoad], Ok tt) ∧
  unload self' = (self', [EvUnload], Ok tt).
Proof.
  intros Hinit. injection Hinit as <-.
  rewrite attack_final. repeat split; rewrite ?load_run, ?unload_run; reflexivity.
Qed.

Lemma load_without_owned_models_witness :
  is_loaded example_plain_attacker = false ∧
  load example_plain_attacker = (example_plain_attacker, [EvLoad], Ok tt).
Proof.
  pose proof (load_without_owned_models example_world (ClsSubclass "zlib")
                (example_config false false None) "target" true
                example_plain_attacker (VStr "The cat sat.") None no_kwargs
                eq_refl) as H.
  split; [exact (proj1 H) | exact (proj1 (proj2 H))].
Defined.

(** C9. [attack()] on a strategy that is not loaded calls [load()] before it
    scores: the trace opens with the trace of [load()], which holds no
    scoring event, and no further [load()] follows; a loaded strategy is not
    loaded again. In either case [is_loaded] is true when [attack()] is over,
    whether it returned or raised. *)
Theorem attack_loads_before_scoring W (self : Attack) document probs kw :
  let run := attack W document probs kw self in
  is_loaded (final run) = true ∧
  if is_loaded self
  then forallb (λ e, negb (is_load e)) (trace run) = true
  else ∃ rest,
      trace run = trace (load self) ++ rest ∧
      existsb is_load (trace (load self)) = true ∧
      forallb (λ e, negb (is_score e)) (trace (load self)) = true ∧
      forallb (λ e, negb (is_load e)) rest = true.
Proof.
  assert (Hnoload : ∀ s, forallb (λ e, negb (is_load e))
                           (trace (guarded_attack W document probs kw s)) = true).
  { intros s. unfold guarded_attack.
    destruct (pretokenized (config s)), (kw_detokenized_sample kw);
      try reflexivity; rewrite _attack_run; destruct (cls s); try reflexivity;
      rewrite PerturbationAttack_attack_run; unfold trace; simpl;
      rewrite forallb_app; apply andb_true_intro; split;
      try (destruct (kw_loss kw); reflexivity);
      destruct (perturb_models s) as [ms|]; try reflexivity;
      induction ms; simpl; auto. }
  simpl. split; [rewrite attack_final; reflexivity|].
  rewrite attack_run. destruct (is_loaded self) eqn:Hl.
  - apply Hnoload.
  - specialize (Hnoload (set_is_loaded true self)).
    destruct (guarded_attack W document probs kw (set_is_loaded true self))
      as [[s t] r].
    exists t. rewrite load_run. unfold trace in *; simpl in *.
    repeat split; try assumption.
    induction (owned_models self); simpl; auto.
Qed.

(** ** The pretokenization guard (C6) *)

(** C6. [attack()] raises the configuration error, without having called
    the scoring function, if and only if the configuration is pretokenized
    and no [detokenized_sample] is supplied. When the configuration is not
    pretokenized the scoring function is called on the document itself,
    whatever [detokenized_sample] is. *)
Theorem attack_detokenized_guard W (self : Attack) document probs kw :
  let run := attack W document probs kw self in
  ((outcome run = Raise (ValueError "detokenized_sample must be provided") ∧
    existsb is_score (trace run) = false)
   ↔ (pretokenized (config self) = true ∧ kw_detokenized_sample kw = None)) ∧
  (if pretokenized (config self) then True
   else EvScore document probs None kw ∈ trace run).
Proof.
  assert (Hload : ∀ ms : list Model, existsb is_score (map EvModelLoad ms) = false).
  { induction ms; simpl; auto. }
  assert (Hg : ∀ s, config s = config self →
             ((outcome (guarded_attack W document probs kw s)
               = Raise (ValueError "detokenized_sample must be provided") ∧
               existsb is_score (trace (guarded_attack W document probs kw s)) = false)
              ↔ (pretokenized (config self) = true ∧ kw_detokenized_sample kw = None)) ∧
             (if pretokenized (config self) then True
              else EvScore document probs None kw
                   ∈ trace (guarded_attack W document probs kw s))).
  { intros s Hc. unfold guarded_attack. rewrite Hc.
    destruct (pretokenized (config self)), (kw_detokenized_sample kw) as [d|].
    - destruct (_attack_trace W d probs (Some document) kw s) as [t Ht].
      rewrite Ht. simpl. split; [|exact I].
      split; [intros [_ ?]; discriminate | intros [_ ?]; discriminate].
    - split; [|exact I]. split; [auto | intros _; split; reflexivity].
    - destruct (_attack_trace W document probs None kw s) as [t Ht].
      rewrite Ht. simpl. split; [|left].
      split; [intros [_ ?]; discriminate | intros [? _]; discriminate].
    - destruct (_attack_trace W document probs None kw s) as [t Ht].
      rewrite Ht. simpl. split; [|left].
      split; [intros [_ ?]; discriminate | intros [? _]; discriminate]. }
  simpl. rewrite attack_run. destruct (is_loaded self) eqn:Hl.
  - apply Hg. reflexivity.
  - specialize (Hg (set_is_loaded true self) eq_refl).
    destruct (guarded_attack W document probs kw (set_is_loaded true self))
      as [[s t] r].
    unfold outcome, trace in *. simpl in *.
    rewrite existsb_app, Hload. simpl.
    destruct Hg as [Hiff Hin]. split; [exact Hiff|].
    destruct (pretokenized (config self)); [exact I|].
    right. apply elem_of_app. right. exact Hin.
Qed.

(** ** The perturbation attack (C3, C4) *)

Lemma perturb_total_sum W document tokens ms (start : Q) :
  (perturb_total W document tokens ms start
   == start + fold_right Qplus 0 (map (λ m, get_ll W m document None tokens) ms))%Q.
Proof.
  unfold perturb_total. revert start.
  induction ms as [|m ms IH]; intros start; simpl.
  - ring.
  - rewrite IH. ring.
Qed.

Lemma inject_length_nonzero {A} (l : list A) :
  l ≠ [] → ¬ (inject_Z (Z.of_nat (length l)) == 0)%Q.
Proof.
  intros Hne Heq. destruct l as [|x l]; [congruence|].
  unfold Qeq in Heq. simpl in Heq. lia.
Qed.

(** C4. With at least one perturbation model the score is the target loss
    minus the arithmetic mean of the perturbation models' losses on the same
    document; with a single model it is the target loss minus that model's
    loss. The target loss is the caller's when one is supplied, and then the
    target model is not asked; otherwise it is asked once. *)
Theorem perturbation_score W (self : Attack) document probs tokens kw ms :
  perturb_models self = Some ms →
  ms ≠ [] →
  let run := PerturbationAttack_attack W document probs tokens kw self in
  let losses := map (λ m, get_ll W m document None tokens) ms in
  ∃ score,
    outcome run = Ok score ∧
    (score == target_loss W self document probs tokens kw - mean losses)%Q ∧
    (∀ m, ms = [m] →
       (score == target_loss W self document probs tokens kw
                 - get_ll W m document None tokens)%Q) ∧
    match kw_loss kw with
    | Some loss =>
        target_loss W self document probs tokens kw = loss ∧
        existsb is_target_ll (trace run) = false
    | None =>
        target_loss W self document probs tokens kw
        = get_ll W (target_model self) document probs tokens ∧
        length (List.filter is_target_ll (trace run)) = 1
    end.
Proof.
  intros Hms Hne. simpl.
  rewrite PerturbationAttack_attack_run, Hms.
  assert (Hlen : Nat.eqb (length ms) 0 = false).
  { destruct ms; [congruence|reflexivity]. }
  rewrite Hlen. unfold outcome, trace; simpl.
  eexists. split; [reflexivity|].
  assert (Hnoll : ∀ l : list Model,
             existsb is_target_ll (map (λ m, EvPerturbLL m document tokens) l) = false).
  { induction l; simpl; auto. }
  assert (Hcount : ∀ l : list Model,
             List.filter is_target_ll (map (λ m, EvPerturbLL m document tokens) l) = []).
  { induction l; simpl; auto. }
  split; [|split].
  - unfold mean. rewrite length_map, perturb_total_sum.
    pose proof (inject_length_nonzero ms Hne). field. assumption.
  - intros m ->. unfold perturb_total. simpl. field.
  - unfold target_loss. destruct (kw_loss kw); simpl.
    + split; [reflexivity | apply Hnoll].
    + split; [reflexivity | rewrite Hcount; reflexivity].
Qed.

(** The scenario of one perturbation model: target loss 2, perturbation
    loss 3, score -1. *)
Lemma perturbation_score_witness :
  ∃ score,
    outcome (PerturbationAttack_attack example_world (VStr "The cat sat.")
               None None no_kwargs example_perturbation_attacker) = Ok score ∧
    (score == -1)%Q.
Proof.
  destruct (perturbation_score example_world example_perturbation_attacker
              (VStr "The cat sat.") None None no_kwargs ["small"] eq_refl
              ltac:(discriminate)) as (score & Hrun & _ & Hone & _).
  exists score. split; [exact Hrun|].
  rewrite (Hone "small" eq_refl). reflexivity.
Defined.

(** Through the entry point [attack()], a perturbation attacker returns the
    score of its scoring function. *)
Lemma attack_perturbation_example :
  outcome (attack example_world (VStr "The cat sat.") (Some []) no_kwargs
             example_perturbation_attacker)
  = Ok (2 - (0 + 3) / inject_Z 1)%Q.
Proof. reflexivity. Qed.

(** C3 as stated fails: the constructor accepts an empty set of
    perturbation models. *)
Lemma empty_perturbation_set_is_constructed :
  ¬ fails_at_construction
      (PerturbationAttack_init (example_config false false None) "target" (Some [])).
Proof. intros [e He]. discriminate He. Qed.

(** C3, amended. Construction with an empty set of perturbation models
    succeeds and yields an unloaded attacker; the failure comes with
    scoring: every [attack()] call on it that passes the pretokenization
    guard raises a division by zero. *)
Theorem empty_perturbation_set_fails_on_attack W cfg model document probs kw :
  ∃ self,
    PerturbationAttack_init cfg model (Some []) = Ok self ∧
    is_loaded self = false ∧
    outcome (attack W document probs kw self) =
    match pretokenized cfg, kw_detokenized_sample kw with
    | true, None => Raise (ValueError "detokenized_sample must be provided")
    | _, _ => Raise ZeroDivisionError
    end.
Proof.
  eexists. split; [reflexivity|]. split; [reflexivity|].
  rewrite attack_run. simpl. unfold guarded_attack. simpl.
  destruct (pretokenized cfg), (kw_detokenized_sample kw); try reflexivity;
    rewrite _attack_run; simpl; rewrite PerturbationAttack_attack_run; reflexivity.
Qed.

(** ** Unimplemented attacks (C2) *)

Lemma runnable_attacks_run (attacks : list string) (acc : list string) :
  outcome (for_fold (λ runnable_attacks a,
                       (if negb (str_in a implemented_blackbox_attacks)
                        then emit (EvPrint ("Attack " ++ a ++ " not implemented, will be ignored"))
                        else mret tt);;
                       mret (runnable_attacks ++ [a]))
                    acc attacks tt)
  = Ok (acc ++ attacks).
Proof.
  revert acc. induction attacks as [|a attacks IH]; intros acc.
  - rewrite for_fold_nil, app_nil_r. reflexivity.
  - rewrite for_fold_cons, bind_run.
    specialize (IH (acc ++ [a])). rewrite <- app_assoc in IH.
    destruct (negb (str_in a implemented_blackbox_attacks));
      unfold emit at 1; unfold mret at 1 2, M_ret at 1 2; cbv beta iota;
      destruct (for_fold _ (acc ++ [a]) attacks ()) as [[? ?] ?];
      exact IH.
Qed.

(** C2, on the code. The loop that checks for unimplemented attacks warns
    about an unknown identifier and then appends it all the same: the list it
    returns is the configured list. With ["loss"; "bogus"] configured,
    [get_attackers] asks the registry for ["bogus"]: a registry that raises on
    unknown identifiers ends the run, one that answers puts ["bogus"] among
    the attackers, and ["bogus"] is then a key of the predictions. *)
Theorem unimplemented_attack_is_kept :
  (∀ attacks, outcome (runnable_attacks attacks tt) = Ok attacks) ∧
  trace (runnable_attacks ["loss"; "bogus"] tt)
  = [EvPrint "Attack bogus not implemented, will be ignored"] ∧
  outcome (get_attackers strict_registry ByValue "target" None example_config_bogus tt)
  = Raise (ValueError "Attack bogus not found") ∧
  dict_keys example_bogus_attackers = ["loss"; "bogus"] ∧
  match outcome (get_mia_scores example_world "target" example_config_bogus
                   example_data None None 50 example_bogus_attackers) with
  | Ok (predictions, _) => dict_keys predictions = ["loss"; "bogus"]
  | Raise _ => False
  end.
Proof.
  split; [|repeat split; vm_compute; reflexivity].
  intros attacks. unfold runnable_attacks. apply (runnable_attacks_run attacks []).
Qed.

(** ** Dictionaries *)

Section DictFacts.
Context {V : Type}.
Implicit Types (d : list (string * V)) (k : string) (v : V).

Lemma dict_get_set_eq k v d : dict_get k (dict_set k v d) = Some v.
Proof.
  induction d as [|[k' v'] d IH]; simpl.
  - rewrite String.eqb_refl. reflexivity.
  - destruct (String.eqb k k') eqn:E; simpl; rewrite E; auto.
Qed.

Lemma dict_get_set_ne k k' v d :
  k ≠ k' → dict_get k' (dict_set k v d) = dict_get k' d.
Proof.
  intros Hne. induction d as [|[k0 v0] d IH]; simpl.
  - apply String.eqb_neq in Hne. rewrite String.eqb_sym, Hne. reflexivity.
  - destruct (String.eqb k k0) eqn:E; simpl.
    + apply String.eqb_eq in E. subst k0.
      assert (E2 : String.eqb k' k = false) by (apply String.eqb_neq; congruence).
      rewrite E2. reflexivity.
    + rewrite IH. reflexivity.
Qed.

Lemma dict_get_None_keys k d : dict_get k d = None ↔ k ∉ dict_keys d.
Proof.
  unfold dict_keys. induction d as [|[k' v'] d IH]; simpl.
  - split; [intros _; apply not_elem_of_nil | reflexivity].
  - rewrite not_elem_of_cons. destruct (String.eqb k k') eqn:E.
    + apply String.eqb_eq in E. split; [discriminate | intros [? _]; contradiction].
    + apply String.eqb_neq in E. rewrite IH. tauto.
Qed.

Lemma dict_keys_set k v d :
  dict_keys (dict_set k v d)
  = match dict_get k d with
    | Some _ => dict_keys d
    | None => dict_keys d ++ [k]
    end.
Proof.
  unfold dict_keys. induction d as [|[k' v'] d IH]; simpl; [reflexivity|].
  destruct (String.eqb k k') eqn:E; simpl; [reflexivity|].
  rewrite IH. destruct (dict_get k d); reflexivity.
Qed.

Lemma dict_set_NoDup k v d : NoDup (dict_keys d) → NoDup (dict_keys (dict_set k v d)).
Proof.
  intros Hnd. rewrite dict_keys_set. destruct (dict_get k d) eqn:E; [assumption|].
  apply NoDup_app. split; [assumption|]. split.
  - intros x Hx Hin. apply list_elem_of_singleton in Hin. subst x.
    apply dict_get_None_keys in E. contradiction.
  - apply NoDup_singleton.
Qed.
End DictFacts.

(** ** [np.min] *)

Lemma Qmin_bool_fold (xs : list Q) (x m : Q) :
  fold_left Qmin_bool xs x = m →
  m ∈ x :: xs ∧ Forall (λ y, (m <= y)%Q) (x :: xs).
Proof.
  revert x m. induction xs as [|y xs IH]; intros x m; simpl.
  - intros <-. split; [left | repeat constructor; apply Qle_refl].
  - intros H. apply IH in H. destruct H as [Hin Hle].
    apply Forall_cons in Hle. destruct Hle as [Hle0 Hle].
    unfold Qmin_bool in *. destruct (Qle_bool x y) eqn:E.
    + apply Qle_bool_iff in E. split.
      * apply elem_of_cons in Hin. destruct Hin as [->|Hin];
          [left | right; right; exact Hin].
      * repeat apply Forall_cons_2; try assumption. eapply Qle_trans; eassumption.
    + assert (Hyx : (y <= x)%Q).
      { destruct (Qlt_le_dec y x) as [Hlt|Hge]; [apply Qlt_le_weak; exact Hlt|].
        apply Qle_bool_iff in Hge. congruence. }
      split.
      * right. exact Hin.
      * repeat apply Forall_cons_2; try assumption. eapply Qle_trans; eassumption.
Qed.

(** [np.min] returns an element of the list that is below all of them; of a
    one-element list, that element. *)
Lemma np_min_spec (l : list Q) (m : Q) :
  np_min l = Ok m →
  m ∈ l ∧ Forall (λ y, (m <= y)%Q) l ∧ (∀ x, l = [x] → m = x).
Proof.
  destruct l as [|x xs]; simpl; [discriminate|].
  intros H. injection H as H. pose proof (Qmin_bool_fold xs x m H) as [Hin Hle].
  repeat split; try assumption.
  intros x' Heq. injection Heq as -> ->. simpl in H. congruence.
Qed.

Lemma np_min_ok (l : list Q) : l ≠ [] → ∃ m, np_min l = Ok m.
Proof. destruct l; [congruence|]. intros _. eexists. reflexivity. Qed.

(** ** Aggregation (C5) *)

Lemma result_fold_cons {A B} (body : B → A → result B) (acc : B) (x : A) (xs : list A) :
  result_fold body acc (x :: xs) =
  match body acc x with
  | Ok acc' => result_fold body acc' xs
  | Raise e => Raise e
  end.
Proof. reflexivity. Qed.

Lemma predictions_append_eq k x (p : PredictionTable) :
  dict_get k (predictions_append k x p) = Some (default [] (dict_get k p) ++ [x]).
Proof.
  unfold predictions_append. destruct (dict_get k p); apply dict_get_set_eq.
Qed.

Lemma predictions_append_ne k name x (p : PredictionTable) :
  k ≠ name → dict_get name (predictions_append k x p) = dict_get name p.
Proof.
  intros Hne. unfold predictions_append.
  destruct (dict_get k p); apply dict_get_set_ne; assumption.
Qed.

Lemma is_raw_key_false k :
  k ≠ "sample" → k ≠ "detokenized" →
  negb (String.eqb k "sample") && negb (String.eqb k "detokenized") = true.
Proof.
  intros H1 H2. apply String.eqb_neq in H1, H2. rewrite H1, H2. reflexivity.
Qed.

(** One record: the table gains the minimum under every key of the record
    but the two raw ones. *)
Lemma aggregate_record_get name (p0 p1 : PredictionTable) (r : sample_information) :
  NoDup (dict_keys r) →
  name ≠ "sample" → name ≠ "detokenized" →
  aggregate_record p0 r = Ok p1 →
  match dict_get name r with
  | None => dict_get name p1 = dict_get name p0
  | Some e =>
      ∃ l m, e = Scores l ∧ np_min l = Ok m ∧
             dict_get name p1 = Some (default [] (dict_get name p0) ++ [m])
  end.
Proof.
  intros Hnd Hs Hd. unfold aggregate_record. revert p0 Hnd.
  induction r as [|[k e] r IH]; intros p0 Hnd H.
  - simpl in *. congruence.
  - rewrite result_fold_cons in H. simpl in Hnd. apply NoDup_cons in Hnd.
    destruct Hnd as [Hk Hnd]. simpl dict_get.
    destruct (String.eqb name k) eqn:E.
    + apply String.eqb_eq in E. subst k.
      rewrite (is_raw_key_false name Hs Hd) in H.
      destruct e as [v|l]; [discriminate|].
      destruct (np_min l) as [m|] eqn:Hm; [|discriminate].
      unfold mbind, result_bind in H.
      specialize (IH _ Hnd H).
      assert (Hnone : dict_get name r = None) by (apply dict_get_None_keys; exact Hk).
      rewrite Hnone in IH. exists l, m. repeat split; try assumption.
      rewrite IH. apply predictions_append_eq.
    + apply String.eqb_neq in E.
      destruct (negb (String.eqb k "sample") && negb (String.eqb k "detokenized")).
      * destruct e as [v|l]; [discriminate|].
        destruct (np_min l) as [m|] eqn:Hm; [|discriminate].
        unfold mbind, result_bind in H. specialize (IH _ Hnd H).
        rewrite predictions_append_ne in IH by congruence. exact IH.
      * exact (IH _ Hnd H).
Qed.

Lemma aggregate_record_raw raw (p0 p1 : PredictionTable) (r : sample_information) :
  raw = "sample" ∨ raw = "detokenized" →
  aggregate_record p0 r = Ok p1 →
  dict_get raw p1 = dict_get raw p0.
Proof.
  intros Hraw. unfold aggregate_record. revert p0.
  induction r as [|[k e] r IH]; intros p0 H.
  - simpl in H. congruence.
  - rewrite result_fold_cons in H.
    destruct (negb (String.eqb k "sample") && negb (String.eqb k "detokenized")) eqn:E.
    + destruct e as [v|l]; [discriminate|].
      destruct (np_min l) as [m|] eqn:Hm; [|discriminate].
      unfold mbind, result_bind in H. rewrite (IH _ H).
      apply predictions_append_ne. intros ->.
      destruct Hraw as [->| ->]; discriminate E.
    + exact (IH _ H).
Qed.

Lemma aggregate_fold name (rs : list sample_information)
    (p0 p : PredictionTable) (s0 s : list value) :
  Forall (λ r, NoDup (dict_keys r)) rs →
  name ≠ "sample" → name ≠ "detokenized" →
  result_fold (λ '(predictions, samples) r,
                 sample ← dict_raw "sample" r;
                 predictions ← aggregate_record predictions r;
                 Ok (predictions, samples ++ [sample]))
              (p0, s0) rs = Ok (p, s) →
  (∃ ss, s = s0 ++ ss ∧ Forall2 (λ r x, dict_raw "sample" r = Ok x) rs ss) ∧
  dict_get "sample" p = dict_get "sample" p0 ∧
  dict_get "detokenized" p = dict_get "detokenized" p0 ∧
  (∃ ms, default [] (dict_get name p) = default [] (dict_get name p0) ++ ms ∧
         Forall2 (record_minimum name) (records_with name rs) ms) ∧
  (dict_get name p0 = None → Forall (λ r, dict_get name r = None) rs →
   dict_get name p = None).
Proof.
  intros Hnd Hs Hd. revert p0 s0. induction Hnd as [|r rs Hr Hnd IH]; intros p0 s0 H.
  - simpl in H. injection H as <- <-. repeat split; auto.
    + exists []. rewrite app_nil_r. split; [reflexivity|constructor].
    + exists []. rewrite app_nil_r. split; [reflexivity|constructor].
  - rewrite result_fold_cons in H.
    destruct (dict_raw "sample" r) as [x|] eqn:Hx; [|discriminate].
    unfold mbind at 1, result_bind at 1 in H.
    destruct (aggregate_record p0 r) as [p1|] eqn:Hp1; [|discriminate].
    unfold mbind at 1, result_bind at 1 in H.
    destruct (IH _ _ H) as ((ss & -> & Hss) & Hsam & Hdet & (ms & Hms & HR) & Hnone).
    pose proof (aggregate_record_get name p0 p1 r Hr Hs Hd Hp1) as Hget.
    split; [|split; [|split; [|split]]].
    + exists (x :: ss). rewrite <- app_assoc. split; [reflexivity|].
      constructor; assumption.
    + rewrite Hsam. eapply aggregate_record_raw; [left; reflexivity | eassumption].
    + rewrite Hdet. eapply aggregate_record_raw; [right; reflexivity | eassumption].
    + unfold records_with in *. destruct (dict_get name r) as [e|] eqn:He.
      * destruct Hget as (l & m & -> & Hm & Hp).
        exists (m :: ms). rewrite Hms, Hp. simpl. rewrite <- app_assoc. split; [reflexivity|].
        rewrite filter_cons_True by (rewrite He; eexists; reflexivity).
        constructor; [|assumption].
        exists l. destruct (np_min_spec l m Hm) as (? & ? & ?). repeat split; assumption.
      * exists ms. rewrite Hms, Hget. split; [reflexivity|].
        rewrite filter_cons_False by (rewrite He; intros [? ?]; discriminate).
        assumption.
    + intros Hp0 Hall. apply Forall_cons in Hall. destruct Hall as [Hrn Hall].
      apply Hnone; [|assumption]. rewrite Hrn in Hget. congruence.
Qed.

(** The aggregation loop: under an attack identifier the table holds, in
    order, one minimum for every record with scores under that identifier;
    the raw fields are no keys of the table. *)
Lemma aggregate_minima (results : list sample_information)
    (predictions : PredictionTable) (samples : list value) (name : string) :
  Forall (λ r, NoDup (dict_keys r)) results →
  name ≠ "sample" → name ≠ "detokenized" →
  aggregate results = Ok (predictions, samples) →
  Forall2 (record_minimum name) (records_with name results)
          (default [] (dict_get name predictions)) ∧
  Forall2 (λ r x, dict_raw "sample" r = Ok x) results samples ∧
  dict_get "sample" predictions = None ∧
  dict_get "detokenized" predictions = None.
Proof.
  intros Hnd Hs Hd H. unfold aggregate in H.
  destruct (aggregate_fold name results [] predictions [] samples Hnd Hs Hd H)
    as ((ss & -> & Hss) & Hsam & Hdet & (ms & Hms & HR) & _).
  simpl in Hms. rewrite Hms. repeat split; assumption.
Qed.

(** ** Reasoning rules for the monad *)

Section Rules.
Context {S : Type}.

Lemma bind_ok_inv {A B} (m : M S A) (f : A → M S B) s s2 t b :
  (m ≫= f) s = (s2, t, Ok b) →
  ∃ s1 t1 a t2, m s = (s1, t1, Ok a) ∧ f a s1 = (s2, t2, Ok b) ∧ t = t1 ++ t2.
Proof.
  rewrite bind_run. destruct (m s) as [[s1 t1] [a|e]]; [|discriminate].
  destruct (f a s1) as [[s2' t2] r] eqn:Hf. intros H. injection H as -> <- ->.
  exists s1, t1, a, t2. auto.
Qed.

Lemma mret_ok_inv {A} (a : A) (s s' : S) t b :
  (mret a : M S A) s = (s', t, Ok b) → s' = s ∧ t = [] ∧ b = a.
Proof. intros H. injection H as <- <- <-. auto. Qed.

Lemma lift_result_ok_inv {A} (r : result A) (s s' : S) t b :
  lift_result r s = (s', t, Ok b) → r = Ok b ∧ s' = s ∧ t = [].
Proof. intros H. injection H as <- <- ->. auto. Qed.

Lemma emit_ok_inv (e : event) (s s' : S) t b :
  emit e s = (s', t, Ok b) → s' = s ∧ t = [e].
Proof. intros H. injection H as <- <- _. auto. Qed.

Lemma get_ok_inv (s s' : S) t b :
  get s = (s', t, Ok b) → s' = s ∧ t = [] ∧ b = s.
Proof. intros H. injection H as <- <- <-. auto. Qed.

(** An invariant of the object and the accumulator of a loop holds when the
    loop is over. *)
Lemma for_fold_ok_inv {A B} (I : S → B → Prop) (body : B → A → M S B) xs :
  (∀ acc x s s' t acc',
     x ∈ xs → I s acc → body acc x s = (s', t, Ok acc') → I s' acc') →
  ∀ acc s s' t b, I s acc → for_fold body acc xs s = (s', t, Ok b) → I s' b.
Proof.
  induction xs as [|x xs IH]; intros Hbody acc s s' t b Hacc H.
  - simpl in H. injection H as <- _ <-. exact Hacc.
  - simpl in H. apply bind_ok_inv in H.
    destruct H as (s1 & t1 & acc1 & t2 & Hx & Hrest & _).
    eapply IH; [| |exact Hrest].
    + intros. eapply Hbody; [right|..]; eassumption.
    + eapply Hbody; [left|..]; eassumption.
Qed.

(** The same for a relation with the elements visited so far. *)
Lemma for_fold_ok_rel {A B} (I : list A → S → B → Prop) (body : B → A → M S B) :
  (∀ done acc x s s' t acc',
     I done s acc → body acc x s = (s', t, Ok acc') → I (done ++ [x]) s' acc') →
  ∀ xs done acc s s' t b,
    I done s acc → for_fold body acc xs s = (s', t, Ok b) → I (done ++ xs) s' b.
Proof.
  intros Hbody. induction xs as [|x xs IH]; intros done acc s s' t b Hacc H.
  - simpl in H. injection H as <- _ <-. rewrite app_nil_r. exact Hacc.
  - simpl in H. apply bind_ok_inv in H.
    destruct H as (s1 & t1 & acc1 & t2 & Hx & Hrest & _).
    replace (done ++ x :: xs) with ((done ++ [x]) ++ xs) by (rewrite <- app_assoc; reflexivity).
    eapply IH; [|exact Hrest]. eapply Hbody; eassumption.
Qed.

Lemma bind_trace_Forall {A B} (P : event → Prop) (m : M S A) (f : A → M S B) s :
  Forall P (trace (m s)) →
  (∀ s1 t1 a, m s = (s1, t1, Ok a) → Forall P (trace (f a s1))) →
  Forall P (trace ((m ≫= f) s)).
Proof.
  rewrite bind_run. destruct (m s) as [[s1 t1] [a|e]]; intros Hm Hf; [|exact Hm].
  specialize (Hf s1 t1 a eq_refl). destruct (f a s1) as [[s2 t2] r].
  unfold trace in *. simpl in *. apply Forall_app. auto.
Qed.

(** Events under an invariant of the object and the accumulator. *)
Lemma for_fold_trace_inv {A B} (P : event → Prop) (I : S → B → Prop)
    (body : B → A → M S B) xs :
  (∀ acc x s, x ∈ xs → I s acc →
     Forall P (trace (body acc x s)) ∧
     ∀ s' t acc', body acc x s = (s', t, Ok acc') → I s' acc') →
  ∀ acc s, I s acc → Forall P (trace (for_fold body acc xs s)).
Proof.
  induction xs as [|x xs IH]; intros Hbody acc s Hacc.
  - constructor.
  - simpl. destruct (Hbody acc x s) as [Ht Hi]; [left|exact Hacc|].
    apply bind_trace_Forall; [exact Ht|].
    intros s1 t1 acc1 Hb. apply IH; [|eapply Hi; exact Hb].
    intros. apply Hbody; [right|]; assumption.
Qed.

(** A property of the trace that every round of a loop extends. *)
Lemma for_fold_ok_trace {A B} (J : list event → Prop) (body : B → A → M S B) xs :
  (∀ acc x s s' t acc' t0,
     x ∈ xs → J t0 → body acc x s = (s', t, Ok acc') → J (t0 ++ t)) →
  ∀ acc s s' t b t0,
    J t0 → for_fold body acc xs s = (s', t, Ok b) → J (t0 ++ t).
Proof.
  induction xs as [|x xs IH]; intros Hbody acc s s' t b t0 H0 H.
  - simpl in H. injection H as _ <- _. rewrite app_nil_r. exact H0.
  - simpl in H. apply bind_ok_inv in H.
    destruct H as (s1 & t1 & acc1 & t2 & Hx & Hrest & ->).
    rewrite app_assoc. eapply IH; [| |exact Hrest].
    + intros. eapply Hbody; [right|..]; eassumption.
    + eapply Hbody; [left|..]; eassumption.
Qed.

Lemma for_fold_trace_Forall {A B} (P : event → Prop) (body : B → A → M S B) xs :
  (∀ acc x s, x ∈ xs → Forall P (trace (body acc x s))) →
  ∀ acc s, Forall P (trace (for_fold body acc xs s)).
Proof.
  induction xs as [|x xs IH]; intros Hbody acc s.
  - constructor.
  - simpl. apply bind_trace_Forall.
    + apply Hbody. left.
    + intros. apply IH. intros. apply Hbody. right. assumption.
Qed.
End Rules.

Lemma for_items_ok_inv {S B} (I : B → Prop) (body : string → B → M S B) d :
  (∀ k acc s s' t acc',
     k ∈ dict_keys d → I acc → body k acc s = (s', t, Ok acc') → I acc') →
  ∀ acc d' t b, I acc → for_items body acc d = (d', t, Ok b) → I b.
Proof.
  induction d as [|[k s] d IH]; intros Hbody acc d' t b Hacc H.
  - simpl in H. injection H as _ _ <-. exact Hacc.
  - simpl in H. destruct (body k acc s) as [[s1 t1] [acc1|e]] eqn:Hb; [|discriminate].
    destruct (for_items body acc1 d) as [[d1 t2] r] eqn:Hrest.
    injection H as _ _ ->. eapply IH; [| |exact Hrest].
    + intros. eapply Hbody; [right|..]; eassumption.
    + eapply Hbody; [left|..]; eassumption.
Qed.

Lemma for_items_trace_Forall {S B} (P : event → Prop) (body : string → B → M S B) :
  (∀ k acc s, Forall P (trace (body k acc s))) →
  ∀ d acc, Forall P (trace (for_items body acc d)).
Proof.
  intros Hbody. induction d as [|[k s] d IH]; intros acc.
  - constructor.
  - simpl. specialize (Hbody k acc s).
    destruct (body k acc s) as [[s1 t1] [acc1|e]]; [|exact Hbody].
    specialize (IH acc1). destruct (for_items body acc1 d) as [[d1 t2] r].
    unfold trace in *. simpl in *. apply Forall_app. auto.
Qed.

(** The keys of the dictionary of attackers do not change. *)
Lemma for_items_keys {S B} (body : string → B → M S B) d acc :
  dict_keys (final (for_items body acc d)) = dict_keys d.
Proof.
  revert acc. induction d as [|[k s] d IH]; intros acc; [reflexivity|].
  simpl. destruct (body k acc s) as [[s1 t1] [acc1|e]]; [|reflexivity].
  specialize (IH acc1). destruct (for_items body acc1 d) as [[d1 t2] r].
  unfold final, dict_keys in *. simpl in *. rewrite IH. reflexivity.
Qed.

Lemma on_item_ok_inv {S A} key (m : M S A) d d' t a :
  on_item key m d = (d', t, Ok a) →
  ∃ s s', dict_get key d = Some s ∧ m s = (s', t, Ok a) ∧ d' = dict_set key s' d.
Proof.
  unfold on_item. destruct (dict_get key d) as [s|]; [|discriminate].
  destruct (m s) as [[s1 t1] r] eqn:Hm. intros H. injection H as <- <- ->.
  exists s, s1. auto.
Qed.

Lemma on_item_trace_Forall {S A} (P : event → Prop) key (m : M S A) d :
  (∀ s, Forall P (trace (m s))) → Forall P (trace (on_item key m d)).
Proof.
  intros Hm. unfold on_item. destruct (dict_get key d) as [s|]; [|constructor].
  specialize (Hm s). destruct (m s) as [[s1 t1] r]. exact Hm.
Qed.

(** ** How the passes grow a record *)

Lemma dict_append_extend k x d : dict_append k x d = dict_extend k [x] d.
Proof. unfold dict_append, dict_extend. destruct (dict_get k d) as [[?|?]|]; reflexivity. Qed.

Lemma grown_append allowed d d1 d2 k x :
  grown allowed d d1 → allowed k → dict_append k x d1 = Ok d2 → grown allowed d d2.
Proof. intros H Hk Ha. rewrite dict_append_extend in Ha. eapply grown_step; eassumption. Qed.

Lemma grown_trans allowed d d1 d2 :
  grown allowed d d1 → grown allowed d1 d2 → grown allowed d d2.
Proof.
  intros H1 H2. induction H2 as [|d1 d2 d3 k xs _ IH Hk He]; [assumption|].
  eapply grown_step; [apply IH; assumption | eassumption..].
Qed.

Lemma grown_mono (allowed allowed' : string → Prop) d d' :
  (∀ k, allowed k → allowed' k) → grown allowed d d' → grown allowed' d d'.
Proof.
  intros Hsub H. induction H as [|d d1 d2 k xs _ IH Hk He]; [constructor|].
  eapply grown_step; [exact IH | apply Hsub; exact Hk | exact He].
Qed.

(** Extending scores leaves the other keys alone, never touches a raw entry
    and keeps the keys distinct. *)
Lemma dict_extend_other k xs d d' k0 :
  dict_extend k xs d = Ok d' → k ≠ k0 → dict_get k0 d' = dict_get k0 d.
Proof.
  unfold dict_extend. intros H Hne.
  destruct (dict_get k d) as [[v|l]|]; try discriminate;
    injection H as <-; apply dict_get_set_ne; assumption.
Qed.

Lemma dict_extend_raw k xs d d' k0 v :
  dict_extend k xs d = Ok d' → dict_get k0 d = Some (Raw v) → dict_get k0 d' = Some (Raw v).
Proof.
  intros H Hv. destruct (String.eqb k k0) eqn:E.
  - apply String.eqb_eq in E. subst k0. unfold dict_extend in H. rewrite Hv in H. discriminate.
  - apply String.eqb_neq in E. rewrite (dict_extend_other _ _ _ _ _ H E). exact Hv.
Qed.

Lemma dict_extend_NoDup k xs d d' :
  dict_extend k xs d = Ok d' → NoDup (dict_keys d) → NoDup (dict_keys d').
Proof.
  unfold dict_extend. intros H Hnd.
  destruct (dict_get k d) as [[v|l]|]; try discriminate;
    injection H as <-; apply dict_set_NoDup; assumption.
Qed.

Lemma grown_other allowed d d' k0 :
  grown allowed d d' → ¬ allowed k0 → dict_get k0 d' = dict_get k0 d.
Proof.
  intros H Hk0. induction H as [|d d1 d2 k xs _ IH Hk He]; [reflexivity|].
  rewrite <- IH. eapply dict_extend_other; [exact He|]. intros ->. contradiction.
Qed.

Lemma grown_raw allowed d d' k0 v :
  grown allowed d d' → dict_get k0 d = Some (Raw v) → dict_get k0 d' = Some (Raw v).
Proof.
  intros H Hv. induction H as [|d d1 d2 k xs _ IH Hk He]; [assumption|].
  eapply dict_extend_raw; [exact He | apply IH; exact Hv].
Qed.

Lemma grown_NoDup allowed d d' :
  grown allowed d d' → NoDup (dict_keys d) → NoDup (dict_keys d').
Proof.
  intros H Hnd. induction H as [|d d1 d2 k xs _ IH Hk He]; [assumption|].
  eapply dict_extend_NoDup; [exact He | apply IH; exact Hnd].
Qed.

Section PrimaryPass.
Variable W : Collaborators.
Variable target_model : Model.
Variable cfg : ExperimentConfig.
Variable nb : option (gmap Z (list (list value))).

Lemma neighbor_scores_grown doc_index i substr probs detok loss name si
    (self self' : Attack) t si' :
  neighbor_scores W cfg nb doc_index i substr probs detok loss name si self
  = (self', t, Ok si') →
  name = NEIGHBOR →
  grown (may_append cfg nb name) si si'.
Proof.
  intros H Hname. unfold neighbor_scores in H.
  destruct (neighborhood_config cfg) as [nc|] eqn:Hnc; [|discriminate].
  revert H. apply for_fold_ok_inv with (I := λ _ acc, grown (may_append cfg nb name) si acc);
    [|constructor].
  intros acc n s s1 t1 acc1 Hn Hacc Hbody. unfold neighbor_step in Hbody.
  destruct (neighbors_truthy nb && negb (dump_cache nc)) eqn:Hen.
  - apply andb_true_iff in Hen. destruct Hen as [Htr Hdump].
    apply negb_true_iff in Hdump.
    apply bind_ok_inv in Hbody. destruct Hbody as (s2 & t2 & sn & t3 & _ & Hbody & _).
    apply bind_ok_inv in Hbody. destruct Hbody as (s3 & t4 & [] & t5 & _ & Hbody & _).
    apply bind_ok_inv in Hbody. destruct Hbody as (s4 & t6 & score & t7 & _ & Hbody & _).
    apply lift_result_ok_inv in Hbody. destruct Hbody as (Happ & _ & _).
    eapply grown_append; [exact Hacc| |exact Happ].
    right. split; [exact Hname|]. exists nc, n. repeat split; assumption.
  - apply mret_ok_inv in Hbody. destruct Hbody as (_ & _ & ->). exact Hacc.
Qed.

Lemma run_attack_grown doc_index i substr probs detok loss name si
    (self self' : Attack) t si' :
  run_attack W cfg nb doc_index i substr probs detok loss name si self
  = (self', t, Ok si') →
  grown (may_append cfg nb name) si si'.
Proof.
  unfold run_attack. intros H.
  destruct (startswith name REFERENCE_BASED || String.eqb name LOSS) eqn:Hskip.
  - apply mret_ok_inv in H. destruct H as (_ & _ & ->). constructor.
  - apply orb_false_iff in Hskip. destruct Hskip as [Href Hloss].
    apply String.eqb_neq in Hloss.
    destruct (String.eqb name NEIGHBOR) eqn:Hne; simpl in H.
    + apply String.eqb_eq in Hne. eapply neighbor_scores_grown; eassumption.
    + apply String.eqb_neq in Hne.
      apply bind_ok_inv in H. destruct H as (s3 & t4 & [] & t5 & _ & H & _).
      apply bind_ok_inv in H. destruct H as (s4 & t6 & score & t7 & _ & H & _).
      apply lift_result_ok_inv in H. destruct H as (Happ & _ & _).
      eapply grown_append; [constructor| |exact Happ].
      left. auto.
Qed.
Lemma process_substring_grown doc_index detokenized_sample si x
    (d d' : list (string * Attack)) t si' :
  process_substring W target_model cfg nb doc_index detokenized_sample si x d
  = (d', t, Ok si') →
  grown (primary_key cfg nb (dict_keys d)) si si' ∧ dict_keys d' = dict_keys d.
Proof.
  destruct x as [i substr]. unfold process_substring. intros H.
  apply bind_ok_inv in H. destruct H as (d1 & t1 & detok_i & t2 & Hdetok & H & _).
  assert (Hd1 : d1 = d).
  { destruct (pretokenized cfg).
    - destruct detokenized_sample as [ds|]; [|discriminate].
      apply bind_ok_inv in Hdetok. destruct Hdetok as (? & ? & ? & ? & Hl & Hr & _).
      apply lift_result_ok_inv in Hl. destruct Hl as (_ & -> & _).
      apply mret_ok_inv in Hr. destruct Hr as (-> & _). reflexivity.
    - apply mret_ok_inv in Hdetok. destruct Hdetok as (-> & _). reflexivity. }
  subst d1.
  apply bind_ok_inv in H. destruct H as (d2 & t3 & [] & t4 & He1 & H & _).
  apply emit_ok_inv in He1. destruct He1 as (-> & _).
  apply bind_ok_inv in H. destruct H as (d3 & t5 & [] & t6 & He2 & H & _).
  apply emit_ok_inv in He2. destruct He2 as (-> & _).
  apply bind_ok_inv in H. destruct H as (d4 & t7 & si1 & t8 & Hloss & H & _).
  apply lift_result_ok_inv in Hloss. destruct Hloss as (Hloss & -> & _).
  split.
  - revert H. apply for_items_ok_inv.
    + intros k acc s s' t' acc' Hk Hacc Hbody.
      eapply grown_trans; [exact Hacc|].
      eapply grown_mono; [|eapply run_attack_grown; exact Hbody].
      intros k' Hk'. right. exists k. auto.
    + eapply grown_append; [constructor|left; reflexivity|exact Hloss].
  - pose proof (for_items_keys
                  (run_attack W cfg nb doc_index i substr
                     (get_probabilities W target_model (default substr detok_i)
                        (if pretokenized cfg then Some substr else None))
                     detok_i
                     (get_ll W target_model (default substr detok_i)
                        (Some (get_probabilities W target_model (default substr detok_i)
                                 (if pretokenized cfg then Some substr else None)))
                        (if pretokenized cfg then Some substr else None)))
                  d si1) as Hkeys.
    rewrite H in Hkeys. exact Hkeys.
Qed.

Lemma process_document_grown doc_index doc (d d' : list (string * Attack)) t si :
  process_document W target_model cfg nb doc_index doc d = (d', t, Ok si) →
  dict_keys d' = dict_keys d ∧
  ∃ sample si0,
    select_sample cfg doc = Ok sample ∧ initial_record sample si0 ∧
    grown (primary_key cfg nb (dict_keys d)) si0 si.
Proof.
  unfold process_document. intros H.
  apply bind_ok_inv in H. destruct H as (d1 & t1 & sample & t2 & Hsel & H & _).
  apply lift_result_ok_inv in Hsel. destruct Hsel as (Hsel & -> & _).
  apply bind_ok_inv in H. destruct H as (d2 & t3 & substrs & t4 & Hit & H & _).
  apply lift_result_ok_inv in Hit. destruct Hit as (Hit & -> & _).
  apply bind_ok_inv in H. destruct H as (d3 & t5 & [detok si0] & t6 & Hdet & H & _).
  assert (Hinit : d3 = d ∧ initial_record sample si0).
  { destruct (pretokenized cfg).
    - apply bind_ok_inv in Hdet. destruct Hdet as (d4 & t7 & ds & t8 & Hdec & Hr & _).
      apply mret_ok_inv in Hr. destruct Hr as (-> & _ & Hr). injection Hr as _ ->.
      split; [|right; exists ds; reflexivity].
      revert Hdec. apply for_fold_ok_inv with (I := λ s _, s = d); [|reflexivity].
      intros acc x s s' t' acc' _ -> Hb.
      apply bind_ok_inv in Hb. destruct Hb as (? & ? & ? & ? & He & Hr & _).
      apply emit_ok_inv in He. destruct He as (-> & _).
      apply mret_ok_inv in Hr. destruct Hr as (-> & _). reflexivity.
    - apply mret_ok_inv in Hdet. destruct Hdet as (-> & _ & Hr). injection Hr as _ ->.
      split; [reflexivity | left; reflexivity]. }
  destruct Hinit as [-> Hinit].
  assert (Hloop : dict_keys d' = dict_keys d ∧
                  grown (primary_key cfg nb (dict_keys d)) si0 si).
  { revert H.
    apply for_fold_ok_inv
      with (I := λ s acc, dict_keys s = dict_keys d ∧
                          grown (primary_key cfg nb (dict_keys d)) si0 acc);
      [|split; [reflexivity|constructor]].
    intros acc x s s' t' acc' _ [Hk Hacc] Hb.
    apply process_substring_grown in Hb. destruct Hb as [Hg Hk'].
    rewrite Hk in Hg, Hk'. split; [exact Hk'|].
    eapply grown_trans; eassumption. }
  destruct Hloop as [Hk Hg]. split; [exact Hk|].
  exists sample, si0. auto.
Qed.
Lemma enumerate_snd {A} (l : list A) : (enumerate l).*2 = l.
Proof. unfold enumerate. apply snd_zip. rewrite length_seq. reflexivity. Qed.

Lemma primary_pass_records data n_samples batch_size
    (d d' : list (string * Attack)) t results :
  primary_pass W target_model cfg data nb n_samples batch_size d = (d', t, Ok results) →
  dict_keys d' = dict_keys d ∧
  Forall2 (primary_record cfg nb (dict_keys d))
          (batch_texts data n_samples batch_size)
          results.
Proof.
  unfold primary_pass, batch_texts, n_batches. intros H.
  apply bind_ok_inv in H. destruct H as (sq & tq & quotient & tq' & Hq & H & _).
  apply lift_result_ok_inv in Hq. destruct Hq as (Hq & -> & _). rewrite Hq.
  set (texts := λ batch : Z, py_slice (records data) (batch * batch_size)
                                      ((batch + 1) * batch_size)) in *.
  change (dict_keys d' = dict_keys d ∧
          Forall2 (primary_record cfg nb (dict_keys d))
                  (concat (map texts ([] ++ range (math_ceil quotient))))
                  results).
  revert H.
  apply for_fold_ok_rel
    with (I := λ done s acc,
               dict_keys s = dict_keys d ∧
               Forall2 (primary_record cfg nb (dict_keys d)) (concat (map texts done)) acc);
    [|split; [reflexivity|constructor]].
  intros done acc batch s s' t' acc' [Hk Hacc] Hbody.
  rewrite map_app, concat_app. simpl. rewrite app_nil_r.
  rewrite <- (enumerate_snd (texts batch)).
  change ((λ done' s acc, dict_keys s = dict_keys d ∧
             Forall2 (primary_record cfg nb (dict_keys d))
                     (concat (map texts done) ++ done'.*2) acc)
            ([] ++ enumerate (texts batch)) s' acc').
  revert Hbody. apply for_fold_ok_rel.
  - intros done' acc0 [idx doc] s0 s1 t0 acc1 [Hk0 Hacc0] Hb.
    apply bind_ok_inv in Hb. destruct Hb as (s2 & t1 & si & t2 & Hdoc & Hr & _).
    apply mret_ok_inv in Hr. destruct Hr as (-> & _ & ->).
    apply process_document_grown in Hdoc. destruct Hdoc as (Hk1 & sample & si0 & Hs & Hi & Hg).
    rewrite Hk0 in Hk1, Hg. split; [exact Hk1|].
    rewrite fmap_app, app_assoc. apply Forall2_app; [exact Hacc0|].
    constructor; [|constructor]. exists sample, si0. auto.
  - simpl. rewrite app_nil_r. auto.
Qed.
End PrimaryPass.

Section ReferencePass.
Variable W : Collaborators.
Variable cfg : ExperimentConfig.

Lemma reference_scores_grown ref_key r (self self' : Attack) t r' :
  reference_scores W cfg ref_key r self = (self', t, Ok r') →
  grown (λ k, k = ref_key) r r'.
Proof.
  unfold reference_scores. intros H.
  apply bind_ok_inv in H. destruct H as (s1 & t1 & sample & t2 & _ & H & _).
  apply bind_ok_inv in H. destruct H as (s2 & t3 & substrs & t4 & _ & H & _).
  apply bind_ok_inv in H. destruct H as (s3 & t5 & scores & t6 & _ & H & _).
  apply lift_result_ok_inv in H. destruct H as (H & _ & _).
  eapply grown_step; [constructor|reflexivity|exact H].
Qed.

Lemma dict_keys_set_present {V} k (v v' : V) d :
  dict_get k d = Some v → dict_keys (dict_set k v' d) = dict_keys d.
Proof. intros H. rewrite dict_keys_set, H. reflexivity. Qed.

Lemma reference_model_pass_records results x
    (d d' : list (string * Attack)) t results' :
  reference_model_pass W cfg results x d = (d', t, Ok results') →
  dict_keys d' = dict_keys d ∧ Forall2 (grown reference_key) results results'.
Proof.
  destruct x as [name m]. unfold reference_model_pass. intros Hbody.
  assert (Hrefl : Forall2 (grown reference_key) results results).
  { apply Forall_Forall2_diag, Forall_forall. intros. constructor. }
  apply bind_ok_inv in Hbody. destruct Hbody as (s1 & t1 & ad & t2 & Hget & Hbody & _).
  apply get_ok_inv in Hget. destruct Hget as (-> & _ & ->).
  destruct (dict_get (ref_key_of (member_format W) name) d) as [a|] eqn:Ha.
  - apply bind_ok_inv in Hbody. destruct Hbody as (s2 & t3 & res & t4 & Hloop & Hbody & _).
    apply bind_ok_inv in Hbody. destruct Hbody as (s3 & t5 & [] & t6 & Hemit & Hbody & _).
    apply emit_ok_inv in Hemit. destruct Hemit as (-> & _).
    apply bind_ok_inv in Hbody. destruct Hbody as (s4 & t7 & [] & t8 & Hun & Hbody & _).
    apply mret_ok_inv in Hbody. destruct Hbody as (-> & _ & ->).
    apply on_item_ok_inv in Hloop. destruct Hloop as (a0 & a1 & Ha0 & Hloop & ->).
    apply on_item_ok_inv in Hun. destruct Hun as (a2 & a3 & Ha2 & _ & ->).
    split.
    + rewrite (dict_keys_set_present _ _ _ _ Ha2), (dict_keys_set_present _ _ _ _ Ha0).
      reflexivity.
    + change (Forall2 (grown reference_key) ([] ++ results) res).
      revert Hloop.
      apply for_fold_ok_rel
        with (I := λ done (_ : Attack) out, Forall2 (grown reference_key) done out);
        [|constructor].
      intros done out r s0 s1 t0 out' Hdone Hb.
      apply bind_ok_inv in Hb. destruct Hb as (s5 & t9 & r' & t10 & Hr & Hret & _).
      apply mret_ok_inv in Hret. destruct Hret as (_ & _ & ->).
      apply Forall2_app; [exact Hdone|]. constructor; [|constructor].
      eapply grown_mono; [|eapply reference_scores_grown; exact Hr].
      intros k ->. exists (member_format W), name. reflexivity.
  - apply mret_ok_inv in Hbody. destruct Hbody as (-> & _ & ->). auto.
Qed.

Lemma reference_pass_records ref_models results
    (d d' : list (string * Attack)) t results' :
  reference_pass W cfg ref_models results d = (d', t, Ok results') →
  dict_keys d' = dict_keys d ∧ Forall2 (grown reference_key) results results'.
Proof.
  unfold reference_pass. intros H.
  assert (Hrefl : Forall2 (grown reference_key) results results).
  { apply Forall_Forall2_diag, Forall_forall. intros. constructor. }
  destruct ref_models as [rms|].
  - revert H.
    apply for_fold_ok_inv
      with (I := λ s acc, dict_keys s = dict_keys d ∧
                          Forall2 (grown reference_key) results acc);
      [|split; [reflexivity|exact Hrefl]].
    intros acc x s s' t' acc' _ [Hk Hacc] Hbody.
    apply reference_model_pass_records in Hbody. destruct Hbody as [Hk' Hg].
    split; [congruence|].
    eapply Forall2_trans; [|exact Hacc|exact Hg].
    intros r0 r1 r2 H01 H12. eapply grown_trans; eassumption.
  - apply bind_ok_inv in H. destruct H as (s1 & t1 & [] & t2 & Hemit & H & _).
    apply emit_ok_inv in Hemit. destruct Hemit as (-> & _).
    apply mret_ok_inv in H. destruct H as (-> & _ & ->). auto.
Qed.
End ReferencePass.

(** ** The pipeline as a whole *)

Lemma outcome_ok_inv {S A} (x : S * list event * result A) a :
  outcome x = Ok a → ∃ s t, x = (s, t, Ok a).
Proof. destruct x as [[s t] r]. unfold outcome. simpl. intros ->. eauto. Qed.

Lemma load_neighbors_run cfg data (d : list (string * Attack)) :
  ∃ t r, load_neighbors cfg data d = (d, t, r) ∧
         Forall (λ e, e = EvPrint "Loaded neighbors from cache!") t ∧
         ∀ nb, r = Ok nb → nb = loaded_neighbors cfg data (dict_keys d).
Proof.
  unfold load_neighbors, loaded_neighbors. rewrite bind_run. unfold get at 1. cbv beta iota.
  destruct (str_in NEIGHBOR (dict_keys d)).
  - destruct (neighborhood_config cfg) as [nc|].
    + destruct (load_from_cache nc).
      * destruct (neighbors data) as [cache|].
        -- eexists _, _. split; [reflexivity|]. split; [repeat constructor|].
           intros nb H. injection H as <-. reflexivity.
        -- eexists _, _. split; [reflexivity|]. split; [constructor|]. discriminate.
      * eexists _, _. split; [reflexivity|]. split; [constructor|].
        intros nb H. injection H as <-. reflexivity.
    + eexists _, _. split; [reflexivity|]. split; [constructor|]. discriminate.
  - eexists _, _. split; [reflexivity|]. split; [constructor|].
    intros nb H. injection H as <-. reflexivity.
Qed.

(** A run of [get_mia_scores] that returns went through the three stages. *)
Lemma get_mia_scores_inv W target_model cfg data ref_models n_samples batch_size
    (d d' : list (string * Attack)) t predictions samples :
  get_mia_scores W target_model cfg data ref_models n_samples batch_size d
  = (d', t, Ok (predictions, samples)) →
  ∃ results,
    Forall2 (final_record cfg (loaded_neighbors cfg data (dict_keys d)) (dict_keys d))
            (visited_records data n_samples batch_size) results ∧
    aggregate results = Ok (predictions, samples).
Proof.
  unfold get_mia_scores. intros H.
  apply bind_ok_inv in H. destruct H as (s1 & t1 & [] & t2 & Hemit & H & _).
  apply emit_ok_inv in Hemit. destruct Hemit as (-> & _).
  apply bind_ok_inv in H. destruct H as (s3 & t5 & nb & t6 & Hnb & H & _).
  destruct (load_neighbors_run cfg data d) as (tn & rn & Hrun & _ & Hnb').
  rewrite Hrun in Hnb. injection Hnb as <- _ ->. rewrite (Hnb' nb eq_refl) in H.
  apply bind_ok_inv in H. destruct H as (s4 & t7 & results1 & t8 & Hp & H & _).
  apply bind_ok_inv in H. destruct H as (s5 & t9 & results2 & t10 & Hr & H & _).
  apply lift_result_ok_inv in H. destruct H as (Hagg & _ & _).
  apply primary_pass_records in Hp. destruct Hp as [_ Hp].
  apply reference_pass_records in Hr. destruct Hr as [_ Hr].
  exists results2. split; [|exact Hagg].
  eapply Forall2_trans; [|exact Hp|exact Hr].
  intros doc r1 r2 H1 H2. exists r1. auto.
Qed.

Lemma initial_record_sample sample si0 :
  initial_record sample si0 → dict_get "sample" si0 = Some (Raw sample).
Proof. intros [->|[ds ->]]; reflexivity. Qed.

Lemma initial_record_NoDup sample si0 :
  initial_record sample si0 → NoDup (dict_keys si0).
Proof.
  intros [->|[ds ->]]; apply (bool_decide_unpack _); vm_compute; reflexivity.
Qed.

(** After both passes the record of a document holds its sample and has
    distinct keys. *)
Lemma final_record_sample cfg nb keys doc r :
  final_record cfg nb keys doc r →
  ∃ sample, select_sample cfg doc = Ok sample ∧
            dict_get "sample" r = Some (Raw sample) ∧
            NoDup (dict_keys r).
Proof.
  intros (r1 & (sample & si0 & Hsel & Hinit & Hg) & Hg2).
  exists sample. split; [exact Hsel|]. split.
  - eapply grown_raw; [exact Hg2|]. eapply grown_raw; [exact Hg|].
    apply initial_record_sample. exact Hinit.
  - eapply grown_NoDup; [exact Hg2|]. eapply grown_NoDup; [exact Hg|].
    eapply initial_record_NoDup. exact Hinit.
Qed.

Lemma final_records_NoDup cfg nb keys docs (results : list sample_information) :
  Forall2 (final_record cfg nb keys) docs results →
  Forall (λ r, NoDup (dict_keys r)) results.
Proof.
  intros H. eapply Forall2_Forall_r; [exact H|]. apply Forall_forall.
  intros doc _ r Hr. apply final_record_sample in Hr.
  destruct Hr as (sample & _ & _ & Hnd). exact Hnd.
Qed.

(** A key that no pass may write is no key of the record. *)
Lemma final_record_untouched cfg nb keys doc r K :
  final_record cfg nb keys doc r →
  K ≠ "sample" → K ≠ "detokenized" →
  ¬ primary_key cfg nb keys K → ¬ reference_key K →
  dict_get K r = None.
Proof.
  intros (r1 & (sample & si0 & _ & Hinit & Hg1) & Hg2) Hs Hd Hp Hr.
  rewrite (grown_other _ _ _ _ Hg2 Hr), (grown_other _ _ _ _ Hg1 Hp).
  apply String.eqb_neq in Hs, Hd.
  destruct Hinit as [->|[ds ->]]; simpl; rewrite ?Hs, ?Hd; reflexivity.
Qed.

(** ** The substrings of a document (C1) *)

(** C1 as stated fails: with full-document mode off and a document of three
    pieces, the pipeline scores the whole document as one substring, where
    the claim has the first [max_substrs] pieces. *)
Lemma full_doc_claim_fails :
  ∃ predictions samples,
    outcome (get_mia_scores example_world "target" (example_config false false None)
               example_split_data None None 50 [])
    = Ok (predictions, samples) ∧
    ¬ Forall2 (λ doc sample, sample_as_claimed (example_config false false None) doc = Ok sample)
        (visited_records example_split_data None 50) samples.
Proof.
  eexists. eexists. split; [vm_compute; reflexivity|].
  intros H. apply Forall2_cons_1 in H. destruct H as [H _]. vm_compute in H. discriminate H.
Qed.

(** C1, amended. For every document the pipeline visits, the substrings
    scored and returned are the truncation [texts[idx][:max_substrs]] when
    full-document mode is set, and the one-element list [[texts[idx]]] when
    it is not. *)
Theorem samples_follow_full_doc W target_model cfg data ref_models n_samples
    batch_size (d : list (string * Attack)) predictions samples :
  outcome (get_mia_scores W target_model cfg data ref_models n_samples batch_size d)
  = Ok (predictions, samples) →
  Forall2 (λ doc sample,
             (if full_doc cfg then value_prefix doc (max_substrs cfg)
              else Ok (VList [doc])) = Ok sample)
          (visited_records data n_samples batch_size) samples.
Proof.
  intros H. apply outcome_ok_inv in H. destruct H as (d' & t & H).
  apply get_mia_scores_inv in H. destruct H as (results & Hrec & Hagg).
  pose proof (final_records_NoDup _ _ _ _ _ Hrec) as Hnd.
  destruct (aggregate_fold "loss" results [] predictions [] samples Hnd)
    as ((ss & Hss & Hs) & _); [discriminate..|exact Hagg|].
  simpl in Hss. subst ss.
  eapply Forall2_trans; [|exact Hrec|exact Hs].
  intros doc r x Hr Hraw. simpl in Hraw.
  apply final_record_sample in Hr. destruct Hr as (sample & Hsel & Hget & _).
  unfold select_sample in Hsel. rewrite Hsel. f_equal.
  unfold dict_raw in Hraw. rewrite Hget in Hraw. congruence.
Qed.

Lemma samples_follow_full_doc_witness :
  Forall2 (λ doc sample, Ok (VList [doc]) = Ok sample)
          (visited_records example_split_data None 50)
          [VList [VList [VStr "a"; VStr "b"; VStr "c"]]].
Proof.
  exact (samples_follow_full_doc example_world "target" (example_config false false None)
           example_split_data None None 50 [] [("loss", [2%Q])]
           [VList [VList [VStr "a"; VStr "b"; VStr "c"]]] eq_refl).
Defined.

(** ** The neighbourhood attack (C7) *)

Lemma count_key_not_fixed n :
  (NEIGHBOR ++ "-" ++ str_of_int n)%string ≠ "sample" ∧
  (NEIGHBOR ++ "-" ++ str_of_int n)%string ≠ "detokenized" ∧
  (NEIGHBOR ++ "-" ++ str_of_int n)%string ≠ LOSS ∧
  ¬ reference_key (NEIGHBOR ++ "-" ++ str_of_int n)%string.
Proof.
  repeat split; try discriminate. intros (f & name & H). destruct f; discriminate H.
Qed.

(** A key that no pass may write is no key of the table. *)
Lemma untouched_key_absent W target_model cfg data ref_models n_samples batch_size
    (d : list (string * Attack)) predictions samples K :
  outcome (get_mia_scores W target_model cfg data ref_models n_samples batch_size d)
  = Ok (predictions, samples) →
  K ≠ "sample" → K ≠ "detokenized" →
  ¬ primary_key cfg (loaded_neighbors cfg data (dict_keys d)) (dict_keys d) K →
  ¬ reference_key K →
  dict_get K predictions = None.
Proof.
  intros H Hs Hd Hp Hr. apply outcome_ok_inv in H. destruct H as (d' & t & H).
  apply get_mia_scores_inv in H. destruct H as (results & Hrec & Hagg).
  assert (Hnone : Forall (λ r, dict_get K r = None) results).
  { eapply Forall2_Forall_r; [exact Hrec|]. apply Forall_forall.
    intros doc _ r Hfin. eapply final_record_untouched; eassumption. }
  pose proof (final_records_NoDup _ _ _ _ _ Hrec) as Hnd.
  unfold aggregate in Hagg.
  destruct (aggregate_fold K results [] predictions [] samples Hnd Hs Hd Hagg)
    as (_ & _ & _ & _ & Habs).
  apply Habs; [reflexivity|exact Hnone].
Qed.

(** A cache that is loaded and non-empty but has no entry for the count is
    no skip: the lookup raises. *)
Lemma neighbor_step_missing_count W nb doc_index i substr probs detok loss
    neigh_config name si n (self : Attack) :
  neighbors_truthy nb = true →
  dump_cache neigh_config = false →
  default ∅ nb !! n = None →
  neighbor_step W nb doc_index i substr probs detok loss neigh_config name si n self
  = (self, [], Raise KeyError).
Proof.
  intros Htr Hdump Hnone. unfold neighbor_step. rewrite Htr, Hdump. simpl.
  rewrite bind_run. unfold lift_result at 1, lookup_neighbors. rewrite Hnone. reflexivity.
Qed.

(** The scenario of the counts 5 and 10: with the cache loaded and dump mode
    off both count-suffixed keys are in the table, with dump mode on
    neither is. *)
Lemma neighbor_scenario :
  outcome (get_mia_scores example_world "target"
             (example_config false false (Some (example_neighborhood false)))
             example_neighbor_data None None 50 (example_neighbor_attackers false))
  = Ok ([("loss", [2; 2]%Q); ("ne-5", [3; 3]%Q); ("ne-10", [3; 3]%Q)],
        [VList [VStr "The cat sat."]; VList [VStr "The dog ran."]]) ∧
  outcome (get_mia_scores example_world "target"
             (example_config false false (Some (example_neighborhood true)))
             example_neighbor_data None None 50 (example_neighbor_attackers true))
  = Ok ([("loss", [2; 2]%Q)],
        [VList [VStr "The cat sat."]; VList [VStr "The dog ran."]]).
Proof. split; vm_compute; reflexivity. Qed.

(** ** The aggregate of a document (C5) *)

(** A run is the records it scores, aggregated. *)
Lemma get_mia_scores_scored W target_model cfg data ref_models n_samples batch_size
    (d : list (string * Attack)) :
  outcome (get_mia_scores W target_model cfg data ref_models n_samples batch_size d)
  = match outcome (scored_records W target_model cfg data ref_models n_samples
                     batch_size d) with
    | Ok results => aggregate results
    | Raise e => Raise e
    end.
Proof.
  unfold get_mia_scores, scored_records.
  rewrite !(bind_outcome (emit _)). unfold emit. cbv beta iota.
  rewrite !(bind_outcome (load_neighbors _ _)).
  destruct (load_neighbors cfg data d) as [[s1 t1] [nb|e]]; [|reflexivity].
  rewrite !(bind_outcome (primary_pass _ _ _ _ _ _ _)).
  destruct (primary_pass W target_model cfg data nb
              (default (Z.of_nat (length (records data))) n_samples) batch_size s1)
    as [[s2 t2] [results|e]]; [|reflexivity].
  rewrite bind_outcome.
  destruct (reference_pass W cfg ref_models results s2) as [[s3 t3] [results'|e]];
    reflexivity.
Qed.

Lemma scored_records_inv W target_model cfg data ref_models n_samples batch_size
    (d d' : list (string * Attack)) t results :
  scored_records W target_model cfg data ref_models n_samples batch_size d
  = (d', t, Ok results) →
  Forall2 (final_record cfg (loaded_neighbors cfg data (dict_keys d)) (dict_keys d))
          (visited_records data n_samples batch_size) results.
Proof.
  unfold scored_records. intros H.
  apply bind_ok_inv in H. destruct H as (s1 & t1 & [] & t2 & Hemit & H & _).
  apply emit_ok_inv in Hemit. destruct Hemit as (-> & _).
  apply bind_ok_inv in H. destruct H as (s3 & t5 & nb & t6 & Hnb & H & _).
  destruct (load_neighbors_run cfg data d) as (tn & rn & Hrun & _ & Hnb').
  rewrite Hrun in Hnb. injection Hnb as <- _ ->. rewrite (Hnb' nb eq_refl) in H.
  apply bind_ok_inv in H. destruct H as (s4 & t7 & results1 & t8 & Hp & Hr & _).
  apply primary_pass_records in Hp. destruct Hp as [_ Hp].
  apply reference_pass_records in Hr. destruct Hr as [_ Hr].
  eapply Forall2_trans; [|exact Hp|exact Hr].
  intros doc r1 r2 H1 H2. exists r1. auto.
Qed.

(** C5. In the table [get_mia_scores] returns, the list under an attack
    identifier holds, in the order of the documents, one aggregate for every
    record of the run with scores under that identifier, and the aggregate
    is the minimum of the record's scores: a score of the record that is
    below all of them, and the lone score when there is one. The records are
    those the run has scored when it reaches the aggregation, one per
    visited document. The two raw fields are no keys of the table, and the
    samples come back in document order. *)
Theorem predictions_are_minima W target_model cfg data ref_models n_samples
    batch_size (d : list (string * Attack)) predictions samples name :
  outcome (get_mia_scores W target_model cfg data ref_models n_samples batch_size d)
  = Ok (predictions, samples) →
  name ≠ "sample" → name ≠ "detokenized" →
  ∃ results,
    outcome (scored_records W target_model cfg data ref_models n_samples batch_size d)
    = Ok results ∧
    Forall2 (final_record cfg (loaded_neighbors cfg data (dict_keys d)) (dict_keys d))
            (visited_records data n_samples batch_size) results ∧
    Forall2 (record_minimum name) (records_with name results)
            (default [] (dict_get name predictions)) ∧
    Forall2 (λ r x, dict_raw "sample" r = Ok x) results samples ∧
    dict_get "sample" predictions = None ∧
    dict_get "detokenized" predictions = None.
Proof.
  intros H Hs Hd. rewrite get_mia_scores_scored in H.
  destruct (outcome (scored_records W target_model cfg data ref_models n_samples
                       batch_size d)) as [results|e] eqn:Hrun; [|discriminate].
  exists results. split; [reflexivity|].
  apply outcome_ok_inv in Hrun. destruct Hrun as (d' & t & Hrun).
  apply scored_records_inv in Hrun. split; [exact Hrun|].
  apply aggregate_minima; try assumption.
  eapply final_records_NoDup. exact Hrun.
Qed.

Lemma predictions_are_minima_witness :
  ∃ results,
    results = [[("sample", Raw (VList [VStr "aaa"; VStr "b"])); ("loss", Scores [3; 1]%Q)];
               [("sample", Raw (VList [VStr "cc"])); ("loss", Scores [2]%Q)]] ∧
    Forall2 (record_minimum "loss") (records_with "loss" results) [1; 2]%Q ∧
    Forall2 (λ r x, dict_raw "sample" r = Ok x) results
            [VList [VStr "aaa"; VStr "b"]; VList [VStr "cc"]].
Proof.
  destruct (predictions_are_minima length_world "target" (example_config false true None)
              example_pieces_data None None 50 [] [("loss", [1; 2]%Q)]
              [VList [VStr "aaa"; VStr "b"]; VList [VStr "cc"]] "loss" eq_refl
              ltac:(discriminate) ltac:(discriminate))
    as (results & Hrun & _ & Hmin & Hsam & _).
  exists results. split; [|split; assumption].
  vm_compute in Hrun. injection Hrun as <-. reflexivity.
Defined.

(** ** The events of the passes (C8) *)

Lemma trace_emit_Forall {S} (P : event → Prop) e (s : S) :
  P e → Forall P (trace (emit e s)).
Proof. intros H. repeat constructor. exact H. Qed.

Lemma attack_trace_internal W document probs kw (self : Attack) :
  Forall (attack_internal kw) (trace (attack W document probs kw self)).
Proof.
  assert (Hp : ∀ d p t s, Forall (attack_internal kw)
                            (trace (PerturbationAttack_attack W d p t kw s))).
  { intros d p t s. rewrite PerturbationAttack_attack_run. unfold trace; simpl.
    apply Forall_app. split.
    - destruct (kw_loss kw) eqn:E; repeat constructor. simpl. exact E.
    - destruct (perturb_models s) as [ms|]; [|constructor].
      apply Forall_forall. intros e He. apply list_elem_of_fmap in He.
      destruct He as (m & -> & _). exact I. }
  assert (Hs : ∀ d p t s, Forall (attack_internal kw) (trace (_attack W d p t kw s))).
  { intros d p t s. rewrite _attack_run. destruct (cls s); try (repeat constructor).
    specialize (Hp d p t s).
    destruct (PerturbationAttack_attack W d p t kw s) as [[? ?] ?].
    constructor; [exact I|exact Hp]. }
  assert (Hg : ∀ s, Forall (attack_internal kw) (trace (guarded_attack W document probs kw s))).
  { intros s. unfold guarded_attack.
    destruct (pretokenized (config s)), (kw_detokenized_sample kw); try apply Hs.
    constructor. }
  rewrite attack_run. destruct (is_loaded self); [apply Hg|].
  specialize (Hg (set_is_loaded true self)).
  destruct (guarded_attack W document probs kw (set_is_loaded true self)) as [[? ?] ?].
  unfold trace in *; simpl in *. constructor; [exact I|].
  apply Forall_app. split; [|exact Hg].
  apply Forall_forall. intros e He. apply list_elem_of_fmap in He.
  destruct He as (m & -> & _). exact I.
Qed.

Lemma trace_lift_result_Forall {S A} (P : event → Prop) (r : result A) (s : S) :
  Forall P (trace (lift_result r s)).
Proof. constructor. Qed.

Lemma attack_trace_primary W document probs kw (self : Attack) :
  is_Some (kw_loss kw) →
  Forall primary_event (trace (attack W document probs kw self)).
Proof.
  intros [l Hl]. eapply Forall_impl; [apply attack_trace_internal|].
  intros e He. destruct e; simpl in *; try exact I; try contradiction; congruence.
Qed.

Section PrimaryTrace.
Variable W : Collaborators.
Variable target_model : Model.
Variable cfg : ExperimentConfig.
Variable nb : option (gmap Z (list (list value))).

Lemma neighbor_scores_trace doc_index i substr probs detok loss name si (self : Attack) :
  startswith name REFERENCE_BASED = false →
  Forall primary_event
    (trace (neighbor_scores W cfg nb doc_index i substr probs detok loss name si self)).
Proof.
  intros Href. unfold neighbor_scores.
  destruct (neighborhood_config cfg) as [nc|]; [|constructor].
  apply for_fold_trace_Forall. intros acc n s _. unfold neighbor_step.
  destruct (neighbors_truthy nb && negb (dump_cache nc)); [|constructor].
  apply bind_trace_Forall; [constructor|]. intros s1 t1 sn _.
  apply bind_trace_Forall.
  - apply trace_emit_Forall. split; [exact Href|eexists; reflexivity].
  - intros s2 t2 [] _. apply bind_trace_Forall.
    + apply attack_trace_primary. eexists; reflexivity.
    + intros. constructor.
Qed.

Lemma run_attack_trace doc_index i substr probs detok loss name si (self : Attack) :
  Forall primary_event
    (trace (run_attack W cfg nb doc_index i substr probs detok loss name si self)).
Proof.
  unfold run_attack.
  destruct (startswith name REFERENCE_BASED || String.eqb name LOSS) eqn:Hskip;
    [constructor|].
  apply orb_false_iff in Hskip. destruct Hskip as [Href _].
  destruct (negb (String.eqb name NEIGHBOR)).
  - apply bind_trace_Forall.
    + apply trace_emit_Forall. split; [exact Href|eexists; reflexivity].
    + intros s2 t2 [] _. apply bind_trace_Forall.
      * apply attack_trace_primary. eexists; reflexivity.
      * intros. constructor.
  - apply neighbor_scores_trace. exact Href.
Qed.

Lemma process_substring_trace doc_index detokenized_sample si x
    (d : list (string * Attack)) :
  Forall primary_event
    (trace (process_substring W target_model cfg nb doc_index detokenized_sample si x d)).
Proof.
  destruct x as [i substr]. unfold process_substring.
  apply bind_trace_Forall.
  - destruct (pretokenized cfg); [|constructor].
    destruct detokenized_sample; [|constructor].
    apply bind_trace_Forall; [constructor|]. intros. constructor.
  - intros s1 t1 detok_i _. apply bind_trace_Forall; [repeat constructor|].
    intros s2 t2 [] _. apply bind_trace_Forall; [repeat constructor|].
    intros s3 t3 [] _. apply bind_trace_Forall; [constructor|].
    intros s4 t4 si1 _. apply for_items_trace_Forall.
    intros k acc s. apply run_attack_trace.
Qed.

Lemma process_document_trace doc_index doc (d : list (string * Attack)) :
  Forall primary_event
    (trace (process_document W target_model cfg nb doc_index doc d)).
Proof.
  unfold process_document.
  apply bind_trace_Forall; [constructor|]. intros s1 t1 sample _.
  apply bind_trace_Forall; [constructor|]. intros s2 t2 substrs _.
  apply bind_trace_Forall.
  - destruct (pretokenized cfg); [|constructor].
    apply bind_trace_Forall; [|intros; constructor].
    apply for_fold_trace_Forall. intros acc x s _.
    apply bind_trace_Forall; [repeat constructor|]. intros. constructor.
  - intros s3 t3 [detok si0] _. apply for_fold_trace_Forall.
    intros acc x s _. apply process_substring_trace.
Qed.

Lemma primary_pass_trace data n_samples batch_size (d : list (string * Attack)) :
  Forall primary_event
    (trace (primary_pass W target_model cfg data nb n_samples batch_size d)).
Proof.
  unfold primary_pass. apply bind_trace_Forall; [constructor|]. intros sq tq quotient _.
  apply for_fold_trace_Forall. intros acc batch s _.
  apply for_fold_trace_Forall. intros acc' [idx doc] s' _.
  apply bind_trace_Forall; [apply process_document_trace|]. intros. constructor.
Qed.
End PrimaryTrace.

Lemma enumerate_lookup {A} (l : list A) i x :
  (i, x) ∈ enumerate l → l !! i = Some x.
Proof.
  unfold enumerate.
  assert (H : ∀ k, (i, x) ∈ zip (seq k (length l)) l → (k ≤ i)%nat ∧ l !! (i - k)%nat = Some x).
  { induction l as [|y l IH]; intros k Hin; simpl in Hin.
    - apply elem_of_nil in Hin. contradiction.
    - apply elem_of_cons in Hin. destruct Hin as [Heq|Hin].
      + injection Heq as -> ->. split; [lia|]. rewrite Nat.sub_diag. reflexivity.
      + apply IH in Hin. destruct Hin as [Hle Hl]. split; [lia|].
        replace (i - k)%nat with (S (i - S k)) by lia. exact Hl. }
  intros Hin. apply H in Hin. destruct Hin as [_ Hl].
  rewrite Nat.sub_0_r in Hl. exact Hl.
Qed.

Lemma py_index_lookup {A} (l : list A) i x :
  l !! i = Some x → py_index l (Z.of_nat i) = Ok x.
Proof.
  intros H. unfold py_index.
  assert (Hneg : (Z.of_nat i <? 0)%Z = false) by (apply Z.ltb_ge; lia).
  rewrite Hneg, Hneg, Nat2Z.id, H. reflexivity.
Qed.

(** The element a loop draws at position [i] is the one indexing gives. *)
Lemma value_iter_index v l i x :
  value_iter v = Ok l → l !! i = Some x → value_index v (Z.of_nat i) = Ok x.
Proof.
  destruct v as [s|z|l']; simpl; intros Hit Hl; try discriminate.
  - injection Hit as <-. rewrite list_lookup_fmap in Hl.
    destruct (chars_of_string s !! i) as [c|] eqn:Hc; [|discriminate].
    injection Hl as <-. rewrite (py_index_lookup _ _ _ Hc). reflexivity.
  - injection Hit as <-. apply py_index_lookup. exact Hl.
Qed.

Section ReferenceTrace.
Variable W : Collaborators.
Variable cfg : ExperimentConfig.

Lemma reference_scores_trace ref_key r (self : Attack) :
  Forall (reference_call cfg ref_key r) (trace (reference_scores W cfg ref_key r self)).
Proof.
  unfold reference_scores.
  apply bind_trace_Forall; [constructor|]. intros s1 t1 sample Hsample.
  apply lift_result_ok_inv in Hsample. destruct Hsample as (Hsample & _ & _).
  apply bind_trace_Forall; [constructor|]. intros s2 t2 substrs Hit.
  apply lift_result_ok_inv in Hit. destruct Hit as (Hit & _ & _).
  apply bind_trace_Forall; [|intros; constructor].
  apply for_fold_trace_Forall. intros acc [i s] s3 Hin.
  apply enumerate_lookup in Hin.
  apply bind_trace_Forall.
  { destruct (pretokenized cfg); [|constructor].
    apply bind_trace_Forall; [constructor|]. intros. constructor. }
  intros s4 t4 text Htext.
  assert (Hstored : stored_text cfg r i = Ok text).
  { unfold stored_text. destruct (pretokenized cfg).
    - apply bind_ok_inv in Htext. destruct Htext as (? & ? & v & ? & Hv & Hi & _).
      apply lift_result_ok_inv in Hv. destruct Hv as (Hv & _ & _).
      apply lift_result_ok_inv in Hi. destruct Hi as (Hi & _ & _).
      rewrite Hv. exact Hi.
    - apply mret_ok_inv in Htext. destruct Htext as (_ & _ & ->).
      rewrite Hsample. simpl. eapply value_iter_index; eassumption. }
  apply bind_trace_Forall; [constructor|]. intros s5 t5 loss Hloss.
  apply lift_result_ok_inv in Hloss. destruct Hloss as (Hloss & _ & _).
  apply bind_trace_Forall.
  - apply trace_emit_Forall. simpl. split; [reflexivity|]. split; [reflexivity|].
    exists i, loss. auto.
  - intros s6 t6 [] _. apply bind_trace_Forall; [|intros; constructor].
    eapply Forall_impl; [apply attack_trace_internal|].
    intros e He. destruct e; simpl in *; try exact I; try contradiction; discriminate.
Qed.
End ReferenceTrace.

Lemma reference_key_fixed :
  ¬ reference_key "sample" ∧ ¬ reference_key "detokenized" ∧ ¬ reference_key LOSS.
Proof. repeat split; intros (f & name & H); destruct f; discriminate H. Qed.

(** The test of the first pass, [attack.startswith(REFERENCE_BASED)],
    recognises the key of a reference model in one rendering only. *)
Lemma startswith_ref_key f name :
  startswith (ref_key_of f name) REFERENCE_BASED
  = match f with ByValue => true | ByName => false end.
Proof. destruct f; reflexivity. Qed.

(** The calls made for a record read what the first pass stored in it. *)
Lemma reference_call_transport cfg key r r' e :
  grown reference_key r r' → reference_call cfg key r' e → reference_call cfg key r e.
Proof.
  intros Hg. destruct reference_key_fixed as (Hs & Hd & Hl).
  destruct e; simpl; try tauto.
  intros (Hk & Hp & i & loss & Hscore & Htext & Hkw).
  split; [exact Hk|]. split; [exact Hp|]. exists i, loss.
  split; [|split; [|exact Hkw]].
  - unfold dict_score in *. rewrite <- (grown_other _ _ _ _ Hg Hl). exact Hscore.
  - unfold stored_text, dict_raw in *.
    destruct (pretokenized cfg);
      [rewrite <- (grown_other _ _ _ _ Hg Hd) | rewrite <- (grown_other _ _ _ _ Hg Hs)];
      exact Htext.
Qed.

Lemma reference_call_call_of cfg key r e : reference_call cfg key r e → call_of key e.
Proof. destruct e; simpl; tauto. Qed.

Lemma unload_trace_events (self : Attack) :
  Forall (λ e, e = EvUnload ∨ ∃ m, e = EvModelUnload m) (trace (unload self)).
Proof.
  rewrite unload_run. unfold trace; simpl. constructor; [left; reflexivity|].
  apply Forall_forall. intros e He. apply list_elem_of_fmap in He.
  destruct He as (m & -> & _). right. exists m. reflexivity.
Qed.

Section ReferencePassTrace.
Variable W : Collaborators.
Variable cfg : ExperimentConfig.

Lemma reference_loop_trace key (results : list sample_information) (self : Attack)
    (P : event → Prop) :
  (∀ r e, r ∈ results → reference_call cfg key r e → P e) →
  Forall P (trace (for_fold (λ done r,
                               r' ← reference_scores W cfg key r;
                               mret (done ++ [r']))
                            [] results self)).
Proof.
  intros HP. apply for_fold_trace_Forall. intros acc r s Hr.
  apply bind_trace_Forall; [|intros; constructor].
  eapply Forall_impl; [apply reference_scores_trace|]. intros e He. eapply HP; eassumption.
Qed.

Lemma reference_model_pass_trace results0 results x (d : list (string * Attack)) :
  Forall2 (grown reference_key) results0 results →
  Forall (reference_event (member_format W) cfg results0) (trace (reference_model_pass W cfg results x d)).
Proof.
  intros Hg. destruct x as [name m]. unfold reference_model_pass.
  apply bind_trace_Forall; [constructor|]. intros s1 t1 ad _.
  destruct (dict_get (ref_key_of (member_format W) name) ad); [|constructor].
  apply bind_trace_Forall.
  - apply on_item_trace_Forall. intros s. apply reference_loop_trace.
    intros r' e Hr' He.
    apply list_elem_of_lookup in Hr'. destruct Hr' as [j Hj].
    destruct (Forall2_lookup_r _ _ _ _ _ Hg Hj) as (r & Hr & Hrr').
    pose proof (reference_call_transport _ _ _ _ _ Hrr' He) as He'.
    destruct e; simpl in *; try tauto.
    destruct He' as (-> & Hrest). split; [exists name; reflexivity|].
    exists r. split; [eapply list_elem_of_lookup_2; exact Hr|].
    split; [reflexivity|exact Hrest].
  - intros s2 t2 res _. apply bind_trace_Forall; [repeat constructor|].
    intros s3 t3 [] _. apply bind_trace_Forall; [|intros; constructor].
    apply on_item_trace_Forall. intros s.
    eapply Forall_impl; [apply unload_trace_events|].
    intros e [->|[m' ->]]; exact I.
Qed.

Lemma reference_pass_trace ref_models results (d : list (string * Attack)) :
  Forall (reference_event (member_format W) cfg results) (trace (reference_pass W cfg ref_models results d)).
Proof.
  unfold reference_pass. destruct ref_models as [rms|]; [|repeat constructor].
  apply for_fold_trace_inv
    with (I := λ (_ : list (string * Attack)) acc, Forall2 (grown reference_key) results acc).
  - intros acc x s _ Hacc. split; [apply reference_model_pass_trace; exact Hacc|].
    intros s' t acc' Hb. apply reference_model_pass_records in Hb. destruct Hb as [_ Hb].
    eapply Forall2_trans; [|exact Hacc|exact Hb].
    intros r0 r1 r2 H01 H12. eapply grown_trans; eassumption.
  - apply Forall_Forall2_diag, Forall_forall. intros. constructor.
Qed.
End ReferencePassTrace.

(** *** The discipline of unloading *)

Lemma unload_protocol_app a t1 t2 :
  unload_protocol a (t1 ++ t2) =
  match unload_protocol a t1 with
  | Some a' => unload_protocol a' t2
  | None => None
  end.
Proof.
  revert a. induction t1 as [|e t1 IH]; intros a; simpl; [reflexivity|].
  destruct (unload_step a e); [apply IH|reflexivity].
Qed.

Lemma unload_protocol_calls key a t :
  a = None ∨ a = Some key →
  Forall (call_of key) t →
  unload_protocol a t = Some None ∨ unload_protocol a t = Some (Some key).
Proof.
  intros Ha Ht. revert a Ha. induction Ht as [|e t He Ht IH]; intros a Ha; simpl.
  - destruct Ha as [->| ->]; auto.
  - destruct e; simpl in *; try (apply IH; exact Ha); try contradiction.
    subst key0. destruct Ha as [->| ->].
    + apply IH. right. reflexivity.
    + rewrite String.eqb_refl. apply IH. right. reflexivity.
Qed.

Lemma unload_protocol_quiet a t : Forall quiet t → unload_protocol a t = Some a.
Proof.
  intros Ht. induction Ht as [|e t He Ht IH]; simpl; [reflexivity|].
  destruct e; simpl in *; try exact IH; contradiction.
Qed.

Section ReferencePassProtocol.
Variable W : Collaborators.
Variable cfg : ExperimentConfig.

Lemma reference_model_pass_protocol results x (d d' : list (string * Attack)) t results' :
  reference_model_pass W cfg results x d = (d', t, Ok results') →
  unload_protocol None t = Some None.
Proof.
  destruct x as [name m]. unfold reference_model_pass. intros Hbody.
  apply bind_ok_inv in Hbody. destruct Hbody as (s1 & t1 & ad & t2 & Hget & Hbody & ->).
  apply get_ok_inv in Hget. destruct Hget as (-> & -> & ->). simpl.
  destruct (dict_get (ref_key_of (member_format W) name) d) as [a|] eqn:Ha.
  - apply bind_ok_inv in Hbody. destruct Hbody as (s2 & t3 & res & t4 & Hloop & Hbody & ->).
    apply bind_ok_inv in Hbody. destruct Hbody as (s3 & t5 & [] & t6 & Hemit & Hbody & ->).
    apply emit_ok_inv in Hemit. destruct Hemit as (-> & ->).
    apply bind_ok_inv in Hbody. destruct Hbody as (s4 & t7 & [] & t8 & Hun & Hbody & ->).
    apply mret_ok_inv in Hbody. destruct Hbody as (-> & -> & ->).
    apply on_item_ok_inv in Hloop. destruct Hloop as (a0 & a1 & Ha0 & Hloop & ->).
    apply on_item_ok_inv in Hun. destruct Hun as (a2 & a3 & Ha2 & Hun & ->).
    assert (Hcalls : Forall (call_of (ref_key_of (member_format W) name)) t3).
    { pose proof (reference_loop_trace W cfg (ref_key_of (member_format W) name) results a0
                    (call_of (ref_key_of (member_format W) name))) as H.
      rewrite Hloop in H. apply H. intros r e _. apply reference_call_call_of. }
    assert (Hquiet : Forall quiet t7).
    { pose proof (unload_trace_events a2) as H. rewrite Hun in H.
      eapply Forall_impl; [exact H|]. intros e [->|[m' ->]]; exact I. }
    rewrite unload_protocol_app.
    destruct (unload_protocol_calls (ref_key_of (member_format W) name) None t3 (or_introl eq_refl) Hcalls)
      as [-> | ->]; simpl; rewrite ?String.eqb_refl;
      rewrite unload_protocol_app, (unload_protocol_quiet _ _ Hquiet); reflexivity.
  - apply mret_ok_inv in Hbody. destruct Hbody as (_ & -> & _). reflexivity.
Qed.

Lemma reference_pass_protocol ref_models results (d d' : list (string * Attack)) t results' :
  reference_pass W cfg ref_models results d = (d', t, Ok results') →
  unload_protocol None t = Some None.
Proof.
  unfold reference_pass. destruct ref_models as [rms|].
  - intros H. change t with ([] ++ t). revert H.
    apply for_fold_ok_trace with (J := λ t, unload_protocol None t = Some None);
      [|reflexivity].
    intros acc x s s' t' acc' t0 _ H0 Hb.
    rewrite unload_protocol_app, H0. eapply reference_model_pass_protocol. exact Hb.
  - intros H. apply bind_ok_inv in H. destruct H as (s1 & t1 & [] & t2 & Hemit & H & ->).
    apply emit_ok_inv in Hemit. destruct Hemit as (-> & ->).
    apply mret_ok_inv in H. destruct H as (_ & -> & _). reflexivity.
Qed.
End ReferencePassProtocol.

Lemma bind_trace {S A B} (m : M S A) (f : A → M S B) (s : S) :
  trace ((m ≫= f) s) =
  match m s with
  | (s1, t1, Ok a) => t1 ++ trace (f a s1)
  | (_, t1, Raise _) => t1
  end.
Proof.
  rewrite bind_run. destruct (m s) as [[s1 t1] [a|e]]; [|reflexivity].
  destruct (f a s1) as [[? ?] ?]. reflexivity.
Qed.

(** The trace of a run of [get_mia_scores] splits in two. In the first
    part, which holds every computation of token probabilities and of a
    target loss, no attacker whose key starts with ["ref"] is called, and
    every call passes token probabilities. In the second part nothing of
    that kind is computed: every call there is to an attacker under the key
    of a reference model, passes no probabilities ([probs] is [None]) and,
    as its loss and its text, the loss and the (detokenized) text the first
    pass stored for a substring of a document. When the run returns, an
    attacker that was called in the second part is unloaded before another
    one is called. With no reference models the second pass prints its
    message, calls nothing and raises nothing. *)
Lemma passes_of_a_run W target_model cfg data ref_models
    n_samples batch_size (d : list (string * Attack)) :
  let run := get_mia_scores W target_model cfg data ref_models n_samples batch_size d in
  let results := first_pass_results W target_model cfg data n_samples batch_size d in
  (∃ first second,
     trace run = first ++ second ∧
     Forall primary_event first ∧
     Forall (reference_event (member_format W) cfg results) second ∧
     (is_ok (outcome run) = true → unload_protocol None second = Some None)) ∧
  (∀ rs d1,
     reference_pass W cfg None rs d1
     = (d1, [EvPrint "No reference models specified, skipping Reference-based attacks"],
        Ok rs)).
Proof.
  simpl. split; [|reflexivity].
  unfold get_mia_scores, first_pass_results.
  rewrite bind_trace, bind_outcome. unfold emit at 1 2. cbv beta iota.
  rewrite bind_trace, bind_outcome.
  destruct (load_neighbors_run cfg data d) as (tn & rn & -> & Htn & Hnb).
  assert (Htn' : Forall primary_event tn).
  { eapply Forall_impl; [exact Htn|]. intros e ->. exact I. }
  destruct rn as [nb|e].
  2: { exists (EvFixSeed (random_seed cfg) :: tn), []. rewrite app_nil_r.
       split; [reflexivity|]. split; [constructor; [exact I|exact Htn']|].
       split; [constructor|discriminate]. }
  rewrite (Hnb nb eq_refl). rewrite bind_trace, bind_outcome.
  pose proof (primary_pass_trace W target_model cfg
                (loaded_neighbors cfg data (dict_keys d)) data
                (default (Z.of_nat (length (records data))) n_samples) batch_size d) as Hp.
  destruct (primary_pass W target_model cfg data (loaded_neighbors cfg data (dict_keys d))
              (default (Z.of_nat (length (records data))) n_samples) batch_size d)
    as [[d1 tp] [results|e]].
  2: { change (trace (d1, tp, Raise e)) with tp in Hp.
       exists (EvFixSeed (random_seed cfg) :: tn ++ tp), []. rewrite app_nil_r.
       split; [reflexivity|].
       split; [constructor; [exact I|apply Forall_app; split; assumption]|].
       split; [constructor|discriminate]. }
  change (outcome (d1, tp, Ok results)) with (Ok results). cbv beta iota.
  change (trace (d1, tp, Ok results)) with tp in Hp.
  rewrite bind_trace, bind_outcome.
  pose proof (reference_pass_trace W cfg ref_models results d1) as Hr.
  pose proof (reference_pass_protocol W cfg ref_models results d1) as Hu.
  destruct (reference_pass W cfg ref_models results d1) as [[d2 tr] [results2|e]].
  - exists (EvFixSeed (random_seed cfg) :: tn ++ tp), tr.
    split; [simpl; rewrite app_nil_r, <- app_assoc; reflexivity|].
    split; [constructor; [exact I|apply Forall_app; split; assumption]|].
    split; [exact Hr|]. intros _. eapply Hu. reflexivity.
  - exists (EvFixSeed (random_seed cfg) :: tn ++ tp), tr.
    split; [simpl; rewrite <- app_assoc; reflexivity|].
    split; [constructor; [exact I|apply Forall_app; split; assumption]|].
    split; [exact Hr|discriminate].
Qed.

(** The scenario of two reference models, with the keys rendered by value:
    the table has one list of scores per reference model, and the calls for
    the first model end with its unloading before the calls for the second
    begin. *)
Lemma reference_scenario :
  let run := get_mia_scores example_world "target" (example_config_ref false)
               example_data (Some example_ref_models) None 50
               (example_ref_attackers false) in
  outcome run
  = Ok ([("loss", [2; 2]%Q); ("ref-A", [3; 3]%Q); ("ref-B", [3; 3]%Q)],
        [VList [VStr "The cat sat."]; VList [VStr "The dog ran."]]) ∧
  attacker_events (trace run)
  = [EvAttack "ref-A" (VStr "The cat sat.") None (ref_kwargs 2);
     EvAttack "ref-A" (VStr "The dog ran.") None (ref_kwargs 2);
     EvAttackerUnload "ref-A";
     EvAttack "ref-B" (VStr "The cat sat.") None (ref_kwargs 2);
     EvAttack "ref-B" (VStr "The dog ran.") None (ref_kwargs 2);
     EvAttackerUnload "ref-B"] ∧
  map (λ x, is_loaded x.2) (final run) = [false; false; false].
Proof. repeat split; vm_compute; reflexivity. Qed.

(** With pretokenized input the second pass hands the decoded text to
    [attack()] but no [detokenized_sample], and an attacker that inherits
    [attack()] answers with the error of its guard. *)
Lemma reference_pass_pretokenized :
  outcome (get_mia_scores example_world "target" (example_config_ref true)
             example_data (Some example_ref_models) None 50
             (example_ref_attackers true))
  = Raise (ValueError "detokenized_sample must be provided").
Proof. vm_compute. reflexivity. Qed.

(** C8, on the code. Under an interpreter that renders the member of the
    enumeration by its name (CPython 3.11 and later) [get_attackers]
    registers the attacker of a reference model under
    ["AllAttacks.REFERENCE_BASED-<segment>"]. That key does not start with
    ["ref"], so the check of line 145 does not skip it: the first pass calls
    the attackers of the reference models for every substring, with the
    token probabilities of the target model, and the second pass calls them
    again, with none. The records then hold two scores per substring under
    the key of a reference model, where the comment of line 144 has the
    reference attack handled later. *)
Theorem reference_attackers_scored_twice :
  dict_keys example_named_attackers
  = ["loss"; "AllAttacks.REFERENCE_BASED-A"; "AllAttacks.REFERENCE_BASED-B"] ∧
  startswith "AllAttacks.REFERENCE_BASED-A" REFERENCE_BASED = false ∧
  attacker_events
    (trace (get_mia_scores example_named_world "target" (example_config_ref false)
              example_data (Some example_ref_models) None 50 example_named_attackers))
  = [EvAttack "AllAttacks.REFERENCE_BASED-A" (VStr "The cat sat.") (Some [])
       {| kw_detokenized_sample := None; kw_loss := Some 2%Q;
          kw_batch_size := None; kw_substr_neighbors := None |};
     EvAttack "AllAttacks.REFERENCE_BASED-B" (VStr "The cat sat.") (Some [])
       {| kw_detokenized_sample := None; kw_loss := Some 2%Q;
          kw_batch_size := None; kw_substr_neighbors := None |};
     EvAttack "AllAttacks.REFERENCE_BASED-A" (VStr "The dog ran.") (Some [])
       {| kw_detokenized_sample := None; kw_loss := Some 2%Q;
          kw_batch_size := None; kw_substr_neighbors := None |};
     EvAttack "AllAttacks.REFERENCE_BASED-B" (VStr "The dog ran.") (Some [])
       {| kw_detokenized_sample := None; kw_loss := Some 2%Q;
          kw_batch_size := None; kw_substr_neighbors := None |};
     EvAttack "AllAttacks.REFERENCE_BASED-A" (VStr "The cat sat.") None (ref_kwargs 2);
     EvAttack "AllAttacks.REFERENCE_BASED-A" (VStr "The dog ran.") None (ref_kwargs 2);
     EvAttackerUnload "AllAttacks.REFERENCE_BASED-A";
     EvAttack "AllAttacks.REFERENCE_BASED-B" (VStr "The cat sat.") None (ref_kwargs 2);
     EvAttack "AllAttacks.REFERENCE_BASED-B" (VStr "The dog ran.") None (ref_kwargs 2);
     EvAttackerUnload "AllAttacks.REFERENCE_BASED-B"] ∧
  outcome (scored_records example_named_world "target" (example_config_ref false)
             example_data (Some example_ref_models) None 50 example_named_attackers)
  = Ok [[("sample", Raw (VList [VStr "The cat sat."]));
         ("loss", Scores [2%Q]);
         ("AllAttacks.REFERENCE_BASED-A", Scores [3; 3]%Q);
         ("AllAttacks.REFERENCE_BASED-B", Scores [3; 3]%Q)];
        [("sample", Raw (VList [VStr "The dog ran."]));
         ("loss", Scores [2%Q]);
         ("AllAttacks.REFERENCE_BASED-A", Scores [3; 3]%Q);
         ("AllAttacks.REFERENCE_BASED-B", Scores [3; 3]%Q)]].
Proof. repeat split; vm_compute; reflexivity. Qed.

(** The check of line 145 on the key of a reference model, for any
    attacker: rendered by value the key is skipped, rendered by name it is
    not, and the attacker is called with the token probabilities. *)
Lemma reference_key_skip W cfg nb doc_index i substr probs detok loss name si
    (self : Attack) :
  run_attack W cfg nb doc_index i substr probs detok loss (ref_key_of ByValue name) si self
  = (self, [], Ok si) ∧
  ∃ t, trace (run_attack W cfg nb doc_index i substr probs detok loss
                (ref_key_of ByName name) si self)
       = EvAttack (ref_key_of ByName name) substr (Some probs)
           {| kw_detokenized_sample := detok; kw_loss := Some loss;
              kw_batch_size := None; kw_substr_neighbors := None |} :: t.
Proof.
  split.
  - unfold run_attack. rewrite (startswith_ref_key ByValue name). reflexivity.
  - unfold run_attack. rewrite (startswith_ref_key ByName name).
    change (String.eqb (ref_key_of ByName name) LOSS) with false.
    change (String.eqb (ref_key_of ByName name) NEIGHBOR) with false.
    cbn [orb negb]. rewrite bind_trace. unfold emit at 1. cbv beta iota.
    eexists. reflexivity.
Qed.

(** * Further properties *)

(** ** The life cycle, composed *)

Lemma set_is_loaded_idem b b' (self : Attack) :
  set_is_loaded b (set_is_loaded b' self) = set_is_loaded b self.
Proof. reflexivity. Qed.

Lemma owned_models_set_is_loaded b (self : Attack) :
  owned_models (set_is_loaded b self) = owned_models self ∧
  owns_models (set_is_loaded b self) = owns_models self.
Proof. split; reflexivity. Qed.

(** X1. [unload()] after [load()] releases the models [load()] has
    acquired, in the same order (the reference model first, then the
    perturbation models), and leaves an attacker that owns a model unloaded;
    an attacker that owns none keeps its flag. *)
Theorem load_then_unload (self : Attack) :
  (load;; unload) self
  = (if owns_models self then set_is_loaded false self else self,
     (EvLoad :: map EvModelLoad (owned_models self))
     ++ EvUnload :: map EvModelUnload (owned_models self),
     Ok tt).
Proof.
  rewrite bind_run, load_run, unload_run.
  destruct (owns_models self) eqn:Howns.
  - destruct (owned_models_set_is_loaded true self) as [-> ->].
    rewrite Howns. reflexivity.
  - rewrite Howns. reflexivity.
Qed.

Lemma guarded_attack_no_loading W document probs kw (self : Attack) :
  forallb (λ e, negb (is_loading e)) (trace (guarded_attack W document probs kw self)) = true.
Proof.
  unfold guarded_attack.
  destruct (pretokenized (config self)), (kw_detokenized_sample kw);
    try reflexivity; rewrite _attack_run; destruct (cls self); try reflexivity;
    rewrite PerturbationAttack_attack_run; unfold trace; simpl;
    rewrite forallb_app; apply andb_true_intro; split;
    try (destruct (kw_loss kw); reflexivity);
    destruct (perturb_models self) as [ms|]; try reflexivity;
    induction ms; simpl; auto.
Qed.

(** X2. Of two [attack()] calls in a row the second loads nothing, whether
    the first returned or raised; two direct [load()] calls load every owned
    model twice, since [load()] itself does not look at the flag. *)
Theorem attack_twice_loads_once W (self : Attack)
    document1 probs1 kw1 document2 probs2 kw2 :
  forallb (λ e, negb (is_loading e))
    (trace (attack W document2 probs2 kw2
              (final (attack W document1 probs1 kw1 self)))) = true ∧
  trace ((load;; load) self) = trace (load self) ++ trace (load self).
Proof.
  split.
  - rewrite attack_final, attack_run. simpl is_loaded. cbv iota.
    apply guarded_attack_no_loading.
  - rewrite bind_run, !load_run.
    destruct (owns_models self);
      rewrite ?(proj1 (owned_models_set_is_loaded true self)); reflexivity.
Qed.

(** X3. [unload()] re-arms the lazy load only for an attacker that owns a
    model: after [attack()] and [unload()], the next [attack()] loads the
    owned models again when there are any, and loads nothing when there are
    none (the flag of such an attacker stays set). *)
Theorem unload_rearms_owning_attackers W (self : Attack)
    document1 probs1 kw1 document2 probs2 kw2 :
  let unloaded := final (unload (final (attack W document1 probs1 kw1 self))) in
  let run := attack W document2 probs2 kw2 unloaded in
  if owns_models self
  then ∃ rest,
      trace run = (EvLoad :: map EvModelLoad (owned_models self)) ++ rest ∧
      forallb (λ e, negb (is_loading e)) rest = true
  else forallb (λ e, negb (is_loading e)) (trace run) = true.
Proof.
  simpl. rewrite attack_final, unload_run.
  destruct (owned_models_set_is_loaded true self) as [Hm Ho].
  rewrite Ho. destruct (owns_models self) eqn:Howns; unfold final; simpl fst.
  - rewrite attack_run. simpl is_loaded. cbv iota.
    pose proof (guarded_attack_no_loading W document2 probs2 kw2
                  (set_is_loaded true (set_is_loaded false (set_is_loaded true self)))) as H.
    destruct (guarded_attack W document2 probs2 kw2
                (set_is_loaded true (set_is_loaded false (set_is_loaded true self))))
      as [[s t] r].
    exists t. split; [reflexivity|exact H].
  - rewrite attack_run. simpl is_loaded. cbv iota. apply guarded_attack_no_loading.
Qed.

(** X4. An attacker of the base class never returns a score: [attack()]
    raises the error of the guard, or [NotImplementedError] from the scoring
    function. It loads its models all the same and is left marked loaded. *)
Theorem base_attack_not_implemented W (self : Attack) document probs kw :
  cls self = ClsAttack →
  let run := attack W document probs kw self in
  outcome run =
    match dispatched self document kw with
    | None => Raise (ValueError "detokenized_sample must be provided")
    | Some _ => Raise (NotImplementedError "Attack must implement attack()")
    end ∧
  is_loaded (final run) = true ∧
  (is_loaded self = false →
   ∃ rest, trace run = (EvLoad :: map EvModelLoad (owned_models self)) ++ rest).
Proof.
  intros Hcls. simpl. split; [|split].
  - rewrite attack_run. unfold dispatched.
    assert (Hg : ∀ s, cls s = ClsAttack → config s = config self →
               outcome (guarded_attack W document probs kw s) =
               match pretokenized (config self), kw_detokenized_sample kw with
               | true, None => Raise (ValueError "detokenized_sample must be provided")
               | _, _ => Raise (NotImplementedError "Attack must implement attack()")
               end).
    { intros s Hs Hc. unfold guarded_attack. rewrite Hc.
      destruct (pretokenized (config self)), (kw_detokenized_sample kw);
        try reflexivity; rewrite _attack_run, Hs; reflexivity. }
    destruct (is_loaded self).
    + rewrite (Hg self Hcls eq_refl).
      destruct (pretokenized (config self)), (kw_detokenized_sample kw); reflexivity.
    + specialize (Hg (set_is_loaded true self) Hcls eq_refl).
      destruct (guarded_attack W document probs kw (set_is_loaded true self)) as [[s t] r].
      unfold outcome in *. simpl in *. rewrite Hg.
      destruct (pretokenized (config self)), (kw_detokenized_sample kw); reflexivity.
  - rewrite attack_final. reflexivity.
  - intros Hl. rewrite attack_run, Hl.
    destruct (guarded_attack W document probs kw (set_is_loaded true self)) as [[s t] r].
    exists t. reflexivity.
Qed.

Lemma base_attack_not_implemented_witness :
  outcome (attack example_world (VStr "The cat sat.") None no_kwargs example_base_attacker)
  = Raise (NotImplementedError "Attack must implement attack()").
Proof.
  exact (proj1 (base_attack_not_implemented example_world example_base_attacker
                  (VStr "The cat sat.") None no_kwargs eq_refl)).
Defined.

(** ** The perturbation attack through [attack()] *)

Lemma filter_perturb_loads (ms : list Model) :
  List.filter is_perturb_ll (map EvModelLoad ms) = [].
Proof. induction ms; simpl; auto. Qed.

Lemma filter_perturb_calls text tokens (ms : list Model) :
  List.filter is_perturb_ll (map (λ m, EvPerturbLL m text tokens) ms)
  = map (λ m, EvPerturbLL m text tokens) ms.
Proof. induction ms; simpl; congruence. Qed.

Lemma guarded_perturbation_run W (self : Attack) document probs kw ms text tokens :
  cls self = ClsPerturbationAttack →
  perturb_models self = Some ms →
  ms ≠ [] →
  dispatched self document kw = Some (text, tokens) →
  guarded_attack W document probs kw self
  = (self,
     EvScore text probs tokens kw ::
     match kw_loss kw with
     | Some _ => []
     | None => [EvTargetLL (target_model self) text probs tokens]
     end ++ map (λ m, EvPerturbLL m text tokens) ms,
     Ok (target_loss W self text probs tokens kw
         - perturb_total W text tokens ms 0 / inject_Z (Z.of_nat (length ms)))%Q).
Proof.
  intros Hcls Hms Hne Hd. unfold guarded_attack, dispatched in *.
  assert (Hlen : Nat.eqb (length ms) 0 = false) by (destruct ms; [congruence|reflexivity]).
  destruct (pretokenized (config self)), (kw_detokenized_sample kw) as [d|];
    try discriminate; injection Hd as <- <-;
    rewrite _attack_run, Hcls, PerturbationAttack_attack_run, Hms, Hlen; reflexivity.
Qed.

(** X5. Through [attack()], a perturbation attacker with at least one model
    scores the text the guard lets through (the document, or the detokenized
    sample with the document as its tokens): the score is the target loss
    minus the mean of the perturbation losses on that text, and every
    perturbation model is asked exactly once, in order, without
    probabilities. *)
Theorem perturbation_attack_dispatch W (self : Attack) document probs kw ms text tokens :
  cls self = ClsPerturbationAttack →
  perturb_models self = Some ms →
  ms ≠ [] →
  dispatched self document kw = Some (text, tokens) →
  let run := attack W document probs kw self in
  ∃ score,
    outcome run = Ok score ∧
    (score == target_loss W self text probs tokens kw
              - mean (map (λ m, get_ll W m text None tokens) ms))%Q ∧
    List.filter is_perturb_ll (trace run) = map (λ m, EvPerturbLL m text tokens) ms.
Proof.
  intros Hcls Hms Hne Hd. simpl. rewrite attack_run.
  assert (Hq : (target_loss W self text probs tokens kw
                - perturb_total W text tokens ms 0 / inject_Z (Z.of_nat (length ms))
                == target_loss W self text probs tokens kw
                   - mean (map (λ m, get_ll W m text None tokens) ms))%Q).
  { unfold mean. rewrite length_map, perturb_total_sum.
    pose proof (inject_length_nonzero ms Hne). field. assumption. }
  assert (Hf : List.filter is_perturb_ll
                 (EvScore text probs tokens kw ::
                  match kw_loss kw with
                  | Some _ => []
                  | None => [EvTargetLL (target_model self) text probs tokens]
                  end ++ map (λ m, EvPerturbLL m text tokens) ms)
               = map (λ m, EvPerturbLL m text tokens) ms).
  { simpl. rewrite List.filter_app, filter_perturb_calls.
    destruct (kw_loss kw); reflexivity. }
  destruct (is_loaded self).
  - rewrite (guarded_perturbation_run W self document probs kw ms text tokens) by assumption.
    eexists. split; [reflexivity|]. split; [exact Hq|exact Hf].
  - rewrite (guarded_perturbation_run W (set_is_loaded true self) document probs kw
               ms text tokens) by assumption.
    eexists. split; [reflexivity|]. split; [exact Hq|].
    unfold trace. simpl fst. simpl snd.
    cbn [List.filter is_perturb_ll app].
    rewrite List.filter_app, filter_perturb_loads. exact Hf.
Qed.

Lemma perturbation_attack_dispatch_witness :
  ∃ score,
    outcome (attack example_world (VList [VInt 7; VInt 9]) (Some [])
               {| kw_detokenized_sample := Some (VStr "The cat sat.");
                  kw_loss := None; kw_batch_size := None;
                  kw_substr_neighbors := None |}
               example_pretokenized_perturbation) = Ok score ∧
    (score == -1)%Q.
Proof.
  destruct (perturbation_attack_dispatch example_world example_pretokenized_perturbation
              (VList [VInt 7; VInt 9]) (Some [])
              {| kw_detokenized_sample := Some (VStr "The cat sat.");
                 kw_loss := None; kw_batch_size := None;
                 kw_substr_neighbors := None |}
              ["small"; "tiny"] (VStr "The cat sat.") (Some (VList [VInt 7; VInt 9]))
              eq_refl eq_refl ltac:(discriminate) eq_refl)
    as (score & Hrun & Hscore & _).
  exists score. split; [exact Hrun|]. rewrite Hscore. reflexivity.
Defined.

(** ** What [get_attackers] registers *)

Lemma elem_of_dict_keys_set {V} k k' (v : V) d :
  k' ∈ dict_keys (dict_set k v d) ↔ k' = k ∨ k' ∈ dict_keys d.
Proof.
  rewrite dict_keys_set. destruct (dict_get k d) eqn:E.
  - split; [auto|]. intros [->|H]; [|exact H].
    destruct (decide (k ∈ dict_keys d)) as [Hin|Hni]; [exact Hin|].
    apply dict_get_None_keys in Hni. congruence.
  - rewrite elem_of_app, list_elem_of_singleton. tauto.
Qed.

Lemma for_fold_ok_rel_in {S A B} (P : A → Prop) (I : list A → S → B → Prop)
    (body : B → A → M S B) :
  (∀ done acc x s s' t acc',
     P x → I done s acc → body acc x s = (s', t, Ok acc') → I (done ++ [x]) s' acc') →
  ∀ xs done acc s s' t b,
    Forall P xs → I done s acc → for_fold body acc xs s = (s', t, Ok b) →
    I (done ++ xs) s' b.
Proof.
  intros Hbody. induction xs as [|x xs IH]; intros done acc s s' t b HP Hacc H.
  - simpl in H. injection H as <- _ <-. rewrite app_nil_r. exact Hacc.
  - simpl in H. apply bind_ok_inv in H.
    destruct H as (s1 & t1 & acc1 & t2 & Hx & Hrest & _).
    apply Forall_cons in HP. destruct HP as [Hx' HP].
    replace (done ++ x :: xs) with ((done ++ [x]) ++ xs) by (rewrite <- app_assoc; reflexivity).
    eapply IH; [exact HP| |exact Hrest]. eapply Hbody; eassumption.
Qed.

Lemma dict_set_Forall {V} (P : string → V → Prop) k v (d : list (string * V)) :
  Forall (λ kv, P kv.1 kv.2) d → P k v → Forall (λ kv, P kv.1 kv.2) (dict_set k v d).
Proof.
  intros Hd Hv. induction Hd as [|[k' v'] d Hk Hd IH]; simpl.
  - repeat constructor. exact Hv.
  - destruct (String.eqb k k') eqn:E.
    + apply String.eqb_eq in E. subst k'. constructor; assumption.
    + constructor; assumption.
Qed.

Lemma for_fold_app {S A B} (body : B → A → M S B) acc (xs ys : list A) (s : S) :
  for_fold body acc (xs ++ ys) s =
  match for_fold body acc xs s with
  | (s1, t1, Ok acc1) =>
      match for_fold body acc1 ys s1 with (s2, t2, r) => (s2, t1 ++ t2, r) end
  | (s1, t1, Raise e) => (s1, t1, Raise e)
  end.
Proof.
  revert acc s. induction xs as [|x xs IH]; intros acc s.
  - simpl. destruct (for_fold body acc ys s) as [[? ?] ?]. reflexivity.
  - simpl app. rewrite !for_fold_cons.
    destruct (body acc x s) as [[s1 t1] [acc1|e]]; [|reflexivity].
    rewrite IH. destruct (for_fold body acc1 xs s1) as [[s2 t2] [acc2|e]]; [|reflexivity].
    destruct (for_fold body acc2 ys s2) as [[s3 t3] r].
    rewrite app_assoc. reflexivity.
Qed.

Lemma runnable_attacks_ok attacks (s s' : unit) t attacks' :
  runnable_attacks attacks s = (s', t, Ok attacks') → attacks' = attacks.
Proof.
  intros H. destruct s. pose proof (runnable_attacks_run attacks []) as Hrun.
  unfold runnable_attacks in H. rewrite H in Hrun. unfold outcome in Hrun. simpl in Hrun.
  congruence.
Qed.

Section GetAttackersFacts.
Variable get_attacker : string → result attack_ctor.
Variable fmt : enum_format.
Variable cfg : ExperimentConfig.
Variable tm : Model.
Variable ref_models : option (list (string * Model)).

(** The first loop: one attacker per configured identifier but ["ref"],
    the one its class returns for the configuration and the target model. *)
Lemma plain_attackers_registered (s s' : unit) t d :
  for_fold (λ attackers attack,
              if negb (String.eqb attack (BlackBoxAttacks.value BlackBoxAttacks.REFERENCE_BASED))
              then
                cls ← lift_result (get_attacker attack);
                attacker ← lift_result (cls cfg tm None);
                mret (dict_set attack attacker attackers)
              else mret attackers)
           [] (blackbox_attacks cfg) s = (s', t, Ok d) →
  NoDup (dict_keys d) ∧
  (∀ k, k ∈ dict_keys d ↔ k ∈ blackbox_attacks cfg ∧ k ≠ REFERENCE_BASED) ∧
  Forall (λ kv, registered get_attacker fmt cfg tm ref_models kv.1 kv.2) d.
Proof.
  set (I := λ (done : list string) (_ : unit) (acc : list (string * Attack)),
              NoDup (dict_keys acc) ∧
              (∀ k, k ∈ dict_keys acc ↔ k ∈ done ∧ k ≠ REFERENCE_BASED) ∧
              Forall (λ kv, registered get_attacker fmt cfg tm ref_models kv.1 kv.2) acc).
  intros H. change (I ([] ++ blackbox_attacks cfg) s' d).
  eapply (for_fold_ok_rel_in (λ x, x ∈ blackbox_attacks cfg) I);
    [|apply Forall_forall; auto| |exact H]; unfold I.
  - intros done acc x s0 s1 t0 acc' Hx (Hnd & Hkeys & Hall) Hb.
    destruct (String.eqb x (BlackBoxAttacks.value BlackBoxAttacks.REFERENCE_BASED)) eqn:E;
      simpl in Hb.
    + apply mret_ok_inv in Hb. destruct Hb as (_ & _ & ->).
      apply String.eqb_eq in E. split; [exact Hnd|]. split; [|exact Hall].
      intros k. rewrite Hkeys, elem_of_app, list_elem_of_singleton.
      unfold REFERENCE_BASED. split; [tauto|]. intros [[?|?] ?]; [tauto|congruence].
    + apply String.eqb_neq in E.
      apply bind_ok_inv in Hb. destruct Hb as (? & ? & c & ? & Hc & Hb & _).
      apply lift_result_ok_inv in Hc. destruct Hc as (Hc & _ & _).
      apply bind_ok_inv in Hb. destruct Hb as (? & ? & a & ? & Ha & Hb & _).
      apply lift_result_ok_inv in Ha. destruct Ha as (Ha & _ & _).
      apply mret_ok_inv in Hb. destruct Hb as (_ & _ & ->).
      split; [apply dict_set_NoDup; exact Hnd|]. split.
      * intros k. rewrite elem_of_dict_keys_set, Hkeys, elem_of_app, list_elem_of_singleton.
        unfold REFERENCE_BASED. split; [|tauto]. intros [->|?]; [|tauto]. tauto.
      * apply (dict_set_Forall (registered get_attacker fmt cfg tm ref_models));
          [exact Hall|].
        left. split; [exact Hx|]. split; [exact E|]. exists c. auto.
  - split; [constructor|]. split; [|constructor].
    intros k. split; [intros Hk; apply elem_of_nil in Hk; contradiction|].
    intros [Hk _]. apply elem_of_nil in Hk. contradiction.
Qed.

(** The second loop: one attacker per reference model, under its key, the
    one the class registered for ["ref"] returns for the model. *)
Lemma reference_attackers_registered rms d0 (s s' : unit) t d :
  ref_models = Some rms →
  NoDup (dict_keys d0) →
  (∀ k, k ∈ dict_keys d0 ↔ k ∈ blackbox_attacks cfg ∧ k ≠ REFERENCE_BASED) →
  Forall (λ kv, registered get_attacker fmt cfg tm ref_models kv.1 kv.2) d0 →
  for_fold (λ attackers '(name, ref_model),
              cls ← lift_result (get_attacker (BlackBoxAttacks.value BlackBoxAttacks.REFERENCE_BASED));
              attacker ← lift_result (cls cfg tm (Some ref_model));
              mret (dict_set (ref_key_of fmt name) attacker attackers))
           d0 rms s = (s', t, Ok d) →
  NoDup (dict_keys d) ∧
  (∀ k, k ∈ dict_keys d ↔
        (k ∈ blackbox_attacks cfg ∧ k ≠ REFERENCE_BASED) ∨
        (∃ name m, (name, m) ∈ rms ∧ k = ref_key_of fmt name)) ∧
  Forall (λ kv, registered get_attacker fmt cfg tm ref_models kv.1 kv.2) d.
Proof.
  intros Hrms Hnd0 Hkeys0 Hall0.
  set (I := λ (done : list (string * Model)) (_ : unit) (acc : list (string * Attack)),
              NoDup (dict_keys acc) ∧
              (∀ k, k ∈ dict_keys acc ↔
                    (k ∈ blackbox_attacks cfg ∧ k ≠ REFERENCE_BASED) ∨
                    (∃ name m, (name, m) ∈ done ∧ k = ref_key_of fmt name)) ∧
              Forall (λ kv, registered get_attacker fmt cfg tm ref_models kv.1 kv.2) acc).
  intros H. change (I ([] ++ rms) s' d).
  eapply (for_fold_ok_rel_in (λ x, x ∈ rms) I);
    [|apply Forall_forall; auto| |exact H]; unfold I.
  - intros done acc [name m] s0 s1 t0 acc' Hx (Hnd & Hkeys & Hall) Hb.
    apply bind_ok_inv in Hb. destruct Hb as (? & ? & c & ? & Hc & Hb & _).
    apply lift_result_ok_inv in Hc. destruct Hc as (Hc & _ & _).
    apply bind_ok_inv in Hb. destruct Hb as (? & ? & a & ? & Ha & Hb & _).
    apply lift_result_ok_inv in Ha. destruct Ha as (Ha & _ & _).
    apply mret_ok_inv in Hb. destruct Hb as (_ & _ & ->).
    split; [apply dict_set_NoDup; exact Hnd|]. split.
    + intros k. rewrite elem_of_dict_keys_set, Hkeys. split.
      * intros [->|[?|(n' & m' & Hin & ->)]]; [right|tauto|right].
        -- exists name, m. split; [|reflexivity].
           apply elem_of_app. right. apply list_elem_of_singleton. reflexivity.
        -- exists n', m'. split; [|reflexivity]. apply elem_of_app. left. exact Hin.
      * intros [?|(n' & m' & Hin & ->)]; [tauto|].
        apply elem_of_app in Hin. destruct Hin as [Hin|Hin].
        -- right. right. exists n', m'. auto.
        -- apply list_elem_of_singleton in Hin. injection Hin as -> ->. left. reflexivity.
    + apply (dict_set_Forall (registered get_attacker fmt cfg tm ref_models)); [exact Hall|].
      right. exists name, m, c. rewrite Hrms. simpl. auto.
  - split; [exact Hnd0|]. split; [|exact Hall0].
    intros k. rewrite Hkeys0. split; [tauto|].
    intros [?|(n' & m' & Hin & _)]; [tauto|]. apply elem_of_nil in Hin. contradiction.
Qed.
End GetAttackersFacts.

(** X6. When [get_attackers] returns, the keys of the dictionary are
    distinct and are exactly the configured identifiers other than ["ref"]
    together with the keys of the reference models, as the interpreter
    renders them; the bare ["ref"] is no key. The attacker under a key is
    what the class of the registry returned: for a configured identifier the
    class of that identifier, called with the configuration and the target
    model, and for a reference model the class of ["ref"], called with the
    reference model as well. *)
Theorem get_attackers_registers get_attacker fmt tm ref_models cfg d :
  outcome (get_attackers get_attacker fmt tm ref_models cfg tt) = Ok d →
  NoDup (dict_keys d) ∧
  (∀ k, k ∈ dict_keys d ↔
        (k ∈ blackbox_attacks cfg ∧ k ≠ REFERENCE_BASED) ∨
        (∃ name m, (name, m) ∈ default [] ref_models ∧ k = ref_key_of fmt name)) ∧
  (REFERENCE_BASED ∉ dict_keys d) ∧
  Forall (λ kv, registered get_attacker fmt cfg tm ref_models kv.1 kv.2) d.
Proof.
  intros H. apply outcome_ok_inv in H. destruct H as (s & t & H).
  unfold get_attackers in H.
  apply bind_ok_inv in H. destruct H as (s1 & t1 & attacks & t2 & Hrun & H & _).
  apply runnable_attacks_ok in Hrun. subst attacks.
  apply bind_ok_inv in H. destruct H as (s2 & t3 & d0 & t4 & Hplain & H & _).
  apply (plain_attackers_registered get_attacker fmt cfg tm ref_models) in Hplain.
  destruct Hplain as (Hnd0 & Hkeys0 & Hall0).
  assert (Hkeys : NoDup (dict_keys d) ∧
                  (∀ k, k ∈ dict_keys d ↔
                        (k ∈ blackbox_attacks cfg ∧ k ≠ REFERENCE_BASED) ∨
                        (∃ name m, (name, m) ∈ default [] ref_models ∧
                                   k = ref_key_of fmt name)) ∧
                  Forall (λ kv, registered get_attacker fmt cfg tm ref_models kv.1 kv.2) d).
  { destruct ref_models as [rms|].
    - eapply reference_attackers_registered; [reflexivity|eassumption..].
    - apply mret_ok_inv in H. destruct H as (_ & _ & ->).
      split; [exact Hnd0|]. split; [|exact Hall0].
      intros k. rewrite Hkeys0. split; [tauto|].
      intros [?|(n' & m' & Hin & _)]; [tauto|]. apply elem_of_nil in Hin. contradiction. }
  destruct Hkeys as (Hnd & Hkeys & Hall).
  split; [exact Hnd|]. split; [exact Hkeys|]. split; [|exact Hall].
  intros Hin. apply Hkeys in Hin. destruct Hin as [[_ Hne]|(n' & m' & _ & Heq)].
  - congruence.
  - destruct fmt; discriminate Heq.
Qed.

Lemma get_attackers_registers_witness :
  dict_keys (example_ref_attackers false) = ["loss"; "ref-A"; "ref-B"] ∧
  NoDup (dict_keys (example_ref_attackers false)) ∧
  dict_keys example_named_attackers
  = ["loss"; "AllAttacks.REFERENCE_BASED-A"; "AllAttacks.REFERENCE_BASED-B"] ∧
  NoDup (dict_keys example_named_attackers).
Proof.
  split; [reflexivity|]. split; [|split; [reflexivity|]].
  - exact (proj1 (get_attackers_registers lenient_registry ByValue "target"
                    (Some example_ref_models) (example_config_ref false)
                    (example_ref_attackers false) eq_refl)).
  - exact (proj1 (get_attackers_registers lenient_registry ByName "target"
                    (Some example_ref_models) (example_config_ref false)
                    example_named_attackers eq_refl)).
Defined.

(** X7. Reference models are registered under the last segment of their
    names, so names that end alike share one key: the attacker found under
    the key of a reference model is the one the class of ["ref"] returned
    for the last model of the list with that key, and an earlier model of
    that key has no attacker of its own. *)
Theorem last_reference_model_wins get_attacker fmt tm cfg rms1 name m rms2 d :
  outcome (get_attackers get_attacker fmt tm (Some (rms1 ++ (name, m) :: rms2)) cfg tt)
  = Ok d →
  Forall (λ x, ref_key_of fmt x.1 ≠ ref_key_of fmt name) rms2 →
  ∃ cls a, get_attacker REFERENCE_BASED = Ok cls ∧
           cls cfg tm (Some m) = Ok a ∧
           dict_get (ref_key_of fmt name) d = Some a.
Proof.
  intros H Hlater. apply outcome_ok_inv in H. destruct H as (s & t & H).
  unfold get_attackers in H.
  apply bind_ok_inv in H. destruct H as (s1 & t1 & attacks & t2 & _ & H & _).
  apply bind_ok_inv in H. destruct H as (s2 & t3 & d0 & t4 & _ & H & _).
  rewrite for_fold_app in H.
  match type of H with
  | context [for_fold ?body d0 rms1 s2] =>
      destruct (for_fold body d0 rms1 s2) as [[sa ta] [acc1|e]]; [|discriminate];
      set (step := body) in *
  end.
  rewrite for_fold_cons in H.
  destruct (step acc1 (name, m) sa) as [[sb tb] [acc2|e]] eqn:Hb; [|discriminate].
  destruct (for_fold step acc2 rms2 sb) as [[sc tc] r] eqn:Hrest.
  injection H as _ _ ->.
  unfold step in Hb.
  apply bind_ok_inv in Hb. destruct Hb as (? & ? & c & ? & Hc & Hb & _).
  apply lift_result_ok_inv in Hc. destruct Hc as (Hc & _ & _).
  apply bind_ok_inv in Hb. destruct Hb as (? & ? & a & ? & Ha & Hb & _).
  apply lift_result_ok_inv in Ha. destruct Ha as (Ha & _ & _).
  apply mret_ok_inv in Hb. destruct Hb as (_ & _ & ->).
  exists c, a. split; [exact Hc|]. split; [exact Ha|].
  revert Hrest.
  apply for_fold_ok_inv
    with (I := λ (_ : unit) acc, dict_get (ref_key_of fmt name) acc = Some a);
    [|apply dict_get_set_eq].
  intros acc [n' m'] s0 s3 t0 acc' Hin Hacc Hb'. unfold step in Hb'.
  apply bind_ok_inv in Hb'. destruct Hb' as (? & ? & c' & ? & _ & Hb' & _).
  apply bind_ok_inv in Hb'. destruct Hb' as (? & ? & a' & ? & _ & Hb' & _).
  apply mret_ok_inv in Hb'. destruct Hb' as (_ & _ & ->).
  rewrite dict_get_set_ne; [exact Hacc|].
  apply (proj1 (Forall_forall _ _) Hlater (n', m') Hin).
Qed.

Lemma last_reference_model_wins_witness :
  ∃ a, dict_get "ref-pythia"
         (match outcome (get_attackers lenient_registry ByValue "target"
                           (Some example_colliding_models) (example_config_ref false) tt) with
          | Ok d => d
          | Raise _ => []
          end) = Some a ∧
       ref_model a = Some "other/pythia".
Proof.
  destruct (last_reference_model_wins lenient_registry ByValue "target"
              (example_config_ref false)
              [("org/pythia", "org/pythia")] "other/pythia" "other/pythia" []
              (match outcome (get_attackers lenient_registry ByValue "target"
                                (Some example_colliding_models) (example_config_ref false) tt) with
               | Ok d => d
               | Raise _ => []
               end) eq_refl ltac:(constructor))
    as (cls & a & Hcls & Ha & Hget).
  exists a. split; [exact Hget|].
  injection Hcls as <-. injection Ha as <-. reflexivity.
Defined.

(** ** The quotient of the batch count *)

Lemma round_half_even_le a b N :
  (0 < b)%Z → (a ≤ N * b)%Z → (round_half_even a b ≤ N)%Z.
Proof.
  intros Hb Ha. unfold round_half_even.
  pose proof (Z.div_mod a b ltac:(lia)) as Hdm.
  pose proof (Z.mod_pos_bound a b Hb) as Hr.
  assert (Hq : (a / b ≤ N)%Z) by (apply Z.div_le_upper_bound; lia).
  assert (Hq1 : (0 < a mod b → a / b + 1 ≤ N)%Z) by nia.
  destruct (2 * (a mod b) <? b)%Z eqn:E1; [exact Hq|].
  apply Z.ltb_ge in E1.
  destruct (b <? 2 * (a mod b))%Z; [apply Hq1; lia|].
  destruct (Z.even (a / b)); [exact Hq|apply Hq1; lia].
Qed.

Lemma round_half_even_ge a b N :
  (0 < b)%Z → (N * b ≤ a)%Z → (N ≤ round_half_even a b)%Z.
Proof.
  intros Hb Ha. unfold round_half_even.
  assert (Hq : (N ≤ a / b)%Z) by (apply Z.div_le_lower_bound; lia).
  destruct (2 * (a mod b) <? b)%Z; [exact Hq|].
  destruct (b <? 2 * (a mod b))%Z; [lia|].
  destruct (Z.even (a / b)); lia.
Qed.

Lemma round_half_even_gt a b N :
  (0 < b)%Z → (b < 2 * (a - N * b))%Z → (N < round_half_even a b)%Z.
Proof.
  intros Hb Ha. unfold round_half_even.
  pose proof (Z.div_mod a b ltac:(lia)) as Hdm.
  pose proof (Z.mod_pos_bound a b Hb) as Hr.
  assert (Hq : (N ≤ a / b)%Z) by (apply Z.div_le_lower_bound; lia).
  destruct (2 * (a mod b) <? b)%Z eqn:E1.
  - apply Z.ltb_lt in E1.
    destruct (Z.eq_dec N (a / b)%Z) as [->|Hne]; [exfalso; lia|lia].
  - destruct (b <? 2 * (a mod b))%Z eqn:E2; [lia|].
    destruct (Z.even (a / b)); [|lia].
    apply Z.ltb_ge in E1, E2.
    destruct (Z.eq_dec N (a / b)%Z) as [->|Hne]; [exfalso; lia|lia].
Qed.

Lemma round_half_even_exact b k :
  (0 < b)%Z → round_half_even (k * b) b = k.
Proof.
  intros Hb. unfold round_half_even.
  rewrite Z.div_mul, Z.mod_mul by lia.
  destruct (2 * 0 <? b)%Z eqn:E; [reflexivity|]. apply Z.ltb_ge in E. lia.
Qed.

Lemma quotient_exponent_spec a b :
  (0 < a < 2 ^ 53)%Z → (0 < b)%Z →
  let e := quotient_exponent a b in
  (e ≤ 52)%Z ∧ (0 < e → b * 2 ^ e ≤ a)%Z ∧ (b < 2 ^ 53 → - 53 ≤ e)%Z.
Proof.
  intros [Ha Ha'] Hb. simpl.
  pose proof (Z.log2_nonneg a) as Hla. pose proof (Z.log2_nonneg b) as Hlb.
  assert (Hla' : (Z.log2 a < 53)%Z) by (apply Z.log2_lt_pow2; lia).
  pose proof (Z.log2_spec a Ha) as [Hsa _].
  pose proof (Z.log2_spec b Hb) as [_ Hsb].
  unfold quotient_exponent.
  destruct (b * 2 ^ Z.max 0 (Z.log2 a - Z.log2 b)
            <=? a * 2 ^ Z.max 0 (- (Z.log2 a - Z.log2 b)))%Z eqn:E.
  - split; [lia|]. split.
    + intros Hpos. apply Z.leb_le in E.
      rewrite Z.max_r, Z.max_l in E by lia. simpl in E. lia.
    + intros Hb'. assert (Z.log2 b < 53)%Z by (apply Z.log2_lt_pow2; lia). lia.
  - split; [lia|]. split.
    + intros Hpos.
      assert (Hp : (2 ^ Z.log2 a
                    = 2 ^ Z.succ (Z.log2 b) * 2 ^ (Z.log2 a - Z.log2 b - 1))%Z).
      { rewrite <- Z.pow_add_r by lia. f_equal. lia. }
      assert (0 < 2 ^ (Z.log2 a - Z.log2 b - 1))%Z by (apply Z.pow_pos_nonneg; lia).
      nia.
    + intros Hb'. assert (Z.log2 b < 53)%Z by (apply Z.log2_lt_pow2; lia). lia.
Qed.

(** Below [2^53] the float quotient has the ceiling of the exact one. *)
Lemma binary64_ceil a b :
  (0 < a < 2 ^ 53)%Z → (0 < b < 2 ^ 53)%Z →
  ∃ v, binary64_of_quotient a b = Some v ∧ Qceiling v = (- (- a / b))%Z.
Proof.
  intros Ha Hb.
  destruct (quotient_exponent_spec a b Ha ltac:(lia)) as (He & Hpos & Hlow).
  specialize (Hlow ltac:(lia)).
  unfold binary64_of_quotient.
  set (e := quotient_exponent a b) in *.
  set (s := (52 - e)%Z).
  assert (Hs : (0 ≤ s)%Z) by (unfold s; lia).
  replace (Z.max (e - 52) (-1074)) with (- s)%Z by (unfold s; lia).
  rewrite Z.opp_involutive.
  replace (Z.max 0 s) with s by lia.
  replace (Z.max 0 (- s)) with 0%Z by lia.
  rewrite Z.pow_0_r, Z.mul_1_r.
  set (p := (2 ^ s)%Z).
  assert (Hp : (0 < p)%Z) by (apply Z.pow_pos_nonneg; lia).
  assert (Hbig : (b < 2 * p)%Z).
  { unfold p. replace (2 * 2 ^ s)%Z with (2 ^ (s + 1))%Z
      by (rewrite Z.pow_add_r by lia; lia).
    destruct (Z_le_gt_dec e 0) as [Hle|Hgt].
    - assert (2 ^ 53 ≤ 2 ^ (s + 1))%Z by (apply Z.pow_le_mono_r; unfold s; lia). lia.
    - specialize (Hpos ltac:(lia)).
      assert (Hsplit : (2 ^ 53 = 2 ^ e * 2 ^ (s + 1))%Z).
      { rewrite <- Z.pow_add_r by lia. f_equal. unfold s. lia. }
      assert (0 < 2 ^ e)%Z by (apply Z.pow_pos_nonneg; lia).
      nia. }
  set (m := round_half_even (a * p) b).
  pose proof (Z.div_mod a b ltac:(lia)) as Hdm.
  pose proof (Z.mod_pos_bound a b ltac:(lia)) as Hr.
  (* the bounds of the rounded numerator *)
  assert (Hm : if (a mod b =? 0)%Z then m = (a / b * p)%Z
               else (a / b * p < m ≤ (a / b + 1) * p)%Z).
  { destruct (a mod b =? 0)%Z eqn:E.
    - apply Z.eqb_eq in E. unfold m.
      replace (a * p)%Z with (a / b * p * b)%Z by nia.
      apply round_half_even_exact. lia.
    - apply Z.eqb_neq in E. split.
      + apply round_half_even_gt; [lia|]. nia.
      + apply round_half_even_le; [lia|]. nia. }
  assert (Hceil : (- (- a / b) = if (a mod b =? 0)%Z then a / b else a / b + 1)%Z).
  { destruct (a mod b =? 0)%Z eqn:E.
    - apply Z.eqb_eq in E.
      replace (- a)%Z with (- (a / b) * b)%Z by nia. rewrite Z.div_mul by lia. lia.
    - apply Z.eqb_neq in E.
      assert (- a / b = - (a / b) - 1)%Z; [|lia].
      symmetry. apply Z.div_unique with (r := (b - a mod b)%Z); [lia|nia]. }
  assert (Hdiv : (- (- m / p) = if (a mod b =? 0)%Z then a / b else a / b + 1)%Z).
  { destruct (a mod b =? 0)%Z.
    - subst m. rewrite Hm.
      replace (- (a / b * p))%Z with (- (a / b) * p)%Z by lia.
      rewrite Z.div_mul by lia. lia.
    - assert (- m / p = - (a / b) - 1)%Z; [|lia].
      symmetry. apply Z.div_unique with (r := ((a / b + 1) * p - m)%Z); [lia|nia]. }
  destruct (0 <=? - s)%Z eqn:Eu.
  - apply Z.leb_le in Eu. assert (Hz : s = 0%Z) by lia.
    assert (Hp1 : p = 1%Z) by (unfold p; rewrite Hz; reflexivity).
    assert (Hmle : (m ≤ a)%Z).
    { unfold m. rewrite Hp1, Z.mul_1_r. apply round_half_even_le; [lia|nia]. }
    assert (Hs0 : (2 ^ (- s) = 1)%Z) by (rewrite Hz; reflexivity).
    rewrite Hs0, Z.mul_1_r.
    assert (H1024 : (2 ^ 53 < 2 ^ 1024)%Z) by (apply Z.pow_lt_mono_r; lia).
    destruct (2 ^ 1024 <=? m)%Z eqn:Eo; [apply Z.leb_le in Eo; lia|].
    eexists. split; [reflexivity|].
    rewrite Qceiling_Z, Hceil, <- Hdiv, Hp1, Z.div_1_r. lia.
  - eexists. split; [reflexivity|].
    unfold Qceiling, Qfloor, Qopp. simpl Qnum. simpl Qden.
    rewrite Z2Pos.id by exact Hp. rewrite Hceil, <- Hdiv. reflexivity.
Qed.

(** A numerator below [2^53] never overflows, whatever the denominator. *)
Lemma binary64_nonneg a b :
  (0 < a < 2 ^ 53)%Z → (0 < b)%Z →
  ∃ v, binary64_of_quotient a b = Some v ∧ (0 <= v)%Q.
Proof.
  intros Ha Hb.
  destruct (quotient_exponent_spec a b Ha Hb) as (He & _ & _).
  unfold binary64_of_quotient.
  set (e := quotient_exponent a b) in *.
  set (u := Z.max (e - 52) (-1074)).
  assert (Hu : (u ≤ 0)%Z) by (unfold u; lia).
  set (m := round_half_even (a * 2 ^ Z.max 0 (- u)) (b * 2 ^ Z.max 0 u)).
  assert (Hm : (0 ≤ m)%Z).
  { unfold m. apply round_half_even_ge.
    - assert (0 < 2 ^ Z.max 0 u)%Z by (apply Z.pow_pos_nonneg; lia). nia.
    - assert (0 < 2 ^ Z.max 0 (- u))%Z by (apply Z.pow_pos_nonneg; lia). nia. }
  destruct (0 <=? u)%Z eqn:Eu.
  - apply Z.leb_le in Eu. assert (Hz : u = 0%Z) by lia.
    assert (Hmle : (m ≤ a)%Z).
    { unfold m. rewrite Hz. simpl. rewrite !Z.mul_1_r.
      apply round_half_even_le; [lia|nia]. }
    rewrite Hz. simpl (2 ^ 0)%Z. rewrite Z.mul_1_r.
    assert (H1024 : (2 ^ 53 < 2 ^ 1024)%Z) by (apply Z.pow_lt_mono_r; lia).
    destruct (2 ^ 1024 <=? m)%Z eqn:Eo; [apply Z.leb_le in Eo; lia|].
    eexists. split; [reflexivity|].
    unfold Qle. simpl. lia.
  - eexists. split; [reflexivity|].
    unfold Qle. simpl. lia.
Qed.

(** Below [2^53] the ceiling of the quotient is the exact one. *)
Lemma py_true_div_ceil n b :
  (0 ≤ n < 2 ^ 53)%Z → (0 < b < 2 ^ 53)%Z →
  ∃ q, py_true_div n b = Ok q ∧ math_ceil q = (- (- n / b))%Z.
Proof.
  intros Hn Hb. unfold py_true_div.
  destruct (Z.eqb_spec b 0) as [?|_]; [lia|].
  destruct (Z.eqb_spec n 0) as [->|Hne].
  - exists 0%Q. split; [reflexivity|]. rewrite Z.div_0_l by lia. reflexivity.
  - rewrite !Z.abs_eq by lia.
    destruct (binary64_ceil n b ltac:(lia) Hb) as (v & -> & Hv).
    rewrite !Z.sgn_pos by lia. simpl. exists v. split; [reflexivity|exact Hv].
Qed.

(** A negative denominator under such a numerator gives a quotient that
    is not positive. *)
Lemma py_true_div_nonpos n b :
  (0 ≤ n < 2 ^ 53)%Z → (b < 0)%Z →
  ∃ q, py_true_div n b = Ok q ∧ (math_ceil q ≤ 0)%Z.
Proof.
  intros Hn Hb. unfold py_true_div.
  destruct (Z.eqb_spec b 0) as [?|_]; [lia|].
  destruct (Z.eqb_spec n 0) as [->|Hne].
  - exists 0%Q. split; [reflexivity|]. unfold math_ceil. vm_compute. discriminate.
  - rewrite (Z.abs_eq n) by lia.
    destruct (binary64_nonneg n (Z.abs b) ltac:(lia) ltac:(lia)) as (v & -> & Hv).
    rewrite Z.sgn_pos, Z.sgn_neg by lia. simpl. exists (- v)%Q. split; [reflexivity|].
    unfold math_ceil, Qceiling.
    rewrite (Qfloor_comp (- - v) v) by apply Qopp_involutive.
    pose proof (Qfloor_resp_le 0 v Hv) as Hf.
    change (Qfloor 0) with 0%Z in Hf. lia.
Qed.

Lemma n_batches_exact n batch_size :
  (0 ≤ n < 2 ^ 53)%Z → (0 < batch_size < 2 ^ 53)%Z →
  n_batches n batch_size = (- (- n / batch_size))%Z.
Proof.
  intros Hn Hb. unfold n_batches.
  destruct (py_true_div_ceil n batch_size Hn Hb) as (q & -> & Hq). exact Hq.
Qed.

(** Beyond the range of the floats the count is not the exact ceiling: a
    quotient that underflows counts no batch, and one that overflows
    raises. *)
Lemma underflowing_quotient : n_batches 3 (10 ^ 400) = 0%Z.
Proof. vm_compute. reflexivity. Qed.

Lemma overflowing_quotient : py_true_div (10 ^ 400) (-1) = Raise OverflowError.
Proof. vm_compute. reflexivity. Qed.

Lemma rounded_quotient : n_batches (2 ^ 53 + 1) 1 = (2 ^ 53)%Z.
Proof. vm_compute. reflexivity. Qed.

(** With a batch size of 50 the batches counted for [50 * (2^53 + 1)]
    samples fall short of the samples by a batch. *)
Lemma rounded_quotient_loses_a_batch :
  (n_batches (50 * (2 ^ 53 + 1)) 50 * 50 = 50 * 2 ^ 53)%Z.
Proof. vm_compute. reflexivity. Qed.

(** ** The documents the batch loop visits *)

Lemma py_slice_nonneg {A} (l : list A) lo hi :
  (0 ≤ lo ≤ hi)%Z →
  py_slice l lo hi = take (Z.to_nat hi - Z.to_nat lo) (drop (Z.to_nat lo) l).
Proof.
  intros [Hlo Hhi]. unfold py_slice, clamp_index.
  destruct (Z.ltb_spec lo 0) as [?|_]; [lia|].
  destruct (Z.ltb_spec hi 0) as [?|_]; [lia|].
  destruct (Z_le_gt_dec (Z.of_nat (length l)) lo) as [Hout|Hin].
  - rewrite (drop_ge l (Z.to_nat lo)) by lia.
    rewrite (drop_ge l (Z.to_nat (lo `min` Z.of_nat (length l)))) by lia.
    rewrite !take_nil. reflexivity.
  - rewrite (Z.min_l lo) by lia.
    destruct (Z_le_gt_dec hi (Z.of_nat (length l))) as [Hhi'|Hhi'].
    + rewrite (Z.min_l hi) by lia. f_equal. lia.
    + rewrite (Z.min_r hi) by lia.
      rewrite !take_ge by (rewrite length_drop; lia). reflexivity.
Qed.

(** With a positive batch size the batches are consecutive and the loop
    visits a prefix of the records. *)
Lemma batches_are_a_prefix {A} (l : list A) (k bs : Z) :
  (0 < bs)%Z →
  concat (map (λ batch, py_slice l (batch * bs) ((batch + 1) * bs)) (range k))
  = take (Z.to_nat (k * bs)) l.
Proof.
  intros Hbs. unfold range.
  replace (Z.to_nat (k * bs)) with (Z.to_nat k * Z.to_nat bs)%nat
    by (destruct (Z_le_gt_dec 0 k); [rewrite Z2Nat.inj_mul by lia; reflexivity|nia]).
  induction (Z.to_nat k) as [|n IH]; [reflexivity|].
  rewrite seq_S, !map_app, concat_app, IH. simpl. rewrite app_nil_r.
  rewrite py_slice_nonneg by nia.
  replace (Z.to_nat ((Z.of_nat n + 1) * bs) - Z.to_nat (Z.of_nat n * bs))%nat
    with (Z.to_nat bs) by nia.
  replace (Z.to_nat (Z.of_nat n * bs)) with (n * Z.to_nat bs)%nat by nia.
  rewrite take_take_drop. f_equal. lia.
Qed.

(** The samples a run returns are those of the documents it visits. *)
Lemma returned_samples W target_model cfg data ref_models n_samples batch_size
    (d : list (string * Attack)) predictions samples :
  outcome (get_mia_scores W target_model cfg data ref_models n_samples batch_size d)
  = Ok (predictions, samples) →
  Forall2 (λ doc sample, select_sample cfg doc = Ok sample)
          (visited_records data n_samples batch_size) samples.
Proof.
  intros H. apply outcome_ok_inv in H. destruct H as (d' & t & H).
  apply get_mia_scores_inv in H. destruct H as (results & Hrec & Hagg).
  pose proof (final_records_NoDup _ _ _ _ _ Hrec) as Hnd.
  destruct (aggregate_fold LOSS results [] predictions [] samples Hnd)
    as ((ss & Hss & Hs) & _); [discriminate..|exact Hagg|].
  simpl in Hss. subst ss.
  eapply Forall2_trans; [|exact Hrec|exact Hs].
  intros doc r x Hr Hraw. simpl in Hraw.
  apply final_record_sample in Hr. destruct Hr as (sample & Hsel & Hget & _).
  rewrite Hsel. f_equal.
  unfold dict_raw in Hraw. rewrite Hget in Hraw. congruence.
Qed.

(** X8. With a batch size and a number of samples in the range where the
    float quotient of line 102 is exact (a positive batch size and a count
    that is not negative, both below [2^53]) a run scores whole batches: the
    documents scored are the first [ceil(n_samples / batch_size) *
    batch_size] records, or all of them when there are fewer, so the
    requested number of samples is rounded up to a multiple of the batch
    size; a request for at least as many samples as there are records, or
    for none in particular, scores every record. *)
Theorem whole_batches_are_scored W target_model cfg data ref_models n_samples
    batch_size (d : list (string * Attack)) predictions samples :
  (0 < batch_size < 2 ^ 53)%Z →
  (0 ≤ default (Z.of_nat (length (records data))) n_samples < 2 ^ 53)%Z →
  outcome (get_mia_scores W target_model cfg data ref_models n_samples batch_size d)
  = Ok (predictions, samples) →
  let n := default (Z.of_nat (length (records data))) n_samples in
  Forall2 (λ doc sample, select_sample cfg doc = Ok sample)
          (take (Z.to_nat (- (- n / batch_size) * batch_size)) (records data))
          samples ∧
  length samples
  = Nat.min (Z.to_nat (- (- n / batch_size) * batch_size)) (length (records data)) ∧
  ((Z.of_nat (length (records data)) ≤ n)%Z → length samples = length (records data)).
Proof.
  intros Hbs Hrange H n. apply returned_samples in H.
  unfold visited_records, batch_texts in H. fold n in H.
  rewrite (n_batches_exact n batch_size Hrange Hbs) in H.
  rewrite batches_are_a_prefix in H by lia.
  split; [exact H|].
  apply Forall2_length in H. rewrite length_take in H.
  split; [symmetry; exact H|].
  intros Hn. rewrite <- H. apply Nat.min_r.
  assert (n ≤ - (- n / batch_size) * batch_size)%Z.
  { pose proof (Z.mul_div_le (- n) batch_size ltac:(lia)). lia. }
  lia.
Qed.

Lemma whole_batches_are_scored_witness :
  Forall2 (λ doc sample, select_sample (example_config false false None) doc = Ok sample)
          [VStr "a"; VStr "bb"]
          [VList [VStr "a"]; VList [VStr "bb"]].
Proof.
  exact (proj1 (whole_batches_are_scored length_world "target"
                  (example_config false false None) example_three_docs None (Some 1%Z) 2 []
                  [("loss", [1; 2]%Q)] [VList [VStr "a"]; VList [VStr "bb"]]
                  ltac:(lia) ltac:(simpl; lia) eq_refl)).
Defined.

(** Outside that range the run follows the float: with three samples and a
    batch size of [10^400] the quotient underflows to zero and nothing is
    scored. *)
Lemma underflowing_quotient_scores_nothing :
  outcome (get_mia_scores length_world "target" (example_config false false None)
             example_three_docs None (Some 3%Z) (10 ^ 400) [])
  = Ok ([], []).
Proof. vm_compute. reflexivity. Qed.

(** ** Batch sizes that are not positive *)

(** Without records the second pass scores nothing; it still unloads the
    reference attackers it finds. *)
Lemma reference_pass_nil W cfg ref_models (d : list (string * Attack)) :
  ∃ d' t, reference_pass W cfg ref_models [] d = (d', t, Ok []) ∧ Forall housekeeping t.
Proof.
  unfold reference_pass. destruct ref_models as [rms|].
  - revert d. induction rms as [|[name m] rms IH]; intros d.
    + exists d, []. split; [reflexivity|constructor].
    + rewrite for_fold_cons. unfold reference_model_pass at 1.
      rewrite bind_run. unfold get at 1. cbv beta iota.
      destruct (dict_get (ref_key_of (member_format W) name) d) as [a|] eqn:Ha.
      * rewrite bind_run. unfold on_item at 1. rewrite Ha, for_fold_nil.
        rewrite bind_run. unfold emit at 1. cbv beta iota.
        rewrite bind_run. unfold on_item at 1. rewrite dict_get_set_eq, unload_run.
        unfold mret, M_ret.
        match goal with
        | |- context [for_fold _ [] rms ?d1] => destruct (IH d1) as (d' & t & -> & Ht)
        end.
        eexists _, _. split; [reflexivity|].
        simpl. constructor; [exact I|]. constructor; [exact I|].
        apply Forall_app. split; [|exact Ht].
        rewrite app_nil_r.
        apply Forall_forall. intros e He. apply list_elem_of_fmap in He.
        destruct He as (m' & -> & _). exact I.
      * unfold mret, M_ret. destruct (IH d) as (d' & t & -> & Ht).
        eexists _, _. split; [reflexivity|exact Ht].
  - eexists _, _. split; [reflexivity|]. repeat constructor.
Qed.

(** X9. When the neighbours load and the number of samples is not
    negative and below [2^53], a batch size of zero makes the run fail with
    a division by zero, and a negative one makes it return an empty table
    and no samples; either way no document is scored: the run only seeds,
    prints and unloads. *)
Theorem degenerate_batch_sizes W target_model cfg data ref_models n_samples
    batch_size (d : list (string * Attack)) nb :
  outcome (load_neighbors cfg data d) = Ok nb →
  (batch_size ≤ 0)%Z →
  (0 ≤ default (Z.of_nat (length (records data))) n_samples < 2 ^ 53)%Z →
  let run := get_mia_scores W target_model cfg data ref_models n_samples batch_size d in
  outcome run = (if (batch_size =? 0)%Z then Raise ZeroDivisionError else Ok ([], [])) ∧
  Forall housekeeping (trace run).
Proof.
  intros Hnb Hbs Hn run.
  destruct (load_neighbors_run cfg data d) as (tn & rn & Hrun & Hprint & _).
  rewrite Hrun in Hnb. unfold outcome in Hnb. simpl in Hnb. subst rn.
  assert (Htn : Forall housekeeping tn).
  { eapply Forall_impl; [exact Hprint|]. intros e ->. exact I. }
  destruct (Z.eqb_spec batch_size 0) as [Hz|Hne].
  - assert (Heq : run = (d, EvFixSeed (random_seed cfg) :: tn ++ [],
                         Raise ZeroDivisionError)).
    { unfold run, get_mia_scores. rewrite bind_run. unfold emit at 1. cbv beta iota.
      rewrite bind_run, Hrun. rewrite bind_run. unfold primary_pass.
      rewrite bind_run. unfold py_true_div.
      rewrite (proj2 (Z.eqb_eq batch_size 0) Hz). reflexivity. }
    rewrite Heq. split; [reflexivity|].
    unfold trace. simpl. constructor; [exact I|]. rewrite app_nil_r. exact Htn.
  - destruct (py_true_div_nonpos _ batch_size Hn ltac:(lia)) as (q & Hq & Hle).
    assert (Hrange : range (math_ceil q) = []).
    { unfold range. replace (Z.to_nat (math_ceil q)) with 0%nat by lia. reflexivity. }
    destruct (reference_pass_nil W cfg ref_models d) as (d' & t & Href & Ht).
    assert (Heq : run = (d', EvFixSeed (random_seed cfg) :: tn ++ ([] ++ []) ++ t ++ [],
                         Ok ([], []))).
    { unfold run, get_mia_scores. rewrite bind_run. unfold emit at 1. cbv beta iota.
      rewrite bind_run, Hrun. rewrite bind_run. unfold primary_pass.
      rewrite bind_run, Hq. unfold lift_result at 1. cbv beta iota.
      rewrite Hrange, for_fold_nil.
      rewrite bind_run, Href. reflexivity. }
    rewrite Heq. split; [reflexivity|].
    unfold trace. simpl. constructor; [exact I|]. rewrite app_nil_r.
    apply Forall_app. split; [exact Htn|exact Ht].
Qed.

Lemma degenerate_batch_sizes_witness :
  outcome (get_mia_scores example_world "target" (example_config_ref false)
             example_data (Some example_ref_models) None (-1) (example_ref_attackers false))
  = Ok ([], []) ∧
  outcome (get_mia_scores example_world "target" (example_config_ref false)
             example_data (Some example_ref_models) None 0 (example_ref_attackers false))
  = Raise ZeroDivisionError.
Proof.
  split.
  - exact (proj1 (degenerate_batch_sizes example_world "target" (example_config_ref false)
                    example_data (Some example_ref_models) None (-1)
                    (example_ref_attackers false) None eq_refl ltac:(lia) ltac:(simpl; lia))).
  - exact (proj1 (degenerate_batch_sizes example_world "target" (example_config_ref false)
                    example_data (Some example_ref_models) None 0
                    (example_ref_attackers false) None eq_refl ltac:(lia) ltac:(simpl; lia))).
Defined.

(** With a count of samples beyond the range of the floats a negative
    batch size does not give an empty table: the quotient overflows. *)
Lemma overflowing_quotient_raises :
  outcome (get_mia_scores length_world "target" (example_config false false None)
             example_three_docs None (Some (10 ^ 400)%Z) (-1) [])
  = Raise OverflowError.
Proof. vm_compute. reflexivity. Qed.

(** ** The loss column *)

Lemma decode_loop_run W target_model substrs acc (d : list (string * Attack)) :
  for_fold (λ ds s, emit (EvDecode target_model s);;
                    mret (ds ++ [decode W target_model s])) acc substrs d
  = (d, map (EvDecode target_model) substrs,
     Ok (acc ++ map (decode W target_model) substrs)).
Proof.
  revert acc. induction substrs as [|s substrs IH]; intros acc.
  - rewrite for_fold_nil, app_nil_r. reflexivity.
  - rewrite for_fold_cons, bind_run. unfold emit at 1, mret at 1, M_ret at 1.
    cbv beta iota. rewrite IH. simpl. rewrite <- app_assoc. reflexivity.
Qed.

Lemma may_append_not_loss cfg nb name : ¬ may_append cfg nb name LOSS.
Proof.
  intros [(_ & Hne & _ & Heq)|(-> & nc & n & _ & _ & _ & _ & Heq)].
  - congruence.
  - destruct (count_key_not_fixed n) as (_ & _ & Hl & _). congruence.
Qed.

Lemma appended_snoc l x si si1 :
  dict_get LOSS si = appended l → dict_append LOSS x si = Ok si1 →
  dict_get LOSS si1 = appended (l ++ [x]).
Proof.
  unfold dict_append. intros -> H. destruct l as [|y l]; simpl in H |- *;
    injection H as <-; apply dict_get_set_eq.
Qed.

Section LossColumn.
Variable W : Collaborators.
Variable target_model : Model.
Variable cfg : ExperimentConfig.
Variable nb : option (gmap Z (list (list value))).

Lemma process_substring_loss doc_index detokenized_sample substrs si i substr
    (d d' : list (string * Attack)) t si' l :
  detokenized_sample
  = (if pretokenized cfg then Some (map (decode W target_model) substrs) else None) →
  substrs !! i = Some substr →
  dict_get LOSS si = appended l →
  process_substring W target_model cfg nb doc_index detokenized_sample si (i, substr) d
  = (d', t, Ok si') →
  dict_get LOSS si' = appended (l ++ [substring_loss W target_model cfg substr]).
Proof.
  intros -> Hi Hsi. unfold process_substring. intros H.
  apply bind_ok_inv in H. destruct H as (d1 & t1 & detok_i & t2 & Hdetok & H & _).
  assert (Hd : detok_i = if pretokenized cfg then Some (decode W target_model substr)
                         else None).
  { destruct (pretokenized cfg).
    - apply bind_ok_inv in Hdetok. destruct Hdetok as (? & ? & x & ? & Hl & Hr & _).
      apply lift_result_ok_inv in Hl. destruct Hl as (Hl & _ & _).
      apply mret_ok_inv in Hr. destruct Hr as (_ & _ & ->).
      rewrite (py_index_lookup _ i (decode W target_model substr)) in Hl
        by (rewrite list_lookup_fmap, Hi; reflexivity).
      congruence.
    - apply mret_ok_inv in Hdetok. destruct Hdetok as (_ & _ & ->). reflexivity. }
  subst detok_i.
  apply bind_ok_inv in H. destruct H as (d2 & t3 & [] & t4 & _ & H & _).
  apply bind_ok_inv in H. destruct H as (d3 & t5 & [] & t6 & _ & H & _).
  apply bind_ok_inv in H. destruct H as (d4 & t7 & si1 & t8 & Hloss & H & _).
  apply lift_result_ok_inv in Hloss. destruct Hloss as (Hloss & _ & _).
  assert (Hsi1 : dict_get LOSS si1
                 = appended (l ++ [substring_loss W target_model cfg substr])).
  { eapply appended_snoc; [exact Hsi|]. unfold substring_loss.
    destruct (pretokenized cfg); exact Hloss. }
  rewrite <- Hsi1. revert H.
  apply for_items_ok_inv with (I := λ acc, dict_get LOSS acc = dict_get LOSS si1);
    [|reflexivity].
  intros k acc s s' t' acc' _ Hacc Hbody. rewrite <- Hacc.
  eapply grown_other; [eapply run_attack_grown; exact Hbody|].
  apply may_append_not_loss.
Qed.

Lemma process_document_loss doc_index doc (d d' : list (string * Attack)) t si :
  process_document W target_model cfg nb doc_index doc d = (d', t, Ok si) →
  dict_get LOSS si
  = appended (map (substring_loss W target_model cfg) (substrings cfg doc)).
Proof.
  unfold process_document. intros H.
  apply bind_ok_inv in H. destruct H as (d1 & t1 & sample & t2 & Hsel & H & _).
  apply lift_result_ok_inv in Hsel. destruct Hsel as (Hsel & _ & _).
  apply bind_ok_inv in H. destruct H as (d2 & t3 & substrs & t4 & Hit & H & _).
  apply lift_result_ok_inv in Hit. destruct Hit as (Hit & _ & _).
  assert (Hsub : substrings cfg doc = substrs).
  { unfold substrings. rewrite Hsel, Hit. reflexivity. }
  rewrite Hsub.
  apply bind_ok_inv in H. destruct H as (d3 & t5 & [detok si0] & t6 & Hdet & H & _).
  assert (Hinit : detok = (if pretokenized cfg
                           then Some (map (decode W target_model) substrs) else None) ∧
                  dict_get LOSS si0 = None).
  { destruct (pretokenized cfg).
    - apply bind_ok_inv in Hdet. destruct Hdet as (d4 & t7 & ds & t8 & Hdec & Hr & _).
      apply mret_ok_inv in Hr. destruct Hr as (_ & _ & Hr). injection Hr as -> ->.
      rewrite decode_loop_run in Hdec. injection Hdec as _ _ <-.
      split; reflexivity.
    - apply mret_ok_inv in Hdet. destruct Hdet as (_ & _ & Hr). injection Hr as -> ->.
      split; reflexivity. }
  destruct Hinit as [Hdetok Hnone].
  rewrite <- (enumerate_snd substrs).
  change ((λ done (_ : list (string * Attack)) acc,
             dict_get LOSS acc
             = appended (map (substring_loss W target_model cfg) done.*2))
            ([] ++ enumerate substrs) d' si).
  revert H.
  apply for_fold_ok_rel_in with (P := λ x, substrs !! x.1 = Some x.2).
  - intros done acc [i substr] s s' t' acc' Hx Hacc Hbody.
    rewrite fmap_app, map_app. simpl.
    eapply process_substring_loss; [exact Hdetok|exact Hx|exact Hacc|exact Hbody].
  - apply Forall_forall. intros [i substr] Hin. apply enumerate_lookup. exact Hin.
  - exact Hnone.
Qed.

(** Every record the first pass returns satisfies what [process_document]
    guarantees of the record of its document. *)
Lemma primary_pass_rel (R : value → sample_information → Prop) data n_samples batch_size
    (d d' : list (string * Attack)) t results :
  (∀ doc_index doc (d0 d1 : list (string * Attack)) t0 si,
     process_document W target_model cfg nb doc_index doc d0 = (d1, t0, Ok si) → R doc si) →
  primary_pass W target_model cfg data nb n_samples batch_size d = (d', t, Ok results) →
  Forall2 R
          (batch_texts data n_samples batch_size)
          results.
Proof.
  intros HR. unfold primary_pass, batch_texts, n_batches. intros H.
  apply bind_ok_inv in H. destruct H as (sq & tq & quotient & tq' & Hq & H & _).
  apply lift_result_ok_inv in Hq. destruct Hq as (Hq & -> & _). rewrite Hq.
  set (texts := λ batch : Z, py_slice (records data) (batch * batch_size)
                                      ((batch + 1) * batch_size)) in *.
  change ((λ done (_ : list (string * Attack)) acc,
             Forall2 R (concat (map texts done)) acc)
            ([] ++ range (math_ceil quotient)) d' results).
  revert H. apply for_fold_ok_rel; [|constructor].
  intros done acc batch s s' t' acc' Hacc Hbody.
  rewrite map_app, concat_app. simpl. rewrite app_nil_r.
  rewrite <- (enumerate_snd (texts batch)).
  change ((λ done' (_ : list (string * Attack)) acc,
             Forall2 R (concat (map texts done) ++ done'.*2) acc)
            ([] ++ enumerate (texts batch)) s' acc').
  revert Hbody. apply for_fold_ok_rel.
  - intros done' acc0 [idx doc] s0 s1 t0 acc1 Hacc0 Hb.
    apply bind_ok_inv in Hb. destruct Hb as (s2 & t1 & si & t2 & Hdoc & Hr & _).
    apply mret_ok_inv in Hr. destruct Hr as (_ & _ & ->).
    rewrite fmap_app, app_assoc. apply Forall2_app; [exact Hacc0|].
    constructor; [|constructor]. eapply HR. exact Hdoc.
  - simpl. rewrite app_nil_r. exact Hacc.
Qed.
End LossColumn.

(** Related lists, filtered by tests that agree on related elements. *)
Lemma Forall2_filter_rel {A B} (R : A → B → Prop) (P : A → Prop) (Q : B → Prop)
    `{∀ x, Decision (P x)} `{∀ y, Decision (Q y)} l k :
  Forall2 R l k → (∀ x y, R x y → P x ↔ Q y) →
  Forall2 R (filter P l) (filter Q k).
Proof.
  intros HF HPQ. induction HF as [|x y l k Hxy HF IH]; [constructor|].
  rewrite !filter_cons. destruct (decide (P x)) as [Hp|Hp], (decide (Q y)) as [Hq|Hq].
  - constructor; assumption.
  - exfalso. apply Hq. apply (HPQ x y Hxy). exact Hp.
  - exfalso. apply Hp. apply (HPQ x y Hxy). exact Hq.
  - exact IH.
Qed.

(** What both passes leave under ["loss"] in the records of the visited
    documents. *)
Lemma loss_records W target_model cfg data ref_models n_samples batch_size
    (d d' : list (string * Attack)) t predictions samples :
  get_mia_scores W target_model cfg data ref_models n_samples batch_size d
  = (d', t, Ok (predictions, samples)) →
  ∃ results,
    Forall2 (λ doc r, dict_get LOSS r
                      = appended (map (substring_loss W target_model cfg)
                                      (substrings cfg doc)) ∧
                      NoDup (dict_keys r))
            (visited_records data n_samples batch_size) results ∧
    aggregate results = Ok (predictions, samples).
Proof.
  unfold get_mia_scores. intros H.
  apply bind_ok_inv in H. destruct H as (s1 & t1 & [] & t2 & _ & H & _).
  apply bind_ok_inv in H. destruct H as (s3 & t5 & nb & t6 & _ & H & _).
  apply bind_ok_inv in H. destruct H as (s4 & t7 & results1 & t8 & Hp & H & _).
  apply bind_ok_inv in H. destruct H as (s5 & t9 & results2 & t10 & Hr & H & _).
  apply lift_result_ok_inv in H. destruct H as (Hagg & _ & _).
  exists results2. split; [|exact Hagg].
  apply reference_pass_records in Hr. destruct Hr as [_ Hr].
  eapply Forall2_trans; [| |exact Hr].
  2: { eapply (primary_pass_rel W target_model cfg nb
                 (λ doc r, dict_get LOSS r
                           = appended (map (substring_loss W target_model cfg)
                                           (substrings cfg doc)) ∧
                           NoDup (dict_keys r))); [|exact Hp].
       intros doc_index doc d0 d1 t0 si Hdoc. split.
       - eapply process_document_loss. exact Hdoc.
       - apply process_document_grown in Hdoc.
         destruct Hdoc as (_ & sample & si0 & _ & Hinit & Hg).
         eapply grown_NoDup; [exact Hg|]. eapply initial_record_NoDup. exact Hinit. }
  intros doc r1 r2 [Hl Hnd] Hg. split.
  - rewrite <- Hl. eapply grown_other; [exact Hg|]. apply reference_key_fixed.
  - eapply grown_NoDup; eassumption.
Qed.

(** X10. In the table a run returns, the column ["loss"] holds, in the
    order of the documents, one value for every visited document with at
    least one substring: the minimum over the substrings of the target
    model's loss on the substring, computed on the decoded text with the
    substring as tokens when the input is pretokenized. No attacker's score
    ends up in this column, whatever the attackers are called. *)
Theorem loss_column W target_model cfg data ref_models n_samples batch_size
    (d : list (string * Attack)) predictions samples :
  outcome (get_mia_scores W target_model cfg data ref_models n_samples batch_size d)
  = Ok (predictions, samples) →
  Forall2 (λ doc m, np_min (map (substring_loss W target_model cfg) (substrings cfg doc))
                    = Ok m)
          (filter (λ doc, (0 < length (substrings cfg doc))%nat)
                  (visited_records data n_samples batch_size))
          (default [] (dict_get LOSS predictions)).
Proof.
  intros H. apply outcome_ok_inv in H. destruct H as (d' & t & H).
  apply loss_records in H. destruct H as (results & Hrec & Hagg).
  assert (Hnd : Forall (λ r, NoDup (dict_keys r)) results).
  { eapply Forall2_Forall_r; [exact Hrec|]. apply Forall_forall.
    intros doc _ r [_ Hr]. exact Hr. }
  destruct (aggregate_minima results predictions samples LOSS Hnd) as (Hmin & _);
    [discriminate..|exact Hagg|].
  eapply Forall2_trans; [| |exact Hmin].
  2: { unfold records_with.
       apply (Forall2_filter_rel
                (λ doc r, dict_get LOSS r
                          = appended (map (substring_loss W target_model cfg)
                                          (substrings cfg doc)))).
       - eapply Forall2_impl; [exact Hrec|]. intros doc r [Hl _]. exact Hl.
       - intros doc r Hl. rewrite Hl.
         destruct (substrings cfg doc) as [|s ss]; simpl.
         + split; [lia|]. intros [? Habs]. discriminate Habs.
         + split; [eauto|lia]. }
  intros doc r m Hl (l & Hget & Hm & _). simpl in Hl.
  rewrite Hl in Hget.
  destruct (map (substring_loss W target_model cfg) (substrings cfg doc)) as [|x xs];
    simpl in Hget; [discriminate|].
  injection Hget as <-. exact Hm.
Qed.

Lemma loss_column_witness :
  Forall2 (λ doc m, np_min (map (substring_loss length_world "target"
                                   (example_config false true None))
                                (substrings (example_config false true None) doc))
                    = Ok m)
          [VList [VStr "aaa"; VStr "b"]; VList [VStr "cc"]]
          [1; 2]%Q.
Proof.
  exact (loss_column length_world "target" (example_config false true None)
           example_pieces_data None None 50 [] [("loss", [1; 2]%Q)]
           [VList [VStr "aaa"; VStr "b"]; VList [VStr "cc"]] eq_refl).
Defined.

(** ** A document without substrings *)

Section EmptyDocument.
Variable W : Collaborators.
Variable cfg : ExperimentConfig.

Lemma process_document_empty target_model nb doc_index doc
    (d d' : list (string * Attack)) t si :
  process_document W target_model cfg nb doc_index doc d = (d', t, Ok si) →
  substrings cfg doc = [] → scoreless si.
Proof.
  unfold process_document. intros H Hempty.
  apply bind_ok_inv in H. destruct H as (d1 & t1 & sample & t2 & Hsel & H & _).
  apply lift_result_ok_inv in Hsel. destruct Hsel as (Hsel & _ & _).
  apply bind_ok_inv in H. destruct H as (d2 & t3 & substrs & t4 & Hit & H & _).
  apply lift_result_ok_inv in Hit. destruct Hit as (Hit & _ & _).
  unfold substrings in Hempty. rewrite Hsel, Hit in Hempty. subst substrs.
  apply bind_ok_inv in H. destruct H as (d3 & t5 & [detok si0] & t6 & Hdet & H & _).
  change (enumerate (@nil value)) with (@nil (nat * value)) in H.
  rewrite for_fold_nil in H. injection H as _ _ <-.
  exists sample.
  destruct (pretokenized cfg).
  - apply bind_ok_inv in Hdet. destruct Hdet as (d4 & t7 & ds & t8 & _ & Hr & _).
    apply mret_ok_inv in Hr. destruct Hr as (_ & _ & Hr). injection Hr as _ ->.
    split; [reflexivity|]. split; [exact Hit|].
    intros k l Hk. simpl in Hk.
    destruct (String.eqb k "sample"); [discriminate|].
    destruct (String.eqb k "detokenized"); discriminate.
  - apply mret_ok_inv in Hdet. destruct Hdet as (_ & _ & Hr). injection Hr as _ ->.
    split; [reflexivity|]. split; [exact Hit|].
    intros k l Hk. simpl in Hk.
    destruct (String.eqb k "sample"); discriminate.
Qed.

(** Scoring a record without substrings for a reference model leaves an
    empty list of scores under the key of the model. *)
Lemma reference_scores_empty ref_key r (self self' : Attack) t r' :
  reference_scores W cfg ref_key r self = (self', t, Ok r') →
  scoreless r →
  scoreless r' ∧ dict_get ref_key r' = Some (Scores []) ∧
  ∀ k, k ≠ ref_key → dict_get k r' = dict_get k r.
Proof.
  intros H (sample & Hsample & Hit & Hall).
  pose proof (reference_scores_grown W cfg _ _ _ _ _ _ H) as Hg.
  assert (Hother : ∀ k, k ≠ ref_key → dict_get k r' = dict_get k r).
  { intros k Hk. eapply grown_other; [exact Hg|]. simpl. congruence. }
  unfold reference_scores in H.
  apply bind_ok_inv in H. destruct H as (s1 & t1 & sample0 & t2 & Hs & H & _).
  apply lift_result_ok_inv in Hs. destruct Hs as (Hs & _ & _).
  unfold dict_raw in Hs. rewrite Hsample in Hs. injection Hs as <-.
  apply bind_ok_inv in H. destruct H as (s2 & t3 & substrs & t4 & Hit' & H & _).
  apply lift_result_ok_inv in Hit'. destruct Hit' as (Hit' & _ & _).
  rewrite Hit in Hit'. injection Hit' as <-.
  apply bind_ok_inv in H. destruct H as (s3 & t5 & scores & t6 & Hloop & H & _).
  change (enumerate (@nil value)) with (@nil (nat * value)) in Hloop.
  rewrite for_fold_nil in Hloop. injection Hloop as _ _ <-.
  apply lift_result_ok_inv in H. destruct H as (H & _ & _).
  assert (Hkey : dict_get ref_key r' = Some (Scores [])).
  { unfold dict_extend in H. destruct (dict_get ref_key r) as [[v|l]|] eqn:Hget.
    - discriminate.
    - injection H as <-. rewrite (Hall _ _ Hget). apply dict_get_set_eq.
    - injection H as <-. apply dict_get_set_eq. }
  split; [|split; [exact Hkey|exact Hother]].
  exists sample. split; [eapply grown_raw; eassumption|]. split; [exact Hit|].
  intros k l Hk. destruct (String.eqb k ref_key) eqn:E.
  - apply String.eqb_eq in E. subst k. congruence.
  - apply String.eqb_neq in E. rewrite (Hother k E) in Hk. eapply Hall. exact Hk.
Qed.

(** What one round of the second pass does to the records: nothing when no
    attacker is registered for the model, one scoring under the key of the
    model otherwise. *)
Lemma reference_model_pass_steps results name m
    (d d' : list (string * Attack)) t results' :
  reference_model_pass W cfg results (name, m) d = (d', t, Ok results') →
  (dict_get (ref_key_of (member_format W) name) d = None ∧ results' = results) ∨
  (is_Some (dict_get (ref_key_of (member_format W) name) d) ∧
   Forall2 (λ r r', ∃ (self self' : Attack) t0,
              reference_scores W cfg (ref_key_of (member_format W) name) r self = (self', t0, Ok r'))
           results results').
Proof.
  unfold reference_model_pass. intros Hbody.
  apply bind_ok_inv in Hbody. destruct Hbody as (s1 & t1 & ad & t2 & Hget & Hbody & _).
  apply get_ok_inv in Hget. destruct Hget as (-> & _ & ->).
  destruct (dict_get (ref_key_of (member_format W) name) d) as [a|] eqn:Ha.
  - right. split; [eauto|].
    apply bind_ok_inv in Hbody. destruct Hbody as (s2 & t3 & res & t4 & Hloop & Hbody & _).
    apply bind_ok_inv in Hbody. destruct Hbody as (s3 & t5 & [] & t6 & _ & Hbody & _).
    apply bind_ok_inv in Hbody. destruct Hbody as (s4 & t7 & [] & t8 & _ & Hbody & _).
    apply mret_ok_inv in Hbody. destruct Hbody as (_ & _ & ->).
    apply on_item_ok_inv in Hloop. destruct Hloop as (a0 & a1 & _ & Hloop & _).
    change (Forall2 (λ r r', ∃ (self self' : Attack) t0,
                       reference_scores W cfg (ref_key_of (member_format W) name) r self = (self', t0, Ok r'))
                    ([] ++ results) res).
    revert Hloop.
    apply for_fold_ok_rel
      with (I := λ done (_ : Attack) out,
                 Forall2 (λ r r', ∃ (self self' : Attack) t0,
                            reference_scores W cfg (ref_key_of (member_format W) name) r self
                            = (self', t0, Ok r'))
                         done out);
      [|constructor].
    intros done out r s0 s1 t0 out' Hdone Hb.
    apply bind_ok_inv in Hb. destruct Hb as (s5 & t9 & r' & t10 & Hr & Hret & _).
    apply mret_ok_inv in Hret. destruct Hret as (_ & _ & ->).
    apply Forall2_app; [exact Hdone|]. constructor; [|constructor]. eauto.
  - left. apply mret_ok_inv in Hbody. destruct Hbody as (_ & _ & ->). auto.
Qed.

(** After the second pass the record of a document without substrings
    holds an empty list of scores for every reference model that has an
    attacker. *)
Lemma reference_pass_empty rms results (d d' : list (string * Attack)) t results'
    idx r name m :
  for_fold (reference_model_pass W cfg) results rms d = (d', t, Ok results') →
  results !! idx = Some r → scoreless r →
  (name, m) ∈ rms → ref_key_of (member_format W) name ∈ dict_keys d →
  ∃ r', results' !! idx = Some r' ∧ dict_get (ref_key_of (member_format W) name) r' = Some (Scores []).
Proof.
  intros H Hidx Hr Hin Hkey.
  assert (Hinv : dict_keys d' = dict_keys d ∧
                 ∃ r', results' !! idx = Some r' ∧ scoreless r' ∧
                       ((name, m) ∈ [] ++ rms →
                        dict_get (ref_key_of (member_format W) name) r' = Some (Scores []))).
  { revert H.
    apply for_fold_ok_rel
      with (I := λ done s acc,
                 dict_keys s = dict_keys d ∧
                 ∃ r', acc !! idx = Some r' ∧ scoreless r' ∧
                       ((name, m) ∈ done →
                        dict_get (ref_key_of (member_format W) name) r' = Some (Scores []))).
    - intros done acc [name' m'] s s' t' acc' (Hk & r0 & Hr0 & Hs0 & Hdone) Hbody.
      pose proof (reference_model_pass_records W cfg _ _ _ _ _ _ Hbody) as [Hk' _].
      split; [congruence|].
      apply reference_model_pass_steps in Hbody.
      destruct Hbody as [[Hnone ->]|[_ Hstep]].
      + exists r0. split; [exact Hr0|]. split; [exact Hs0|].
        intros Hin'. apply elem_of_app in Hin'. destruct Hin' as [Hin'|Hin'];
          [exact (Hdone Hin')|].
        apply list_elem_of_singleton in Hin'. injection Hin' as -> ->.
        exfalso. apply dict_get_None_keys in Hnone. apply Hnone. rewrite Hk. exact Hkey.
      + destruct (Forall2_lookup_l _ _ _ _ _ Hstep Hr0)
          as (r1 & Hr1 & self & self' & t0 & Hscore).
        destruct (reference_scores_empty _ _ _ _ _ _ Hscore Hs0) as (Hs1 & Hk1 & Hother).
        exists r1. split; [exact Hr1|]. split; [exact Hs1|].
        intros Hin'. destruct (String.eqb (ref_key_of (member_format W) name) (ref_key_of (member_format W) name')) eqn:E.
        * apply String.eqb_eq in E. rewrite E. exact Hk1.
        * apply String.eqb_neq in E. rewrite (Hother _ E). apply Hdone.
          apply elem_of_app in Hin'. destruct Hin' as [Hin'|Hin']; [exact Hin'|].
          apply list_elem_of_singleton in Hin'. injection Hin' as -> ->. contradiction.
    - split; [reflexivity|]. exists r. split; [exact Hidx|]. split; [exact Hr|].
      intros Habs. apply elem_of_nil in Habs. contradiction. }
  destruct Hinv as (_ & r' & Hr' & _ & Hget). exists r'. split; [exact Hr'|].
  apply Hget. exact Hin.
Qed.
End EmptyDocument.

(** X11. A document without substrings (an empty document in full-document
    mode, or a limit of no substrings) breaks a run with a reference
    attacker: the second pass leaves an empty list of scores for the
    document, the minimum of which does not exist, so the run does not
    return. *)
Theorem empty_document_breaks_reference_run W target_model cfg data rms n_samples
    batch_size (d : list (string * Attack)) name m doc :
  (name, m) ∈ rms →
  ref_key_of (member_format W) name ∈ dict_keys d →
  doc ∈ visited_records data n_samples batch_size →
  substrings cfg doc = [] →
  is_ok (outcome (get_mia_scores W target_model cfg data (Some rms) n_samples
                    batch_size d)) = false.
Proof.
  intros Hin Hkey Hdoc Hempty.
  destruct (outcome (get_mia_scores W target_model cfg data (Some rms) n_samples
                       batch_size d)) as [[predictions samples]|e] eqn:Hrun;
    [exfalso|reflexivity].
  apply outcome_ok_inv in Hrun. destruct Hrun as (d' & t & H).
  unfold get_mia_scores in H.
  apply bind_ok_inv in H. destruct H as (s1 & t1 & [] & t2 & Hemit & H & _).
  apply emit_ok_inv in Hemit. destruct Hemit as (-> & _).
  apply bind_ok_inv in H. destruct H as (s3 & t5 & nb & t6 & Hnb & H & _).
  destruct (load_neighbors_run cfg data d) as (tn & rn & Hload & _ & _).
  rewrite Hload in Hnb. injection Hnb as <- _ _.
  apply bind_ok_inv in H. destruct H as (s4 & t7 & results1 & t8 & Hp & H & _).
  apply bind_ok_inv in H. destruct H as (s5 & t9 & results2 & t10 & Hr & H & _).
  apply lift_result_ok_inv in H. destruct H as (Hagg & _ & _).
  pose proof (primary_pass_records _ _ _ _ _ _ _ _ _ _ _ Hp) as [Hkeys Hrec1].
  pose proof (primary_pass_rel W target_model cfg nb
                (λ doc r, substrings cfg doc = [] → scoreless r)
                data _ batch_size d s4 t7 results1
                ltac:(cbv beta; intros; eapply process_document_empty; eassumption) Hp) as Hless.
  fold (visited_records data n_samples batch_size) in Hless, Hrec1.
  apply list_elem_of_lookup in Hdoc. destruct Hdoc as [idx Hidx].
  destruct (Forall2_lookup_l _ _ _ _ _ Hless Hidx) as (r1 & Hr1 & Hs1).
  specialize (Hs1 Hempty).
  pose proof (reference_pass_records _ _ _ _ _ _ _ _ Hr) as [_ Hrec2].
  unfold reference_pass in Hr.
  destruct (reference_pass_empty W cfg rms results1 s4 s5 t9 results2 idx r1 name m
              Hr Hr1 Hs1 Hin ltac:(rewrite Hkeys; exact Hkey)) as (r2 & Hr2 & Hget).
  assert (Hnd : Forall (λ r, NoDup (dict_keys r)) results2).
  { eapply final_records_NoDup. eapply Forall2_trans; [|exact Hrec1|exact Hrec2].
    intros doc0 ra rb Ha Hb. exists ra. split; [exact Ha|exact Hb]. }
  destruct reference_key_fixed as (Hs & Hd & _).
  destruct (aggregate_minima results2 predictions samples (ref_key_of (member_format W) name) Hnd)
    as (Hmin & _); [intros Habs; apply Hs; exists (member_format W), name; symmetry; exact Habs
                   |intros Habs; apply Hd; exists (member_format W), name; symmetry; exact Habs
                   |exact Hagg|].
  assert (Hmem : r2 ∈ records_with (ref_key_of (member_format W) name) results2).
  { unfold records_with. apply list_elem_of_filter. split; [rewrite Hget; eauto|].
    eapply list_elem_of_lookup_2. exact Hr2. }
  apply list_elem_of_lookup in Hmem. destruct Hmem as [j Hj].
  destruct (Forall2_lookup_l _ _ _ _ _ Hmin Hj) as (x & _ & l & Hl & Hnp & _).
  rewrite Hget in Hl. injection Hl as <-. discriminate Hnp.
Qed.

Lemma empty_document_breaks_reference_run_witness :
  is_ok (outcome (get_mia_scores example_world "target" example_config_full_ref
                    example_empty_doc_data (Some example_ref_models) None 50
                    example_full_ref_attackers)) = false.
Proof.
  apply (empty_document_breaks_reference_run example_world "target" example_config_full_ref
           example_empty_doc_data example_ref_models None 50 example_full_ref_attackers
           "B" "B" (VList [])).
  - apply (bool_decide_unpack _). vm_compute. reflexivity.
  - apply (bool_decide_unpack _). vm_compute. reflexivity.
  - vm_compute. repeat constructor.
  - reflexivity.
Defined.

(** ** The trials of the experiment script *)

(** X12. A trial of the experiment script that returns has scored every
    record it was given, in order (for fewer than [2^53] records, where the
    float quotient of the batch count is exact). Its data has no neighbours, so the
    neighbourhood attack cannot contribute: with the attack among the
    attackers a trial returns only when the configuration has a
    neighbourhood section that does not load from the cache (it fails on
    the missing section or the missing ["neighbors"] otherwise), and no
    count-suffixed key is in the table. *)
Theorem experiment_trial_scores W target_model cfg ref_models other_member_i
    (d : list (string * Attack)) predictions samples :
  outcome (experiment_trial W target_model cfg ref_models other_member_i d)
  = Ok (predictions, samples) →
  ((Z.of_nat (length other_member_i) < 2 ^ 53)%Z →
   Forall2 (λ doc sample, select_sample cfg doc = Ok sample) other_member_i samples) ∧
  (str_in NEIGHBOR (dict_keys d) = true →
   ∃ nc, neighborhood_config cfg = Some nc ∧ load_from_cache nc = false) ∧
  (∀ n, (NEIGHBOR ++ "-" ++ str_of_int n)%string ∉ dict_keys d →
        dict_get (NEIGHBOR ++ "-" ++ str_of_int n)%string predictions = None).
Proof.
  unfold experiment_trial. intros H. split; [|split].
  - intros Hlen. apply returned_samples in H. unfold visited_records, batch_texts in H.
    cbn [default from_option id records] in H.
    rewrite (n_batches_exact (Z.of_nat (length other_member_i)) 50
               ltac:(split; [lia|exact Hlen]) ltac:(split; reflexivity)) in H.
    rewrite batches_are_a_prefix in H by lia.
    rewrite take_ge in H; [exact H|].
    pose proof (Z.mul_div_le (- Z.of_nat (length other_member_i)) 50 ltac:(lia)). lia.
  - intros Hne. apply outcome_ok_inv in H. destruct H as (d' & t & H).
    unfold get_mia_scores in H.
    apply bind_ok_inv in H. destruct H as (s1 & t1 & [] & t2 & Hemit & H & _).
    apply emit_ok_inv in Hemit. destruct Hemit as (-> & _).
    apply bind_ok_inv in H. destruct H as (s3 & t5 & nb & t6 & Hnb & _).
    unfold load_neighbors in Hnb. rewrite bind_run in Hnb. unfold get at 1 in Hnb.
    cbv beta iota in Hnb. rewrite Hne in Hnb.
    destruct (neighborhood_config cfg) as [nc|]; [|discriminate].
    exists nc. split; [reflexivity|].
    destruct (load_from_cache nc); [discriminate|reflexivity].
  - intros n Hfresh. destruct (count_key_not_fixed n) as (Hs & Hd & Hl & Hr).
    eapply untouched_key_absent; try eassumption.
    assert (Hnb : loaded_neighbors cfg {| records := other_member_i; neighbors := None |}
                    (dict_keys d) = None).
    { unfold loaded_neighbors. destruct (str_in NEIGHBOR (dict_keys d)); [|reflexivity].
      destruct (neighborhood_config cfg) as [nc|]; [|reflexivity].
      destruct (load_from_cache nc); reflexivity. }
    rewrite Hnb.
    intros [Hloss|(name & Hname & [(_ & _ & _ & Heq)|(_ & nc & n' & _ & Htr & _)])].
    + contradiction.
    + subst name. apply Hfresh. exact Hname.
    + discriminate Htr.
Qed.

Lemma experiment_trial_scores_witness :
  Forall2 (λ doc sample,
             select_sample (example_config false false (Some (example_neighborhood true))) doc
             = Ok sample)
          [VStr "The cat sat."; VStr "The dog ran."]
          [VList [VStr "The cat sat."]; VList [VStr "The dog ran."]] ∧
  dict_get "ne-5" [("loss", [2; 2]%Q)] = None.
Proof.
  destruct (experiment_trial_scores example_world "target"
              (example_config false false (Some (example_neighborhood true))) None
              [VStr "The cat sat."; VStr "The dog ran."]
              (example_neighbor_attackers true) [("loss", [2; 2]%Q)]
              [VList [VStr "The cat sat."]; VList [VStr "The dog ran."]] eq_refl)
    as (Hs & _ & Hn).
  split; [apply Hs; simpl; lia|].
  apply (Hn 5%Z). apply (bool_decide_unpack _). vm_compute. reflexivity.
Defined.

(** ** What a run changes of its attackers *)

Lemma for_items_ok_state {S B} (P : S → Prop) (body : string → B → M S B) d :
  (∀ k acc s s' t acc', P s → body k acc s = (s', t, Ok acc') → P s') →
  ∀ acc d' t b, Forall (λ kv, P kv.2) d → for_items body acc d = (d', t, Ok b) →
                Forall (λ kv, P kv.2) d'.
Proof.
  intros Hbody. induction d as [|[k s] d IH]; intros acc d' t b Hd H.
  - simpl in H. injection H as <- _ _. constructor.
  - simpl in H. apply Forall_cons in Hd. destruct Hd as [Hs Hd].
    destruct (body k acc s) as [[s1 t1] [acc1|e]] eqn:Hb; [|discriminate].
    destruct (for_items body acc1 d) as [[d1 t2] r] eqn:Hrest.
    injection H as <- _ ->. constructor.
    + simpl. eapply Hbody; eassumption.
    + eapply IH; eassumption.
Qed.

Lemma dict_get_Some_elem {V} k (v : V) d : dict_get k d = Some v → (k, v) ∈ d.
Proof.
  induction d as [|[k' v'] d IH]; simpl; [discriminate|].
  destruct (String.eqb k k') eqn:E.
  - apply String.eqb_eq in E. intros H. injection H as ->. subst k'. left.
  - intros H. right. apply IH. exact H.
Qed.

(** A property of attackers that does not depend on the flag [is_loaded]
    holds of every attacker throughout a run. *)
Section AttackerState.
Variable W : Collaborators.
Variable target_model : Model.
Variable cfg : ExperimentConfig.
Variable P : Attack → Prop.
Hypothesis P_flag : ∀ b self, P self → P (set_is_loaded b self).

Lemma attack_state document probs kw (self self' : Attack) t r :
  P self → attack W document probs kw self = (self', t, r) → P self'.
Proof.
  intros HP H. pose proof (attack_final W document probs kw self) as Hf.
  rewrite H in Hf. unfold final in Hf. simpl in Hf. subst self'. apply P_flag. exact HP.
Qed.

Lemma unload_state (self self' : Attack) t r :
  P self → unload self = (self', t, r) → P self'.
Proof.
  intros HP H. rewrite unload_run in H. injection H as <- _ _.
  destruct (owns_models self); [apply P_flag|]; exact HP.
Qed.

Lemma run_attack_state nb doc_index i substr probs detok loss name si
    (self self' : Attack) t si' :
  P self →
  run_attack W cfg nb doc_index i substr probs detok loss name si self
  = (self', t, Ok si') →
  P self'.
Proof.
  intros HP. unfold run_attack.
  destruct (startswith name REFERENCE_BASED || String.eqb name LOSS).
  - intros H. apply mret_ok_inv in H. destruct H as (-> & _). exact HP.
  - destruct (negb (String.eqb name NEIGHBOR)).
    + intros H.
      apply bind_ok_inv in H. destruct H as (s3 & t4 & [] & t5 & He & H & _).
      apply emit_ok_inv in He. destruct He as (-> & _).
      apply bind_ok_inv in H. destruct H as (s4 & t6 & score & t7 & Hatt & H & _).
      apply lift_result_ok_inv in H. destruct H as (_ & -> & _).
      eapply attack_state; eassumption.
    + unfold neighbor_scores. destruct (neighborhood_config cfg) as [nc|]; [|discriminate].
      apply for_fold_ok_inv with (I := λ s _, P s); [|exact HP].
      intros acc n s s1 t1 acc1 _ Hs Hbody. unfold neighbor_step in Hbody.
      destruct (neighbors_truthy nb && negb (dump_cache nc)).
      * apply bind_ok_inv in Hbody. destruct Hbody as (s2 & t2 & sn & t3 & Hl & Hbody & _).
        apply lift_result_ok_inv in Hl. destruct Hl as (_ & -> & _).
        apply bind_ok_inv in Hbody. destruct Hbody as (s3 & t4 & [] & t5 & He & Hbody & _).
        apply emit_ok_inv in He. destruct He as (-> & _).
        apply bind_ok_inv in Hbody. destruct Hbody as (s4 & t6 & score & t7 & Hatt & Hbody & _).
        apply lift_result_ok_inv in Hbody. destruct Hbody as (_ & -> & _).
        eapply attack_state; eassumption.
      * apply mret_ok_inv in Hbody. destruct Hbody as (-> & _). exact Hs.
Qed.

Lemma process_document_state nb doc_index doc (d d' : list (string * Attack)) t si :
  Forall (λ kv, P kv.2) d →
  process_document W target_model cfg nb doc_index doc d = (d', t, Ok si) →
  Forall (λ kv, P kv.2) d'.
Proof.
  unfold process_document. intros HP H.
  apply bind_ok_inv in H. destruct H as (d1 & t1 & sample & t2 & Hsel & H & _).
  apply lift_result_ok_inv in Hsel. destruct Hsel as (_ & -> & _).
  apply bind_ok_inv in H. destruct H as (d2 & t3 & substrs & t4 & Hit & H & _).
  apply lift_result_ok_inv in Hit. destruct Hit as (_ & -> & _).
  apply bind_ok_inv in H. destruct H as (d3 & t5 & [detok si0] & t6 & Hdet & H & _).
  assert (Hd3 : d3 = d).
  { destruct (pretokenized cfg).
    - apply bind_ok_inv in Hdet. destruct Hdet as (d4 & t7 & ds & t8 & Hdec & Hr & _).
      apply mret_ok_inv in Hr. destruct Hr as (-> & _).
      rewrite decode_loop_run in Hdec. injection Hdec as <- _ _. reflexivity.
    - apply mret_ok_inv in Hdet. destruct Hdet as (-> & _). reflexivity. }
  subst d3. revert H.
  apply for_fold_ok_inv with (I := λ s _, Forall (λ kv, P kv.2) s); [|exact HP].
  intros acc [i substr] s s' t' acc' _ Hs Hbody. unfold process_substring in Hbody.
  apply bind_ok_inv in Hbody. destruct Hbody as (e1 & ? & detok_i & ? & Hdetok & Hbody & _).
  assert (He1 : e1 = s).
  { destruct (pretokenized cfg).
    - destruct detok as [ds|]; [|discriminate].
      apply bind_ok_inv in Hdetok. destruct Hdetok as (? & ? & ? & ? & Hl & Hr & _).
      apply lift_result_ok_inv in Hl. destruct Hl as (_ & -> & _).
      apply mret_ok_inv in Hr. destruct Hr as (-> & _). reflexivity.
    - apply mret_ok_inv in Hdetok. destruct Hdetok as (-> & _). reflexivity. }
  subst e1.
  apply bind_ok_inv in Hbody. destruct Hbody as (? & ? & [] & ? & He & Hbody & _).
  apply emit_ok_inv in He. destruct He as (-> & _).
  apply bind_ok_inv in Hbody. destruct Hbody as (? & ? & [] & ? & He & Hbody & _).
  apply emit_ok_inv in He. destruct He as (-> & _).
  apply bind_ok_inv in Hbody. destruct Hbody as (? & ? & si1 & ? & Hloss & Hbody & _).
  apply lift_result_ok_inv in Hloss. destruct Hloss as (_ & -> & _).
  revert Hbody. apply for_items_ok_state; [|exact Hs].
  intros k acc0 a a' t0 acc1 Ha Hrun. eapply run_attack_state; eassumption.
Qed.

Lemma primary_pass_state data nb n_samples batch_size
    (d d' : list (string * Attack)) t results :
  Forall (λ kv, P kv.2) d →
  primary_pass W target_model cfg data nb n_samples batch_size d = (d', t, Ok results) →
  Forall (λ kv, P kv.2) d'.
Proof.
  unfold primary_pass. intros HP H.
  apply bind_ok_inv in H. destruct H as (sq & tq & quotient & tq' & Hq & H & _).
  apply lift_result_ok_inv in Hq. destruct Hq as (_ & -> & _). revert H.
  apply for_fold_ok_inv with (I := λ s _, Forall (λ kv, P kv.2) s); [|exact HP].
  intros acc batch s s' t' acc' _ Hs.
  apply for_fold_ok_inv with (I := λ s _, Forall (λ kv, P kv.2) s); [|exact Hs].
  intros acc0 [idx doc] s0 s1 t0 acc1 _ Hs0 Hb.
  apply bind_ok_inv in Hb. destruct Hb as (s2 & t1 & si & t2 & Hdoc & Hr & _).
  apply mret_ok_inv in Hr. destruct Hr as (-> & _).
  eapply process_document_state; eassumption.
Qed.

Lemma reference_scores_state ref_key r (self self' : Attack) t r' :
  P self → reference_scores W cfg ref_key r self = (self', t, Ok r') → P self'.
Proof.
  intros HP. unfold reference_scores. intros H.
  apply bind_ok_inv in H. destruct H as (s1 & t1 & sample & t2 & Hs & H & _).
  apply lift_result_ok_inv in Hs. destruct Hs as (_ & -> & _).
  apply bind_ok_inv in H. destruct H as (s2 & t3 & substrs & t4 & Hit & H & _).
  apply lift_result_ok_inv in Hit. destruct Hit as (_ & -> & _).
  apply bind_ok_inv in H. destruct H as (s3 & t5 & scores & t6 & Hloop & H & _).
  apply lift_result_ok_inv in H. destruct H as (_ & -> & _).
  revert Hloop. apply for_fold_ok_inv with (I := λ s _, P s); [|exact HP].
  intros acc [i s] a a' t0 acc' _ Ha Hbody.
  apply bind_ok_inv in Hbody. destruct Hbody as (a1 & ? & s' & ? & Hs' & Hbody & _).
  assert (Ha1 : a1 = a).
  { destruct (pretokenized cfg).
    - apply bind_ok_inv in Hs'. destruct Hs' as (? & ? & ? & ? & Hl & Hr & _).
      apply lift_result_ok_inv in Hl. destruct Hl as (_ & -> & _).
      apply lift_result_ok_inv in Hr. destruct Hr as (_ & -> & _). reflexivity.
    - apply mret_ok_inv in Hs'. destruct Hs' as (-> & _). reflexivity. }
  subst a1.
  apply bind_ok_inv in Hbody. destruct Hbody as (? & ? & loss & ? & Hl & Hbody & _).
  apply lift_result_ok_inv in Hl. destruct Hl as (_ & -> & _).
  apply bind_ok_inv in Hbody. destruct Hbody as (? & ? & [] & ? & He & Hbody & _).
  apply emit_ok_inv in He. destruct He as (-> & _).
  apply bind_ok_inv in Hbody. destruct Hbody as (? & ? & score & ? & Hatt & Hbody & _).
  apply mret_ok_inv in Hbody. destruct Hbody as (-> & _).
  eapply attack_state; eassumption.
Qed.

Lemma reference_model_pass_state results x (d d' : list (string * Attack)) t results' :
  Forall (λ kv, P kv.2) d →
  reference_model_pass W cfg results x d = (d', t, Ok results') →
  Forall (λ kv, P kv.2) d'.
Proof.
  destruct x as [name m]. unfold reference_model_pass. intros HP Hbody.
  apply bind_ok_inv in Hbody. destruct Hbody as (s1 & t1 & ad & t2 & Hget & Hbody & _).
  apply get_ok_inv in Hget. destruct Hget as (-> & _ & ->).
  destruct (dict_get (ref_key_of (member_format W) name) d) as [a|] eqn:Ha.
  - apply bind_ok_inv in Hbody. destruct Hbody as (s2 & t3 & res & t4 & Hloop & Hbody & _).
    apply bind_ok_inv in Hbody. destruct Hbody as (s3 & t5 & [] & t6 & Hemit & Hbody & _).
    apply emit_ok_inv in Hemit. destruct Hemit as (-> & _).
    apply bind_ok_inv in Hbody. destruct Hbody as (s4 & t7 & [] & t8 & Hun & Hbody & _).
    apply mret_ok_inv in Hbody. destruct Hbody as (-> & _).
    apply on_item_ok_inv in Hloop. destruct Hloop as (a0 & a1 & Ha0 & Hloop & ->).
    apply on_item_ok_inv in Hun. destruct Hun as (a2 & a3 & Ha2 & Hun & ->).
    rewrite Ha in Ha0. injection Ha0 as <-.
    rewrite dict_get_set_eq in Ha2. injection Ha2 as <-.
    assert (Pa : P a).
    { apply dict_get_Some_elem in Ha.
      exact (proj1 (Forall_forall _ _) HP _ Ha). }
    assert (Pa1 : P a1).
    { revert Hloop. apply for_fold_ok_inv with (I := λ s _, P s); [|exact Pa].
      intros acc r s s' t0 acc' _ Hs Hb.
      apply bind_ok_inv in Hb. destruct Hb as (s5 & t9 & r' & t10 & Hr & Hret & _).
      apply mret_ok_inv in Hret. destruct Hret as (-> & _).
      eapply reference_scores_state; eassumption. }
    apply (dict_set_Forall (λ _ a, P a)); [|eapply unload_state; eassumption].
    apply (dict_set_Forall (λ _ a, P a)); assumption.
  - apply mret_ok_inv in Hbody. destruct Hbody as (-> & _). exact HP.
Qed.
End AttackerState.

(** ** Reference attackers and pretokenized input *)

(** An attacker whose configuration is pretokenized cannot score a record
    with a substring in the second pass: the call carries no
    [detokenized_sample]. *)
Lemma reference_scores_pretokenized W cfg ref_key r (self self' : Attack) t r'
    sample x xs :
  pretokenized (config self) = true →
  dict_get "sample" r = Some (Raw sample) →
  value_iter sample = Ok (x :: xs) →
  reference_scores W cfg ref_key r self ≠ (self', t, Ok r').
Proof.
  intros HP Hsample Hit H. unfold reference_scores in H.
  apply bind_ok_inv in H. destruct H as (s1 & t1 & sample0 & t2 & Hs & H & _).
  apply lift_result_ok_inv in Hs. destruct Hs as (Hs & -> & _).
  unfold dict_raw in Hs. rewrite Hsample in Hs. injection Hs as <-.
  apply bind_ok_inv in H. destruct H as (s2 & t3 & substrs & t4 & Hit' & H & _).
  apply lift_result_ok_inv in Hit'. destruct Hit' as (Hit' & -> & _).
  rewrite Hit in Hit'. injection Hit' as <-.
  apply bind_ok_inv in H. destruct H as (s3 & t5 & scores & t6 & Hloop & _).
  change (enumerate (x :: xs)) with ((0%nat, x) :: zip (seq 1 (length xs)) xs) in Hloop.
  rewrite for_fold_cons in Hloop.
  match type of Hloop with
  | context [match ?b with _ => _ end] =>
      destruct b as [[a1 ta] [acc1|e]] eqn:Hbody; [|discriminate]
  end.
  clear Hloop.
  apply bind_ok_inv in Hbody. destruct Hbody as (a0 & ? & s' & ? & Hs' & Hbody & _).
  assert (Ha0 : a0 = self).
  { destruct (pretokenized cfg).
    - apply bind_ok_inv in Hs'. destruct Hs' as (? & ? & ? & ? & Hl & Hr & _).
      apply lift_result_ok_inv in Hl. destruct Hl as (_ & -> & _).
      apply lift_result_ok_inv in Hr. destruct Hr as (_ & -> & _). reflexivity.
    - apply mret_ok_inv in Hs'. destruct Hs' as (-> & _). reflexivity. }
  subst a0.
  apply bind_ok_inv in Hbody. destruct Hbody as (? & ? & loss & ? & Hl & Hbody & _).
  apply lift_result_ok_inv in Hl. destruct Hl as (_ & -> & _).
  apply bind_ok_inv in Hbody. destruct Hbody as (? & ? & [] & ? & He & Hbody & _).
  apply emit_ok_inv in He. destruct He as (-> & _).
  apply bind_ok_inv in Hbody. destruct Hbody as (? & ? & score & ? & Hatt & _).
  rewrite attack_run in Hatt. unfold guarded_attack in Hatt.
  destruct (is_loaded self); simpl in Hatt; rewrite HP in Hatt; discriminate Hatt.
Qed.

(** X13. A reference attacker that inherits [attack()] and whose
    configuration is pretokenized cannot be used by the pipeline: the second
    pass calls it without a [detokenized_sample], so a run with such an
    attacker for one of its reference models and a visited document with at
    least one substring does not return. *)
Theorem pretokenized_reference_run_fails W target_model cfg data rms n_samples
    batch_size (d : list (string * Attack)) name m doc :
  Forall (λ kv, pretokenized (config kv.2) = true) d →
  (name, m) ∈ rms →
  ref_key_of (member_format W) name ∈ dict_keys d →
  doc ∈ visited_records data n_samples batch_size →
  substrings cfg doc ≠ [] →
  is_ok (outcome (get_mia_scores W target_model cfg data (Some rms) n_samples
                    batch_size d)) = false.
Proof.
  intros HP Hin Hkey Hdoc Hsub.
  destruct (outcome (get_mia_scores W target_model cfg data (Some rms) n_samples
                       batch_size d)) as [[predictions samples]|e] eqn:Hrun;
    [exfalso|reflexivity].
  apply outcome_ok_inv in Hrun. destruct Hrun as (d' & t & H).
  unfold get_mia_scores in H.
  apply bind_ok_inv in H. destruct H as (s1 & t1 & [] & t2 & Hemit & H & _).
  apply emit_ok_inv in Hemit. destruct Hemit as (-> & _).
  apply bind_ok_inv in H. destruct H as (s3 & t5 & nb & t6 & Hnb & H & _).
  destruct (load_neighbors_run cfg data d) as (tn & rn & Hload & _ & _).
  rewrite Hload in Hnb. injection Hnb as <- _ _.
  apply bind_ok_inv in H. destruct H as (s4 & t7 & results1 & t8 & Hp & H & _).
  apply bind_ok_inv in H. destruct H as (s5 & t9 & results2 & t10 & Hr & _).
  pose proof (primary_pass_records _ _ _ _ _ _ _ _ _ _ _ Hp) as [Hkeys Hrec1].
  fold (visited_records data n_samples batch_size) in Hrec1.
  pose proof (primary_pass_state W target_model cfg
                (λ a, pretokenized (config a) = true) ltac:(intros b a Ha; exact Ha)
                _ _ _ _ _ _ _ _ HP Hp) as HP4.
  (* the record of the document *)
  apply list_elem_of_lookup in Hdoc. destruct Hdoc as [idx Hidx].
  destruct (Forall2_lookup_l _ _ _ _ _ Hrec1 Hidx)
    as (r1 & Hr1 & sample & si0 & Hsel & Hinit & Hg1).
  assert (Hsample : dict_get "sample" r1 = Some (Raw sample)).
  { eapply grown_raw; [exact Hg1|]. apply initial_record_sample. exact Hinit. }
  assert (Hit : ∃ x xs, value_iter sample = Ok (x :: xs)).
  { unfold substrings in Hsub. rewrite Hsel in Hsub.
    destruct (value_iter sample) as [[|x xs]|]; try congruence. eauto. }
  destruct Hit as (x & xs & Hit).
  (* the rounds before the one of the model *)
  unfold reference_pass in Hr.
  apply list_elem_of_split in Hin. destruct Hin as (rms1 & rms2 & ->).
  rewrite for_fold_app in Hr.
  destruct (for_fold (reference_model_pass W cfg) results1 rms1 s4)
    as [[sa ta] [results_a|e]] eqn:Hbefore; [|discriminate].
  rewrite for_fold_cons in Hr.
  destruct (reference_model_pass W cfg results_a (name, m) sa)
    as [[sb tb] [results_b|e]] eqn:Hround; [|discriminate].
  clear Hr.
  assert (Hinv : dict_keys sa = dict_keys d ∧
                 Forall (λ kv, pretokenized (config kv.2) = true) sa ∧
                 Forall2 (grown reference_key) results1 results_a).
  { revert Hbefore.
    apply for_fold_ok_inv
      with (I := λ s acc, dict_keys s = dict_keys d ∧
                          Forall (λ kv, pretokenized (config kv.2) = true) s ∧
                          Forall2 (grown reference_key) results1 acc).
    - intros acc y s s' t' acc' _ (Hk & Hs & Hacc) Hbody.
      pose proof (reference_model_pass_records W cfg _ _ _ _ _ _ Hbody) as [Hk' Hg].
      split; [congruence|]. split.
      + eapply (reference_model_pass_state W cfg (λ a, pretokenized (config a) = true));
          [intros b a Ha; exact Ha|exact Hs|exact Hbody].
      + eapply Forall2_trans; [|exact Hacc|exact Hg].
        intros r0 ra rb H0 Hb. eapply grown_trans; eassumption.
    - split; [exact Hkeys|]. split; [exact HP4|].
      apply Forall_Forall2_diag, Forall_forall. intros. constructor. }
  destruct Hinv as (Hka & HPa & Hga).
  destruct (Forall2_lookup_l _ _ _ _ _ Hga Hr1) as (ra & Hra & Hgra).
  assert (Hsample_a : dict_get "sample" ra = Some (Raw sample)).
  { eapply grown_raw; eassumption. }
  (* the round of the model *)
  unfold reference_model_pass in Hround.
  apply bind_ok_inv in Hround. destruct Hround as (? & ? & ad & ? & Hget & Hround & _).
  apply get_ok_inv in Hget. destruct Hget as (-> & _ & ->).
  destruct (dict_get (ref_key_of (member_format W) name) sa) as [a|] eqn:Ha.
  2: { apply dict_get_None_keys in Ha. apply Ha. rewrite Hka. exact Hkey. }
  apply bind_ok_inv in Hround. destruct Hround as (? & ? & res & ? & Hloop & _).
  apply on_item_ok_inv in Hloop. destruct Hloop as (a0 & a1 & Ha0 & Hloop & _).
  rewrite Ha in Ha0. injection Ha0 as <-.
  assert (Pa : pretokenized (config a) = true).
  { apply dict_get_Some_elem in Ha. exact (proj1 (Forall_forall _ _) HPa _ Ha). }
  assert (Hnone : pretokenized (config a1) = true ∧
                  Forall (λ r, dict_get "sample" r ≠ Some (Raw sample)) ([] ++ results_a)).
  { revert Hloop.
    apply for_fold_ok_rel
      with (I := λ done s (_ : list sample_information),
                 pretokenized (config s) = true ∧
                 Forall (λ r, dict_get "sample" r ≠ Some (Raw sample)) done).
    - intros done acc r s s' t0 acc' [Hs Hdone] Hb.
      apply bind_ok_inv in Hb. destruct Hb as (s6 & ? & r' & ? & Hscore & Hret & _).
      apply mret_ok_inv in Hret. destruct Hret as (-> & _).
      split.
      + eapply (reference_scores_state W cfg (λ a, pretokenized (config a) = true));
          [intros b a' Ha'; exact Ha'|exact Hs|exact Hscore].
      + apply Forall_app. split; [exact Hdone|]. constructor; [|constructor].
        intros Hr. eapply reference_scores_pretokenized; eassumption.
    - split; [exact Pa|constructor]. }
  destruct Hnone as [_ Hnone]. simpl in Hnone.
  apply (proj1 (Forall_forall _ _) Hnone ra); [|exact Hsample_a].
  eapply list_elem_of_lookup_2. exact Hra.
Qed.

Lemma pretokenized_reference_run_fails_witness :
  is_ok (outcome (get_mia_scores example_world "target" (example_config_ref true)
                    example_data (Some example_ref_models) None 50
                    (example_ref_attackers true))) = false.
Proof.
  apply (pretokenized_reference_run_fails example_world "target" (example_config_ref true)
           example_data example_ref_models None 50 (example_ref_attackers true)
           "B" "B" (VStr "The cat sat.")).
  - repeat constructor.
  - apply (bool_decide_unpack _). vm_compute. reflexivity.
  - apply (bool_decide_unpack _). vm_compute. reflexivity.
  - vm_compute. repeat constructor.
  - discriminate.
Defined.

(** ** The reference attackers after a run *)

Lemma reference_pass_unloads W cfg rms results (d d' : list (string * Attack)) t results'
    name m a :
  for_fold (reference_model_pass W cfg) results rms d = (d', t, Ok results') →
  (name, m) ∈ rms →
  dict_get (ref_key_of (member_format W) name) d' = Some a →
  owns_models a = true →
  is_loaded a = false.
Proof.
  intros H Hin.
  set (I := λ (done : list (string * Model)) (s : list (string * Attack))
              (_ : list sample_information),
              ∀ name m a, (name, m) ∈ done →
                          dict_get (ref_key_of (member_format W) name) s = Some a →
                          owns_models a = true → is_loaded a = false).
  assert (Hinv : I ([] ++ rms) d' results');
    [|exact (Hinv name m a Hin)].
  revert H. apply for_fold_ok_rel; unfold I.
  - clear a. intros done acc [name' m'] s s' t' acc' Hdone Hbody n0 m0 a Hn0 Hget Howns.
    unfold reference_model_pass in Hbody.
    apply bind_ok_inv in Hbody. destruct Hbody as (s1 & t1 & ad & t2 & Hg & Hbody & _).
    apply get_ok_inv in Hg. destruct Hg as (-> & _ & ->).
    destruct (dict_get (ref_key_of (member_format W) name') s) as [a0|] eqn:Ha0.
    + apply bind_ok_inv in Hbody. destruct Hbody as (s2 & t3 & res & t4 & Hloop & Hbody & _).
      apply bind_ok_inv in Hbody. destruct Hbody as (s3 & t5 & [] & t6 & Hemit & Hbody & _).
      apply emit_ok_inv in Hemit. destruct Hemit as (-> & _).
      apply bind_ok_inv in Hbody. destruct Hbody as (s4 & t7 & [] & t8 & Hun & Hbody & _).
      apply mret_ok_inv in Hbody. destruct Hbody as (-> & _).
      apply on_item_ok_inv in Hloop. destruct Hloop as (b0 & a1 & _ & _ & ->).
      apply on_item_ok_inv in Hun. destruct Hun as (a2 & a3 & Ha2 & Hun & ->).
      rewrite unload_run in Hun. injection Hun as <- _.
      destruct (String.eqb (ref_key_of (member_format W) name') (ref_key_of (member_format W) n0)) eqn:E.
      * apply String.eqb_eq in E. rewrite <- E, dict_get_set_eq in Hget.
        injection Hget as <-.
        destruct (owns_models a2) eqn:Ho2; [reflexivity|congruence].
      * apply String.eqb_neq in E. rewrite !dict_get_set_ne in Hget by exact E.
        apply elem_of_app in Hn0. destruct Hn0 as [Hn0|Hn0].
        -- eapply Hdone; eassumption.
        -- apply list_elem_of_singleton in Hn0. injection Hn0 as -> ->. contradiction.
    + apply mret_ok_inv in Hbody. destruct Hbody as (-> & _).
      apply elem_of_app in Hn0. destruct Hn0 as [Hn0|Hn0].
      * eapply Hdone; eassumption.
      * apply list_elem_of_singleton in Hn0. injection Hn0 as -> ->. congruence.
  - intros n0 m0 a' Habs. apply elem_of_nil in Habs. contradiction.
Qed.

(** X14. When a run returns, the attacker of every reference model of the
    run is unloaded again: if it owns a model, its flag [is_loaded] is
    false in the dictionary the run leaves behind. *)
Theorem reference_attackers_end_unloaded W target_model cfg data rms n_samples
    batch_size (d : list (string * Attack)) name m a :
  let run := get_mia_scores W target_model cfg data (Some rms) n_samples batch_size d in
  is_ok (outcome run) = true →
  (name, m) ∈ rms →
  dict_get (ref_key_of (member_format W) name) (final run) = Some a →
  owns_models a = true →
  is_loaded a = false.
Proof.
  intros run Hok Hin Hget Howns. unfold run in *. clear run.
  destruct (get_mia_scores W target_model cfg data (Some rms) n_samples batch_size d)
    as [[d' t] [[predictions samples]|e]] eqn:H; [|discriminate].
  unfold final in Hget. simpl in Hget. clear Hok.
  unfold get_mia_scores in H.
  apply bind_ok_inv in H. destruct H as (s1 & t1 & [] & t2 & _ & H & _).
  apply bind_ok_inv in H. destruct H as (s3 & t5 & nb & t6 & _ & H & _).
  apply bind_ok_inv in H. destruct H as (s4 & t7 & results1 & t8 & _ & H & _).
  apply bind_ok_inv in H. destruct H as (s5 & t9 & results2 & t10 & Hr & H & _).
  apply lift_result_ok_inv in H. destruct H as (_ & -> & _).
  unfold reference_pass in Hr.
  eapply reference_pass_unloads; eassumption.
Qed.

Lemma reference_attackers_end_unloaded_witness :
  ∃ a, dict_get "ref-B"
         (final (get_mia_scores example_world "target" (example_config_ref false)
                   example_data (Some example_ref_models) None 50
                   (example_ref_attackers false))) = Some a ∧
       ref_model a = Some "B" ∧ is_loaded a = false.
Proof.
  eexists. split; [vm_compute; reflexivity|]. split; [reflexivity|].
  apply (reference_attackers_end_unloaded example_world "target" (example_config_ref false)
           example_data example_ref_models None 50 (example_ref_attackers false)
           "B" "B").
  - reflexivity.
  - apply (bool_decide_unpack _). vm_compute. reflexivity.
  - vm_compute. reflexivity.
  - reflexivity.
Defined.

(** ** The columns of the table *)

Lemma dict_extend_has k xs d d' k0 :
  dict_extend k xs d = Ok d' →
  is_Some (dict_get k d') ∧ (is_Some (dict_get k0 d) → is_Some (dict_get k0 d')).
Proof.
  intros H. assert (Hk : is_Some (dict_get k d')).
  { unfold dict_extend in H. destruct (dict_get k d) as [[v|l]|]; try discriminate;
      injection H as <-; rewrite dict_get_set_eq; eauto. }
  split; [exact Hk|]. intros H0. destruct (String.eqb k k0) eqn:E.
  - apply String.eqb_eq in E. subst k0. exact Hk.
  - apply String.eqb_neq in E. rewrite (dict_extend_other _ _ _ _ _ H E). exact H0.
Qed.

Lemma grown_has allowed d d' k0 :
  grown allowed d d' → is_Some (dict_get k0 d) → is_Some (dict_get k0 d').
Proof.
  intros H H0. induction H as [|d d1 d2 k xs _ IH Hk He]; [exact H0|].
  eapply (proj2 (dict_extend_has _ _ _ _ k0 He)). exact (IH H0).
Qed.

Lemma dict_append_has k x d d' :
  dict_append k x d = Ok d' → is_Some (dict_get k d').
Proof.
  rewrite dict_append_extend. intros H. exact (proj1 (dict_extend_has _ _ _ _ k H)).
Qed.

(** What every round of a loop over the attackers establishes for its key,
    and no round undoes, holds of every key when the loop is over. *)
Lemma for_items_ok_each {S B} (Q : string → B → Prop) (body : string → B → M S B) d :
  (∀ k acc s s' t acc',
     body k acc s = (s', t, Ok acc') → Q k acc' ∧ ∀ k', Q k' acc → Q k' acc') →
  ∀ acc d' t b, for_items body acc d = (d', t, Ok b) → ∀ k, k ∈ dict_keys d → Q k b.
Proof.
  intros Hbody. induction d as [|[k0 s] d IH]; intros acc d' t b H k Hk.
  - apply elem_of_nil in Hk. contradiction.
  - simpl in H. destruct (body k0 acc s) as [[s1 t1] [acc1|e]] eqn:Hb; [|discriminate].
    destruct (for_items body acc1 d) as [[d1 t2] r] eqn:Hrest.
    injection H as _ _ ->.
    destruct (Hbody _ _ _ _ _ _ Hb) as [Hq _].
    unfold dict_keys in Hk. simpl in Hk. apply elem_of_cons in Hk.
    destruct (decide (k ∈ dict_keys d)) as [Hin|Hni].
    + eapply IH; eassumption.
    + destruct Hk as [->|Hk]; [|contradiction].
      clear IH Hni. revert Hrest Hq. generalize acc1 d1 t2. clear -Hbody.
      induction d as [|[k1 s1] d IH]; intros acc d' t H Hq.
      * simpl in H. injection H as _ _ <-. exact Hq.
      * simpl in H. destruct (body k1 acc s1) as [[s2 t1] [acc2|e]] eqn:Hb; [|discriminate].
        destruct (for_items body acc2 d) as [[d2 t2] r] eqn:Hrest.
        injection H as _ _ ->.
        eapply IH; [exact Hrest|]. eapply (proj2 (Hbody _ _ _ _ _ _ Hb)). exact Hq.
Qed.

Section Columns.
Variable W : Collaborators.
Variable target_model : Model.
Variable cfg : ExperimentConfig.
Variable nb : option (gmap Z (list (list value))).

(** A round of the attack loop leaves a score under every key it may
    write. *)
Lemma run_attack_has doc_index i substr probs detok loss name si
    (self self' : Attack) t si' k :
  run_attack W cfg nb doc_index i substr probs detok loss name si self
  = (self', t, Ok si') →
  may_append cfg nb name k → is_Some (dict_get k si').
Proof.
  unfold run_attack. intros H Hk.
  destruct (startswith name REFERENCE_BASED || String.eqb name LOSS) eqn:Hskip.
  - exfalso. apply orb_true_iff in Hskip.
    destruct Hk as [(Href & Hloss & _)|(-> & _)].
    + destruct Hskip as [Hs|Hs]; [congruence|]. apply String.eqb_eq in Hs. contradiction.
    + destruct Hskip as [Hs|Hs]; discriminate Hs.
  - destruct (String.eqb name NEIGHBOR) eqn:Hne; simpl in H.
    + apply String.eqb_eq in Hne.
      destruct Hk as [(_ & _ & Hn & _)|(_ & nc & n & Hnc & Htr & Hdump & Hn & ->)];
        [contradiction|].
      unfold neighbor_scores in H. rewrite Hnc in H.
      assert (Hall : ∀ n', n' ∈ [] ++ n_perturbation_list nc →
                           is_Some (dict_get (name ++ "-" ++ str_of_int n')%string si'));
        [|apply Hall; exact Hn].
      set (I := λ (done : list Z) (_ : Attack) (acc : sample_information),
                  ∀ n', n' ∈ done →
                        is_Some (dict_get (name ++ "-" ++ str_of_int n')%string acc)).
      change (I ([] ++ n_perturbation_list nc) self' si').
      revert H. apply for_fold_ok_rel; unfold I.
      * intros done acc x s s1 t1 acc1 Hdone Hbody n' Hn'. unfold neighbor_step in Hbody.
        rewrite Htr, Hdump in Hbody. simpl in Hbody.
        apply bind_ok_inv in Hbody. destruct Hbody as (s2 & t2 & sn & t3 & _ & Hbody & _).
        apply bind_ok_inv in Hbody. destruct Hbody as (s3 & t4 & [] & t5 & _ & Hbody & _).
        apply bind_ok_inv in Hbody. destruct Hbody as (s4 & t6 & score & t7 & _ & Hbody & _).
        apply lift_result_ok_inv in Hbody. destruct Hbody as (Happ & _ & _).
        rewrite dict_append_extend in Happ.
        apply elem_of_app in Hn'. destruct Hn' as [Hn'|Hn'].
        -- eapply (proj2 (dict_extend_has _ _ _ _ _ Happ)). apply Hdone. exact Hn'.
        -- apply list_elem_of_singleton in Hn'. subst n'.
           exact (proj1 (dict_extend_has _ _ _ _ name Happ)).
      * intros n' Habs. apply elem_of_nil in Habs. contradiction.
    + apply String.eqb_neq in Hne.
      destruct Hk as [(_ & _ & _ & ->)|(-> & _)]; [|contradiction].
      apply bind_ok_inv in H. destruct H as (s3 & t4 & [] & t5 & _ & H & _).
      apply bind_ok_inv in H. destruct H as (s4 & t6 & score & t7 & _ & H & _).
      apply lift_result_ok_inv in H. destruct H as (Happ & _ & _).
      eapply dict_append_has. exact Happ.
Qed.

(** After a substring is processed its record holds a score under every key
    of the first pass. *)
Lemma process_substring_has doc_index detokenized_sample si x
    (d d' : list (string * Attack)) t si' k :
  process_substring W target_model cfg nb doc_index detokenized_sample si x d
  = (d', t, Ok si') →
  primary_key cfg nb (dict_keys d) k → is_Some (dict_get k si').
Proof.
  destruct x as [i substr]. unfold process_substring. intros H Hk.
  apply bind_ok_inv in H. destruct H as (d1 & t1 & detok_i & t2 & Hdetok & H & _).
  assert (Hd1 : d1 = d).
  { destruct (pretokenized cfg).
    - destruct detokenized_sample as [ds|]; [|discriminate].
      apply bind_ok_inv in Hdetok. destruct Hdetok as (? & ? & ? & ? & Hl & Hr & _).
      apply lift_result_ok_inv in Hl. destruct Hl as (_ & -> & _).
      apply mret_ok_inv in Hr. destruct Hr as (-> & _). reflexivity.
    - apply mret_ok_inv in Hdetok. destruct Hdetok as (-> & _). reflexivity. }
  subst d1.
  apply bind_ok_inv in H. destruct H as (d2 & t3 & [] & t4 & He1 & H & _).
  apply emit_ok_inv in He1. destruct He1 as (-> & _).
  apply bind_ok_inv in H. destruct H as (d3 & t5 & [] & t6 & He2 & H & _).
  apply emit_ok_inv in He2. destruct He2 as (-> & _).
  apply bind_ok_inv in H. destruct H as (d4 & t7 & si1 & t8 & Hloss & H & _).
  apply lift_result_ok_inv in Hloss. destruct Hloss as (Hloss & -> & _).
  destruct Hk as [->|(name & Hname & Hk)].
  - revert H. apply for_items_ok_inv with (I := λ acc, is_Some (dict_get LOSS acc)).
    + intros k' acc s s' t' acc' _ Hacc Hbody.
      eapply grown_has; [eapply run_attack_grown; exact Hbody|exact Hacc].
    + eapply dict_append_has. exact Hloss.
  - eapply (for_items_ok_each
              (λ name acc, ∀ k, may_append cfg nb name k → is_Some (dict_get k acc)));
      [|exact H|exact Hname|exact Hk].
    intros k0 acc s s' t' acc' Hbody. split.
    + intros k1 Hk1. eapply run_attack_has; eassumption.
    + intros k' Hq k1 Hk1.
      eapply grown_has; [eapply run_attack_grown; exact Hbody|]. apply Hq. exact Hk1.
Qed.

(** The record of a document with a substring holds a score under every
    key of the first pass. *)
Lemma process_document_has doc_index doc (d d' : list (string * Attack)) t si k :
  process_document W target_model cfg nb doc_index doc d = (d', t, Ok si) →
  substrings cfg doc ≠ [] →
  primary_key cfg nb (dict_keys d) k → is_Some (dict_get k si).
Proof.
  unfold process_document. intros H Hne Hk.
  apply bind_ok_inv in H. destruct H as (d1 & t1 & sample & t2 & Hsel & H & _).
  apply lift_result_ok_inv in Hsel. destruct Hsel as (Hsel & -> & _).
  apply bind_ok_inv in H. destruct H as (d2 & t3 & substrs & t4 & Hit & H & _).
  apply lift_result_ok_inv in Hit. destruct Hit as (Hit & -> & _).
  unfold substrings in Hne. rewrite Hsel, Hit in Hne.
  apply bind_ok_inv in H. destruct H as (d3 & t5 & [detok si0] & t6 & Hdet & H & _).
  assert (Hd3 : d3 = d).
  { destruct (pretokenized cfg).
    - apply bind_ok_inv in Hdet. destruct Hdet as (d4 & t7 & ds & t8 & Hdec & Hr & _).
      apply mret_ok_inv in Hr. destruct Hr as (-> & _).
      rewrite decode_loop_run in Hdec. injection Hdec as <- _ _. reflexivity.
    - apply mret_ok_inv in Hdet. destruct Hdet as (-> & _). reflexivity. }
  subst d3.
  set (I := λ (done : list (nat * value)) (s : list (string * Attack))
              (acc : sample_information),
              dict_keys s = dict_keys d ∧ (done ≠ [] → is_Some (dict_get k acc))).
  assert (Hinv : I ([] ++ enumerate substrs) d' si).
  { revert H. apply for_fold_ok_rel; unfold I.
    - intros done acc x s s' t' acc' [Hkeys _] Hbody.
      pose proof (process_substring_grown W target_model cfg nb _ _ _ _ _ _ _ _ Hbody)
        as [_ Hkeys'].
      split; [congruence|]. intros _.
      eapply process_substring_has; [exact Hbody|]. rewrite Hkeys. exact Hk.
    - split; [reflexivity|]. congruence. }
  destruct Hinv as [_ Hinv]. apply Hinv. simpl. intros Habs.
  apply Hne. rewrite <- (enumerate_snd substrs), Habs. reflexivity.
Qed.

(** Every record the first pass returns satisfies what [process_document]
    guarantees of the record of its document, for attackers under the keys
    the pass starts with. *)
Lemma primary_pass_rel_keys (R : value → sample_information → Prop) data n_samples
    batch_size (d d' : list (string * Attack)) t results :
  (∀ doc_index doc (d0 d1 : list (string * Attack)) t0 si,
     dict_keys d0 = dict_keys d →
     process_document W target_model cfg nb doc_index doc d0 = (d1, t0, Ok si) →
     R doc si) →
  primary_pass W target_model cfg data nb n_samples batch_size d = (d', t, Ok results) →
  Forall2 R
          (batch_texts data n_samples batch_size)
          results.
Proof.
  intros HR. unfold primary_pass, batch_texts, n_batches. intros H.
  apply bind_ok_inv in H. destruct H as (sq & tq & quotient & tq' & Hq & H & _).
  apply lift_result_ok_inv in Hq. destruct Hq as (Hq & -> & _). rewrite Hq.
  set (texts := λ batch : Z, py_slice (records data) (batch * batch_size)
                                      ((batch + 1) * batch_size)) in *.
  set (I := λ (done : list Z) (s : list (string * Attack))
              (acc : list sample_information),
              dict_keys s = dict_keys d ∧ Forall2 R (concat (map texts done)) acc).
  assert (Hinv : I ([] ++ range (math_ceil quotient)) d' results);
    [|exact (proj2 Hinv)].
  revert H. apply for_fold_ok_rel; unfold I; [|split; [reflexivity|constructor]].
  intros done acc batch s s' t' acc' [Hk Hacc] Hbody.
  rewrite map_app, concat_app. simpl. rewrite app_nil_r.
  rewrite <- (enumerate_snd (texts batch)).
  set (I' := λ (done' : list (nat * value)) (s : list (string * Attack))
               (acc : list sample_information),
               dict_keys s = dict_keys d ∧
               Forall2 R (concat (map texts done) ++ done'.*2) acc).
  change (I' ([] ++ enumerate (texts batch)) s' acc').
  revert Hbody. apply for_fold_ok_rel; unfold I'.
  - intros done' acc0 [idx doc] s0 s1 t0 acc1 [Hk0 Hacc0] Hb.
    apply bind_ok_inv in Hb. destruct Hb as (s2 & t1 & si & t2 & Hdoc & Hr & _).
    apply mret_ok_inv in Hr. destruct Hr as (-> & _ & ->).
    pose proof (process_document_grown W target_model cfg nb _ _ _ _ _ _ Hdoc) as [Hk1 _].
    split; [congruence|].
    rewrite fmap_app, app_assoc. apply Forall2_app; [exact Hacc0|].
    constructor; [|constructor]. eapply HR; [exact Hk0|exact Hdoc].
  - simpl. rewrite app_nil_r. auto.
Qed.

Lemma reference_scores_has ref_key r (self self' : Attack) t r' :
  reference_scores W cfg ref_key r self = (self', t, Ok r') →
  is_Some (dict_get ref_key r').
Proof.
  unfold reference_scores. intros H.
  apply bind_ok_inv in H. destruct H as (s1 & t1 & sample & t2 & _ & H & _).
  apply bind_ok_inv in H. destruct H as (s2 & t3 & substrs & t4 & _ & H & _).
  apply bind_ok_inv in H. destruct H as (s3 & t5 & scores & t6 & _ & H & _).
  apply lift_result_ok_inv in H. destruct H as (H & _ & _).
  exact (proj1 (dict_extend_has _ _ _ _ ref_key H)).
Qed.

(** The second pass writes under the keys of the reference models with an
    attacker, and under no other. *)
Lemma reference_pass_scored rms results (d d' : list (string * Attack)) t results' :
  for_fold (reference_model_pass W cfg) results rms d = (d', t, Ok results') →
  Forall2 (grown (scored_reference_key (member_format W) rms (dict_keys d))) results results'.
Proof.
  intros H.
  assert (Hinv : dict_keys d' = dict_keys d ∧
                 Forall2 (grown (scored_reference_key (member_format W) rms (dict_keys d))) results results');
    [|exact (proj2 Hinv)].
  revert H.
  apply for_fold_ok_inv
    with (I := λ s acc, dict_keys s = dict_keys d ∧
                        Forall2 (grown (scored_reference_key (member_format W) rms (dict_keys d))) results acc).
  - intros acc [name m] s s' t' acc' Hin [Hk Hacc] Hbody.
    pose proof (reference_model_pass_records W cfg _ _ _ _ _ _ Hbody) as [Hk' _].
    split; [congruence|].
    apply reference_model_pass_steps in Hbody. destruct Hbody as [[_ ->]|[Hsome Hstep]];
      [exact Hacc|].
    eapply Forall2_trans; [|exact Hacc|exact Hstep].
    intros r0 r1 r2 H01 (self & self' & t0 & Hscore).
    eapply grown_trans; [exact H01|].
    eapply grown_mono; [|eapply reference_scores_grown; exact Hscore].
    intros k ->. exists name, m. split; [exact Hin|]. split; [reflexivity|].
    rewrite <- Hk. destruct (decide (ref_key_of (member_format W) name ∈ dict_keys s)) as [Hi|Hni]; [exact Hi|].
    apply dict_get_None_keys in Hni. rewrite Hni in Hsome. destruct Hsome as [? Habs].
    discriminate Habs.
  - split; [reflexivity|]. apply Forall_Forall2_diag, Forall_forall. intros. constructor.
Qed.

Lemma reference_pass_has rms results (d d' : list (string * Attack)) t results' k :
  for_fold (reference_model_pass W cfg) results rms d = (d', t, Ok results') →
  scored_reference_key (member_format W) rms (dict_keys d) k →
  Forall (λ r', is_Some (dict_get k r')) results'.
Proof.
  intros H (name & m & Hin & -> & Hkey).
  set (I := λ (done : list (string * Model)) (s : list (string * Attack))
              (acc : list sample_information),
              dict_keys s = dict_keys d ∧
              ((name, m) ∈ done →
               Forall (λ r', is_Some (dict_get (ref_key_of (member_format W) name) r')) acc)).
  assert (Hinv : I ([] ++ rms) d' results'); [|exact (proj2 Hinv Hin)].
  revert H. apply for_fold_ok_rel; unfold I.
  - intros done acc [name' m'] s s' t' acc' [Hk Hdone] Hbody.
    pose proof (reference_model_pass_records W cfg _ _ _ _ _ _ Hbody) as [Hk' _].
    split; [congruence|]. intros Hin'.
    apply reference_model_pass_steps in Hbody.
    destruct Hbody as [[Hnone ->]|[_ Hstep]].
    + apply elem_of_app in Hin'. destruct Hin' as [Hin'|Hin']; [exact (Hdone Hin')|].
      apply list_elem_of_singleton in Hin'. injection Hin' as -> ->.
      exfalso. apply dict_get_None_keys in Hnone. apply Hnone. rewrite Hk. exact Hkey.
    + destruct (String.eqb (ref_key_of (member_format W) name') (ref_key_of (member_format W) name)) eqn:E.
      * apply String.eqb_eq in E.
        eapply Forall2_Forall_r; [exact Hstep|]. apply Forall_forall.
        intros r _ r' (self & self' & t0 & Hscore). rewrite <- E.
        eapply reference_scores_has. exact Hscore.
      * apply String.eqb_neq in E.
        apply elem_of_app in Hin'. destruct Hin' as [Hin'|Hin'].
        -- eapply Forall2_Forall_r; [exact Hstep|].
           eapply Forall_impl; [exact (Hdone Hin')|].
           intros r Hr r' (self & self' & t0 & Hscore).
           eapply grown_has; [eapply reference_scores_grown; exact Hscore|exact Hr].
        -- apply list_elem_of_singleton in Hin'. injection Hin' as -> ->. contradiction.
  - split; [reflexivity|]. intros Habs. apply elem_of_nil in Habs. contradiction.
Qed.

Lemma reference_pass_scoreless rms results (d d' : list (string * Attack)) t results' :
  for_fold (reference_model_pass W cfg) results rms d = (d', t, Ok results') →
  Forall2 (λ r r', scoreless r → scoreless r') results results'.
Proof.
  apply for_fold_ok_inv
    with (I := λ (_ : list (string * Attack)) acc,
               Forall2 (λ r r', scoreless r → scoreless r') results acc).
  - intros acc [name m] s s' t' acc' _ Hacc Hbody.
    apply reference_model_pass_steps in Hbody. destruct Hbody as [[_ ->]|[_ Hstep]];
      [exact Hacc|].
    eapply Forall2_trans; [|exact Hacc|exact Hstep].
    intros r0 r1 r2 H01 (self & self' & t0 & Hscore) H0.
    exact (proj1 (reference_scores_empty W cfg _ _ _ _ _ _ Hscore (H01 H0))).
  - apply Forall_Forall2_diag, Forall_forall. auto.
Qed.
End Columns.

Lemma grown_has_inv allowed d d' k0 :
  grown allowed d d' → is_Some (dict_get k0 d') → is_Some (dict_get k0 d) ∨ allowed k0.
Proof.
  intros H H0. induction H as [|d d1 d2 k xs _ IH Hk He]; [left; exact H0|].
  destruct (String.eqb k k0) eqn:E.
  - apply String.eqb_eq in E. subst k0. right. exact Hk.
  - apply String.eqb_neq in E. rewrite (dict_extend_other _ _ _ _ _ He E) in H0.
    exact (IH H0).
Qed.

Lemma initial_record_has sample si0 k :
  initial_record sample si0 → is_Some (dict_get k si0) → k = "sample" ∨ k = "detokenized".
Proof.
  intros [->|[ds ->]]; simpl.
  - destruct (String.eqb k "sample") eqn:E; [apply String.eqb_eq in E; auto|].
    intros [? H]. discriminate H.
  - destruct (String.eqb k "sample") eqn:E; [apply String.eqb_eq in E; auto|].
    destruct (String.eqb k "detokenized") eqn:E'; [apply String.eqb_eq in E'; auto|].
    intros [? H]. discriminate H.
Qed.

Lemma Forall2_and_r {A B} (R : A → B → Prop) (Q : B → Prop) l k :
  Forall2 R l k → Forall Q k → Forall2 (λ x y, R x y ∧ Q y) l k.
Proof.
  intros H. induction H as [|x y l k Hxy H IH]; intros HQ; [constructor|].
  apply Forall_cons in HQ. destruct HQ as [Hy HQ]. constructor; auto.
Qed.

Lemma Forall2_and {A B} (R R' : A → B → Prop) l k :
  Forall2 R l k → Forall2 R' l k → Forall2 (λ x y, R x y ∧ R' x y) l k.
Proof.
  intros H. induction H as [|x y l k Hxy H IH]; intros H'; [constructor|].
  apply Forall2_cons in H'. destruct H' as [Hxy' H']. constructor; auto.
Qed.

(** The records of a run that returns. *)
Lemma run_records W target_model cfg data ref_models n_samples batch_size
    (d d' : list (string * Attack)) t predictions samples :
  get_mia_scores W target_model cfg data ref_models n_samples batch_size d
  = (d', t, Ok (predictions, samples)) →
  ∃ nb results,
    nb = loaded_neighbors cfg data (dict_keys d) ∧
    Forall2 (aligned_record (member_format W) cfg nb (default [] ref_models) (dict_keys d))
            (visited_records data n_samples batch_size) results ∧
    aggregate results = Ok (predictions, samples).
Proof.
  unfold get_mia_scores. intros H.
  apply bind_ok_inv in H. destruct H as (s1 & t1 & [] & t2 & Hemit & H & _).
  apply emit_ok_inv in Hemit. destruct Hemit as (-> & _).
  apply bind_ok_inv in H. destruct H as (s3 & t5 & nb & t6 & Hnb & H & _).
  destruct (load_neighbors_run cfg data d) as (tn & rn & Hload & _ & Hloaded).
  rewrite Hload in Hnb. injection Hnb as <- _ Hrn.
  apply bind_ok_inv in H. destruct H as (s4 & t7 & results1 & t8 & Hp & H & _).
  apply bind_ok_inv in H. destruct H as (s5 & t9 & results2 & t10 & Hr & H & _).
  apply lift_result_ok_inv in H. destruct H as (Hagg & _ & _).
  exists nb, results2. split; [exact (Hloaded nb Hrn)|]. split; [|exact Hagg].
  pose proof (primary_pass_records _ _ _ _ _ _ _ _ _ _ _ Hp) as [Hkeys F1].
  pose proof (primary_pass_rel_keys W target_model cfg nb
                (λ doc r, substrings cfg doc ≠ [] →
                          ∀ k, primary_key cfg nb (dict_keys d) k → is_Some (dict_get k r))
                data (default (Z.of_nat (length (records data))) n_samples)
                batch_size d s4 t7 results1) as F2.
  cbv beta in F2. specialize (F2 ltac:(intros doc_index doc d0 d1 t0 si Hk Hdoc Hne k Hpk;
                                         eapply process_document_has;
                                         [exact Hdoc|exact Hne|rewrite Hk; exact Hpk]) Hp).
  pose proof (primary_pass_rel W target_model cfg nb
                (λ doc r, substrings cfg doc = [] → scoreless r)
                data (default (Z.of_nat (length (records data))) n_samples)
                batch_size d s4 t7 results1) as F3.
  cbv beta in F3. specialize (F3 ltac:(intros; eapply process_document_empty; eassumption) Hp).
  fold (visited_records data n_samples batch_size) in F1, F2, F3.
  assert (G : Forall2 (grown (scored_reference_key (member_format W) (default [] ref_models) (dict_keys d)))
                      results1 results2 ∧
              (∀ k, scored_reference_key (member_format W) (default [] ref_models) (dict_keys d) k →
                    Forall (λ r', is_Some (dict_get k r')) results2) ∧
              Forall2 (λ r r', scoreless r → scoreless r') results1 results2).
  { unfold reference_pass in Hr. destruct ref_models as [rms|]; simpl.
    - rewrite <- Hkeys. split; [|split].
      + eapply reference_pass_scored. exact Hr.
      + intros k Hk. eapply reference_pass_has; eassumption.
      + eapply reference_pass_scoreless. exact Hr.
    - apply bind_ok_inv in Hr. destruct Hr as (? & ? & [] & ? & _ & Hr & _).
      apply mret_ok_inv in Hr. destruct Hr as (_ & _ & ->).
      split; [|split].
      + apply Forall_Forall2_diag, Forall_forall. intros. constructor.
      + intros k (name & m & Habs & _). apply elem_of_nil in Habs. contradiction.
      + apply Forall_Forall2_diag, Forall_forall. auto. }
  destruct G as (G1 & G2 & G3).
  pose proof (Forall2_and _ _ _ _ (Forall2_and _ _ _ _ F1 F2) F3) as F.
  pose proof (Forall2_and _ _ _ _ G1 G3) as G.
  assert (G' : Forall2 (λ r r',
                          (grown (scored_reference_key (member_format W) (default [] ref_models) (dict_keys d))
                                 r r' ∧ (scoreless r → scoreless r')) ∧
                          ∀ k, scored_reference_key (member_format W) (default [] ref_models) (dict_keys d) k →
                               is_Some (dict_get k r'))
                       results1 results2).
  { apply Forall2_and_r; [exact G|]. apply Forall_forall. intros r' Hr' k Hk.
    exact (proj1 (Forall_forall _ _) (G2 k Hk) r' Hr'). }
  eapply Forall2_trans; [|exact F|exact G'].
  intros doc r1 r2 [[(sample & si0 & Hsel & Hinit & Hg0) H2] H3] [[Hg Hless] Href].
  split; [|split; [|split]].
  - eapply grown_NoDup; [exact Hg|]. eapply grown_NoDup; [exact Hg0|].
    eapply initial_record_NoDup. exact Hinit.
  - intros k Hk. apply (grown_has_inv _ _ _ _ Hg) in Hk.
    destruct Hk as [Hk|Hk]; [|right; right; right; exact Hk].
    apply (grown_has_inv _ _ _ _ Hg0) in Hk.
    destruct Hk as [Hk|Hk]; [|right; right; left; exact Hk].
    apply (initial_record_has _ _ _ Hinit) in Hk. tauto.
  - intros Hne k [Hk|Hk].
    + eapply grown_has; [exact Hg|]. apply H2; assumption.
    + apply Href. exact Hk.
  - intros Hempty. apply Hless, H3. exact Hempty.
Qed.

(** The column of a key of scores has one value for every visited document
    with a substring, whether the key is in the table or not. *)
Lemma column_of_key W target_model cfg data ref_models n_samples batch_size
    (d d' : list (string * Attack)) t predictions samples k :
  get_mia_scores W target_model cfg data ref_models n_samples batch_size d
  = (d', t, Ok (predictions, samples)) →
  k ≠ "sample" → k ≠ "detokenized" →
  column_key (member_format W) cfg (loaded_neighbors cfg data (dict_keys d))
             (default [] ref_models) (dict_keys d) k →
  length (default [] (dict_get k predictions))
  = length (filter (λ doc, (0 < length (substrings cfg doc))%nat)
                   (visited_records data n_samples batch_size)).
Proof.
  intros H Hks Hkd Hkey.
  apply run_records in H. destruct H as (nb & results & -> & Hrec & Hagg).
  assert (Hnd : Forall (λ r, NoDup (dict_keys r)) results).
  { eapply Forall2_Forall_r; [exact Hrec|]. apply Forall_forall.
    intros doc _ r (Hr & _). exact Hr. }
  unfold aggregate in Hagg.
  destruct (aggregate_fold k results [] predictions [] samples Hnd Hks Hkd Hagg)
    as (_ & _ & _ & (ms & Hms & HR) & _).
  simpl in Hms. rewrite Hms.
  (* every score of the column is the minimum of a list that is not empty *)
  assert (Hmin : Forall (λ r, is_Some (dict_get k r) →
                              ∃ l m, dict_get k r = Some (Scores l) ∧ np_min l = Ok m)
                        results).
  { apply Forall_forall. intros r Hr Hhas.
    assert (Hin : r ∈ records_with k results).
    { unfold records_with. apply list_elem_of_filter. split; assumption. }
    apply list_elem_of_lookup in Hin. destruct Hin as [i Hi].
    destruct (Forall2_lookup_l _ _ _ _ _ HR Hi) as (x & _ & l & Hl & Hnp & _).
    eauto. }
  pose proof (Forall2_and_r _ _ _ _ Hrec Hmin) as Hboth.
  rewrite <- (Forall2_length _ _ _ HR). symmetry. unfold records_with.
  eapply Forall2_length. eapply Forall2_filter_rel; [exact Hboth|].
  intros doc r [(_ & _ & Hall & Hless) Hq]. simpl. split.
  - intros Hpos. apply Hall; [|exact Hkey]. intros Hnil. rewrite Hnil in Hpos.
    simpl in Hpos. lia.
  - intros Hhas. destruct (substrings cfg doc) as [|x xs] eqn:Hsub; [|simpl; lia].
    exfalso. destruct (Hless eq_refl) as (sample & _ & _ & Hempty).
    destruct (Hq Hhas) as (l & m & Hl & Hnp).
    rewrite (Hempty k l Hl) in Hnp. discriminate Hnp.
Qed.

(** X15. The table a run returns is rectangular: every column has exactly
    as many values as there are visited documents with at least one
    substring, so all columns have the same length, whatever the attackers
    and the reference models are. *)
Theorem columns_are_aligned W target_model cfg data ref_models n_samples batch_size
    (d : list (string * Attack)) predictions samples k col :
  outcome (get_mia_scores W target_model cfg data ref_models n_samples batch_size d)
  = Ok (predictions, samples) →
  dict_get k predictions = Some col →
  length col
  = length (filter (λ doc, (0 < length (substrings cfg doc))%nat)
                   (visited_records data n_samples batch_size)).
Proof.
  intros H Hcol. apply outcome_ok_inv in H. destruct H as (d' & t & H).
  pose proof H as Hrun.
  apply run_records in H. destruct H as (nb & results & Hnb & Hrec & Hagg).
  assert (Hnd : Forall (λ r, NoDup (dict_keys r)) results).
  { eapply Forall2_Forall_r; [exact Hrec|]. apply Forall_forall.
    intros doc _ r (Hr & _). exact Hr. }
  destruct (aggregate_minima results predictions samples LOSS Hnd) as (_ & _ & Hsn & Hdn);
    [discriminate..|exact Hagg|].
  assert (Hks : k ≠ "sample") by (intros ->; congruence).
  assert (Hkd : k ≠ "detokenized") by (intros ->; congruence).
  unfold aggregate in Hagg.
  destruct (aggregate_fold k results [] predictions [] samples Hnd Hks Hkd Hagg)
    as (_ & _ & _ & _ & Habs).
  (* some record holds the key, so it is a key of scores *)
  assert (Hsome : ∃ r0, r0 ∈ results ∧ is_Some (dict_get k r0)).
  { destruct (records_with k results) as [|r0 rest] eqn:Hw.
    - exfalso. rewrite Habs in Hcol; [discriminate|reflexivity|].
      apply Forall_forall. intros r Hr.
      destruct (dict_get k r) as [e|] eqn:Hget; [|reflexivity].
      assert (Hin : r ∈ records_with k results).
      { unfold records_with. apply list_elem_of_filter. split; [rewrite Hget; eauto|exact Hr]. }
      rewrite Hw in Hin. apply elem_of_nil in Hin. contradiction.
    - exists r0. assert (Hin : r0 ∈ records_with k results) by (rewrite Hw; left).
      unfold records_with in Hin. apply list_elem_of_filter in Hin. tauto. }
  destruct Hsome as (r0 & Hr0 & Hhas0).
  apply list_elem_of_lookup in Hr0. destruct Hr0 as [j Hj].
  destruct (Forall2_lookup_r _ _ _ _ _ Hrec Hj) as (doc0 & _ & _ & Hin0 & _).
  assert (Hkey : column_key (member_format W) cfg nb (default [] ref_models) (dict_keys d) k).
  { destruct (Hin0 k Hhas0) as [?|[?|?]]; [contradiction..|assumption]. }
  subst nb.
  pose proof (column_of_key W target_model cfg data ref_models n_samples batch_size
                d d' t predictions samples k Hrun Hks Hkd Hkey) as Hlen.
  rewrite Hcol in Hlen. exact Hlen.
Qed.

Lemma columns_are_aligned_witness :
  length [3; 3]%Q
  = length (filter (λ doc, (0 < length (substrings (example_config_ref false) doc))%nat)
                   (visited_records example_data None 50)).
Proof.
  exact (columns_are_aligned example_world "target" (example_config_ref false)
           example_data (Some example_ref_models) None 50 (example_ref_attackers false)
           [("loss", [2; 2]%Q); ("ref-A", [3; 3]%Q); ("ref-B", [3; 3]%Q)]
           [VList [VStr "The cat sat."]; VList [VStr "The dog ran."]]
           "ref-B" [3; 3]%Q eq_refl eq_refl).
Defined.

(** ** The neighbourhood attack by count (C7) *)





(** ** What the first pass hands to the attackers *)


Section FirstPassCalls.
Variable W : Collaborators.
Variable target_model : Model.
Variable cfg : ExperimentConfig.
Variable nb : option (gmap Z (list (list value))).




End FirstPassCalls.

